(** * GPST (GlobalProtect SSL tunnel) transport of OpenConnect: [gpst.c]

    A shallow embedding of [buf_hexdump], [parse_cookie], [gpst_connect]
    and [gpst_mainloop], and the properties of the cookie store, the
    handshake, the 16-byte frame header, the write-retry logic and the
    trace output.

    Conventions.  C [int]s that only carry lengths, return codes and
    timestamps are [Z].  An [unsigned char] is a [Byte.byte]; text ([char *])
    is a [string] holding the characters before the terminating NUL.  What
    the environment decides (results of [ssl_nonblock_read],
    [ssl_nonblock_write], [time], [malloc], [ssl_reconnect], the content of
    uninitialised memory) is an explicit argument.  The calls of
    [vpn_progress] and [buf_hexdump] only log and are left out of
    [gpst_connect] and [gpst_mainloop]; [buf_hexdump] is embedded on its
    own. *)

From Stdlib Require Import ZArith List String Ascii Bool Lia.
From Stdlib Require Import Strings.Byte.
From Equations Require Import Equations.
From Equations.Prop Require Import Logic.
Import ListNotations.

Local Open Scope Z_scope.

(** ** Integers in memory *)

Module Wire.

(** Value of an [unsigned char]. *)
Definition u8 (b : byte) : Z := Z.of_N (Byte.to_N b).

(** Conversion of an integer to [unsigned char]: the low 8 bits. *)
Definition to_u8 (z : Z) : byte :=
  match Byte.of_N (Z.to_N (Z.land z 255)) with
  | Some b => b
  | None => x00
  end.

(** [p[i]] for a pointer [p] into a byte buffer. *)
Definition at_ (p : list byte) (i : nat) : Z := u8 (nth i p x00).

(** Modelled from the spec: the inline helpers [load_be16], [load_be32],
    [load_le32], [store_be16], [store_be32] and [store_le32] of
    [openconnect-internal.h] are not part of the sources at hand; they are
    the big-endian and little-endian accessors that the layout comment at
    the head of [gpst.c] and the frame header description call for. *)
Definition load_be16 (p : list byte) : Z :=
  Z.lor (Z.shiftl (at_ p 0) 8) (at_ p 1).

Definition load_be32 (p : list byte) : Z :=
  Z.lor (Z.lor (Z.lor (Z.shiftl (at_ p 0) 24) (Z.shiftl (at_ p 1) 16))
               (Z.shiftl (at_ p 2) 8))
        (at_ p 3).

Definition load_le32 (p : list byte) : Z :=
  Z.lor (Z.lor (Z.lor (Z.shiftl (at_ p 3) 24) (Z.shiftl (at_ p 2) 16))
               (Z.shiftl (at_ p 1) 8))
        (at_ p 0).

(** The argument of [store_be16] is a [uint16_t]: an [int] passed to it is
    reduced modulo 2^16 by the call. *)
Definition uint16 (d : Z) : Z := Z.land d 65535.
Definition uint32 (d : Z) : Z := Z.land d 4294967295.

Definition store_be16 (d : Z) : list byte :=
  let d := uint16 d in
  [to_u8 (Z.shiftr d 8); to_u8 d].

Definition store_be32 (d : Z) : list byte :=
  let d := uint32 d in
  [to_u8 (Z.shiftr d 24); to_u8 (Z.shiftr d 16); to_u8 (Z.shiftr d 8); to_u8 d].

Definition store_le32 (d : Z) : list byte :=
  let d := uint32 d in
  [to_u8 d; to_u8 (Z.shiftr d 8); to_u8 (Z.shiftr d 16); to_u8 (Z.shiftr d 24)].

End Wire.

(** ** Packets and the frame header *)

Module Frame.
Import Wire.

(** [struct pkt]: the payload length [len], the 16 bytes of [gpst.hdr] and
    the bytes of [data], which follow [gpst.hdr] in memory. *)
Record pkt := mkpkt {
  len : Z;
  hdr : list byte;
  data : list byte
}.

(** The memory from [gpst.hdr] onwards. *)
Definition pkt_mem (p : pkt) : list byte := hdr p ++ data p.

(** The payload: the first [len] bytes of [data]. *)
Definition pkt_payload (p : pkt) : list byte := firstn (Z.to_nat (len p)) (data p).

(** The bytes handed to [ssl_nonblock_write]: [len + 16] bytes starting at
    [gpst.hdr]. *)
Definition wire_bytes (p : pkt) : list byte :=
  firstn (Z.to_nat (len p + 16)) (pkt_mem p).

Definition GPST_MAGIC : Z := 0x1a2b3c4d.
Definition ETHERTYPE_IPV4 : Z := 0x0800.

(** "store header": the five stores at offsets 0, 4, 6, 8 and 12 rewrite
    all 16 bytes of [gpst.hdr]. *)
Definition store_header (this : pkt) : pkt :=
  mkpkt (len this)
        (store_be32 GPST_MAGIC
         ++ store_be16 ETHERTYPE_IPV4
         ++ store_be16 (len this)
         ++ store_le32 1
         ++ store_le32 0)
        (data this).

(** The frame as it goes on the wire for a packet taken from the outgoing
    queue. *)
Definition encode_frame (this : pkt) : list byte := wire_bytes (store_header this).

(** The declared payload length of a frame. *)
Definition declared_len (frame : list byte) : Z := load_be16 (skipn 6 frame).

(** The ways a received frame is refused.  [ShortHeader] is the
    "Short packet received" exit; the other four lead to [unknown_pkt]. *)
Inductive frame_error :=
| ShortHeader
| BadMagic
| BadEtherType
| LengthMismatch
| BadTrailer.

(** "check packet header", on the header bytes and the value [len] returned
    by the read.  Yields the EtherType and the payload length. *)
Definition check_header (h : list byte) (len : Z) : frame_error + (Z * Z) :=
  if len <? 16 then inl ShortHeader else
  let magic := load_be32 h in
  let ethertype := load_be16 (skipn 4 h) in
  let payload_len := load_be16 (skipn 6 h) in
  let one := load_le32 (skipn 8 h) in
  let zero := load_le32 (skipn 12 h) in
  if negb (magic =? GPST_MAGIC) then inl BadMagic
  else if negb (ethertype =? ETHERTYPE_IPV4) then inl BadEtherType
  else if negb (len =? 16 + payload_len) then inl LengthMismatch
  else if negb (one =? 1) || negb (zero =? 0) then inl BadTrailer
  else inr (ethertype, payload_len).

(** A read of the bytes [buf] into the memory of [p] at [gpst.hdr]: the
    bytes received replace the start of the buffer, what lies behind them
    stays. *)
Definition pkt_fill (p : pkt) (buf : list byte) : pkt :=
  let mem := buf ++ skipn (List.length buf) (pkt_mem p) in
  mkpkt (len p) (firstn 16 mem) (skipn 16 mem).

(** One received buffer: read into the receive packet, header check, and
    on success the packet that is queued with [len] set to the payload
    length. *)
Definition recv_frame (p : pkt) (buf : list byte) : frame_error + (Z * pkt) :=
  let p1 := pkt_fill p buf in
  match check_header (hdr p1) (Z.of_nat (List.length buf)) with
  | inl e => inl e
  | inr (ethertype, payload_len) =>
      inr (ethertype, mkpkt payload_len (hdr p1) (data p1))
  end.

(** Decoding as the frame codec sees it: EtherType and payload. *)
Definition decode_frame (p : pkt) (buf : list byte) : frame_error + (Z * list byte) :=
  match recv_frame p buf with
  | inl e => inl e
  | inr (ethertype, q) => inr (ethertype, pkt_payload q)
  end.

End Frame.

(** ** The cookie store *)

Module Cookie.
Local Open Scope string_scope.

Definition EINVAL : Z := 22.

(** [struct oc_vpn_option] lists: option name and value, in list order. *)
Definition cookie_store := list (string * string).

(** [isspace] in the C locale: space and the controls 9 to 13. *)
Definition isspace (c : ascii) : bool :=
  let n := nat_of_ascii c in
  Nat.eqb n 32 || (Nat.leb 9 n && Nat.leb n 13).

(** [strchr(p, c)] together with the cut [*q = 0] the caller makes at the
    position found: the characters before the first [c] and those after
    it; [None] when [strchr] returns NULL. *)
Fixpoint strchr (p : string) (c : ascii) : option (string * string) :=
  match p with
  | EmptyString => None
  | String a r =>
      if Ascii.eqb a c then Some (EmptyString, r)
      else match strchr r c with
           | Some (before, after) => Some (String a before, after)
           | None => None
           end
  end.

(** [while ( *p && isspace( *p)) p++] *)
Fixpoint skip_space (p : string) : string :=
  match p with
  | EmptyString => EmptyString
  | String a r => if isspace a then skip_space r else p
  end.

Definition has_cookie (cookies : cookie_store) (name : string) : bool :=
  existsb (fun c => String.eqb (fst c) name) cookies.

(** Modelled from the spec: [http_add_cookie] is not part of the sources at
    hand.  It is called with [replace = 0]; the store is an
    insertion-ordered mapping in which a key that is already present is
    never overwritten (first occurrence wins) and a new key goes to the
    end. *)
Definition http_add_cookie (cookies : cookie_store) (name value : string)
  : cookie_store :=
  if has_cookie cookies name then cookies
  else (cookies ++ [(name, value)])%list.

(** Named lookup: the value stored under a key. *)
Definition lookup (cookies : cookie_store) (name : string) : option string :=
  match find (fun c => String.eqb (fst c) name) cookies with
  | Some c => Some (snd c)
  | None => None
  end.

(** The loop of [parse_cookie] on the text at [p].  Each round takes the
    field up to the next [';'], splits it at its first ['='] and adds the
    cookie; the result is the return value and the store.  The text is
    written to only to cut it: every [';'] and ['='] replaced by NUL is
    put back, except the [';'] behind a field without ['='] on the error
    exit.  A second parse of the text cut there stops at the same field
    with the same store, so the text is not carried along. *)
Equations? parse_cookie_loop (p : string) (cookies : cookie_store)
  : Z * cookie_store by wf (String.length p) lt :=
  parse_cookie_loop EmptyString cookies := (0, cookies);
  parse_cookie_loop (String a r) cookies with inspect (strchr (String a r) ";") := {
    | exist _ None _ with strchr (String a r) "=" := {
        | None := (- EINVAL, cookies);
        | Some (name, value) := (0, http_add_cookie cookies name value) };
    | exist _ (Some (field, rest)) _ with strchr field "=" := {
        | None := (- EINVAL, cookies);
        | Some (name, value) :=
            parse_cookie_loop (skip_space rest) (http_add_cookie cookies name value) } }.
Proof.
  assert (Hcut : forall q c x y, strchr q c = Some (x, y) ->
                   (String.length y < String.length q)%nat).
  { induction q as [|b q IH]; simpl; intros c x y H; [discriminate|].
    destruct (Ascii.eqb b c).
    - injection H as _ <-. lia.
    - destruct (strchr q c) as [[x' y']|] eqn:E; [|discriminate].
      injection H as _ <-. specialize (IH _ _ _ E). lia. }
  assert (Hskip : forall q, (String.length (skip_space q) <= String.length q)%nat).
  { induction q as [|b q IH]; simpl; [lia|]. destruct (isspace b); simpl; lia. }
  specialize (Hcut (String a r) _ _ _ e). specialize (Hskip rest). simpl in Hcut. lia.
Qed.

(** [parse_cookie]: [vpninfo->cookie] may be NULL. *)
Definition parse_cookie (cookie : option string) (cookies : cookie_store)
  : Z * cookie_store :=
  match cookie with
  | None => (0, cookies)
  | Some p => parse_cookie_loop p cookies
  end.

End Cookie.

(** ** The connection object *)

Module Info.
Import Frame Cookie.

(** [vpninfo->ip_info], the fields that [gpst_connect] sets. *)
Record ip_info_t := mk_ip_info {
  addr : option string;
  netmask : option string;
  mtu : Z
}.

(** Modelled from the spec: the enumeration of [dtls_state] is declared in
    [openconnect-internal.h], which is not part of the sources at hand.
    [gpst.c] names [DTLS_CONNECTED] only (the parallel channel is marked
    connected); every other state is kept apart by a number. *)
Inductive dtls_state_t :=
| DTLS_CONNECTED
| DTLS_NOT_CONNECTED (state : nat).

Definition is_dtls_connected (d : dtls_state_t) : bool :=
  match d with
  | DTLS_CONNECTED => true
  | DTLS_NOT_CONNECTED _ => false
  end.

(** The fields of [struct openconnect_info] that [gpst.c] reads or writes.
    The packet queues are lists with the oldest packet first. *)
Record openconnect_info := mk_info {
  cookie : option string;
  cookies : cookie_store;
  ip_info : ip_info_t;
  ssl_fd : Z;
  cstp_pkt : option pkt;
  current_ssl_pkt : option pkt;
  incoming_queue : list pkt;
  outgoing_queue : list pkt;
  dtls_state : dtls_state_t;
  last_rx : Z;
  last_tx : Z;
  quit_reason : option string
}.

Definition set_cookies (v : openconnect_info) (x : cookie_store) :=
  mk_info (cookie v) x (ip_info v) (ssl_fd v) (cstp_pkt v) (current_ssl_pkt v)
          (incoming_queue v) (outgoing_queue v) (dtls_state v) (last_rx v)
          (last_tx v) (quit_reason v).
Definition set_ip_info (v : openconnect_info) (x : ip_info_t) :=
  mk_info (cookie v) (cookies v) x (ssl_fd v) (cstp_pkt v) (current_ssl_pkt v)
          (incoming_queue v) (outgoing_queue v) (dtls_state v) (last_rx v)
          (last_tx v) (quit_reason v).
Definition set_ssl_fd (v : openconnect_info) (x : Z) :=
  mk_info (cookie v) (cookies v) (ip_info v) x (cstp_pkt v) (current_ssl_pkt v)
          (incoming_queue v) (outgoing_queue v) (dtls_state v) (last_rx v)
          (last_tx v) (quit_reason v).
Definition set_cstp_pkt (v : openconnect_info) (x : option pkt) :=
  mk_info (cookie v) (cookies v) (ip_info v) (ssl_fd v) x (current_ssl_pkt v)
          (incoming_queue v) (outgoing_queue v) (dtls_state v) (last_rx v)
          (last_tx v) (quit_reason v).
Definition set_current_ssl_pkt (v : openconnect_info) (x : option pkt) :=
  mk_info (cookie v) (cookies v) (ip_info v) (ssl_fd v) (cstp_pkt v) x
          (incoming_queue v) (outgoing_queue v) (dtls_state v) (last_rx v)
          (last_tx v) (quit_reason v).
Definition set_incoming_queue (v : openconnect_info) (x : list pkt) :=
  mk_info (cookie v) (cookies v) (ip_info v) (ssl_fd v) (cstp_pkt v)
          (current_ssl_pkt v) x (outgoing_queue v) (dtls_state v) (last_rx v)
          (last_tx v) (quit_reason v).
Definition set_outgoing_queue (v : openconnect_info) (x : list pkt) :=
  mk_info (cookie v) (cookies v) (ip_info v) (ssl_fd v) (cstp_pkt v)
          (current_ssl_pkt v) (incoming_queue v) x (dtls_state v) (last_rx v)
          (last_tx v) (quit_reason v).
Definition set_last_rx (v : openconnect_info) (x : Z) :=
  mk_info (cookie v) (cookies v) (ip_info v) (ssl_fd v) (cstp_pkt v)
          (current_ssl_pkt v) (incoming_queue v) (outgoing_queue v)
          (dtls_state v) x (last_tx v) (quit_reason v).
Definition set_last_tx (v : openconnect_info) (x : Z) :=
  mk_info (cookie v) (cookies v) (ip_info v) (ssl_fd v) (cstp_pkt v)
          (current_ssl_pkt v) (incoming_queue v) (outgoing_queue v)
          (dtls_state v) (last_rx v) x (quit_reason v).
Definition set_quit_reason (v : openconnect_info) (x : string) :=
  mk_info (cookie v) (cookies v) (ip_info v) (ssl_fd v) (cstp_pkt v)
          (current_ssl_pkt v) (incoming_queue v) (outgoing_queue v)
          (dtls_state v) (last_rx v) (last_tx v) (Some x).

(** Calls into the rest of OpenConnect and the TLS layer that leave a
    mark outside the connection object, in the order they are made. *)
Inductive call :=
| DisableIPv6
| OpenHttps
| SslWrite (request : string)
| SslRead (size : Z)
| CloseHttps
| MonitorFdNew
| MonitorReadFd
| MonitorExceptFd
| UnmonitorWriteFd
| NonblockWrite (bytes : list byte)
| Reconnect.

End Info.

(** ** Session establishment: [gpst_connect] *)

Module Connect.
Import Cookie Info.
Local Open Scope string_scope.

Definition EINTR : Z := 4.
Definition EPIPE : Z := 32.

Definition isdigit (c : ascii) : bool :=
  let n := nat_of_ascii c in Nat.leb 48 n && Nat.leb n 57.

Fixpoint digits (s : string) (acc : Z) : Z :=
  match s with
  | String c r =>
      if isdigit c then digits r (10 * acc + (Z.of_nat (nat_of_ascii c) - 48))
      else acc
  | EmptyString => acc
  end.

Definition LONG_MAX : Z := 9223372036854775807.
Definition LONG_MIN : Z := - 9223372036854775808.

(** Conversion of a [long] to [int]: reduction to 32 bits, two's
    complement. *)
Definition long_to_int (z : Z) : Z := (z + 2147483648) mod 4294967296 - 2147483648.

(** [atoi] of the C library: leading white space, an optional sign, then
    decimal digits up to the first other character.  C leaves a value that
    does not fit an [int] undefined; it is taken here as glibc computes it,
    [(int) strtol(s, NULL, 10)], with [strtol] saturating at the bounds of
    [long]. *)
Definition atoi (s : string) : Z :=
  let s := skip_space s in
  let v := match s with
           | String "-" r => - digits r 0
           | String "+" r => digits r 0
           | _ => digits s 0
           end in
  long_to_int (Z.max LONG_MIN (Z.min LONG_MAX v)).

(** [strncmp]: the first [n] characters at most, stopping after a NUL; the
    end of a [string] reads as NUL.  The result is the difference of the
    first two characters that differ. *)
Fixpoint strncmp (s1 s2 : string) (n : nat) : Z :=
  match n with
  | O => 0
  | S n' =>
      let c1 := match s1 with String c _ => c | EmptyString => zero end in
      let c2 := match s2 with String c _ => c | EmptyString => zero end in
      if negb (Ascii.eqb c1 c2)
      then Z.of_nat (nat_of_ascii c1) - Z.of_nat (nat_of_ascii c2)
      else if Ascii.eqb c1 zero then 0
      else strncmp (match s1 with String _ r => r | EmptyString => EmptyString end)
                   (match s2 with String _ r => r | EmptyString => EmptyString end)
                   n'
  end.

(** The locals [tunnel_path], [username], [authcookie], [ipaddr] (NULL at
    first) and [mtu] (-1 at first). *)
Record locals := mk_locals {
  tunnel_path : option string;
  username : option string;
  authcookie : option string;
  ipaddr : option string;
  l_mtu : Z
}.

(** One round of the loop over [vpninfo->cookies]. *)
Definition scan_cookie (l : locals) (c : string * string) : locals :=
  let (name, value) := c in
  if name =? "TUNNEL" then
    mk_locals (Some value) (username l) (authcookie l) (ipaddr l) (l_mtu l)
  else if name =? "USER" then
    mk_locals (tunnel_path l) (Some value) (authcookie l) (ipaddr l) (l_mtu l)
  else if name =? "AUTH" then
    mk_locals (tunnel_path l) (username l) (Some value) (ipaddr l) (l_mtu l)
  else if name =? "IP" then
    mk_locals (tunnel_path l) (username l) (authcookie l) (Some value) (l_mtu l)
  else if name =? "MTU" then
    mk_locals (tunnel_path l) (username l) (authcookie l) (ipaddr l) (atoi value)
  else l.

Definition scan_cookies (cookies : cookie_store) : locals :=
  fold_left scan_cookie cookies (mk_locals None None None None (-1)).

(** The session parameters once the checks and defaults after the loop
    have been applied. *)
Record session := mk_session {
  s_tunnel_path : string;
  s_username : string;
  s_authcookie : string;
  s_ipaddr : string;
  s_mtu : Z
}.

(** The checks after the loop: [None] is the
    "Missing USERNAME and/or AUTH cookie" exit. *)
Definition session_of (l : locals) : option session :=
  match username l, authcookie l with
  | Some u, Some a =>
      Some (mk_session
              (match tunnel_path l with
               | Some t => t
               | None => "/ssl-tunnel-connect.sslvpn"
               end)
              u a
              (match ipaddr l with Some ip => ip | None => "0.0.0.0" end)
              (if (l_mtu l <=? 0)%Z then 1500 else l_mtu l))
  | _, _ => None
  end.

(** What [vpninfo->ssl_read(vpninfo, buf, 256)] does: fail with [-errno],
    or deliver the text that was received. *)
Inductive ssl_read_result :=
| SslReadFail (errno : positive)
| SslReadText (text : string).

(** What the environment decides during one run of [gpst_connect]:
    the return value of [openconnect_open_https] and the descriptor it
    leaves in [ssl_fd], [buf_append_urlencoded], the outcome of the read,
    and what the automatic array [buf], which is not initialised, holds
    before the read. *)
Record connect_env := mk_connect_env {
  open_https : Z;
  open_fd : Z;
  urlencode : string -> string;
  ssl_read : ssl_read_result;
  stack_buf : string
}.

(** The outcomes, one per exit of the function.  The errors are told apart
    by the message logged where the code has one. *)
Inductive connect_error :=
| MalformedCookie
| MissingCredentials
| TransportError (ret : Z)
| ReadInterrupted
| ReadFailed
| GatewayHttpError
| PeerClosed
| UnexpectedResponse.

Inductive connect_result :=
| Established
| Failed (e : connect_error).

(** The value of [ret] that the function returns for each outcome. *)
Definition retcode (r : connect_result) : Z :=
  match r with
  | Established => 0
  | Failed MalformedCookie => - EINVAL
  | Failed MissingCredentials => - EINVAL
  | Failed (TransportError ret) => ret
  | Failed ReadInterrupted => - EINTR
  | Failed ReadFailed => - EINVAL
  | Failed GatewayHttpError => - EINVAL
  | Failed PeerClosed => - EPIPE
  | Failed UnexpectedResponse => - EINVAL
  end.

(** The array [buf] after a read that delivered [got]: the characters
    received, then what the array held before. *)
Definition buf_after_read (stack got : string) : string :=
  got ++ substring (String.length got) (256 - String.length got) stack.

(** The dispatch on the response, [ret] being the number of characters
    read. *)
Definition dispatch_response (buf : string) (ret : Z) : connect_result :=
  if (strncmp buf "START_TUNNEL" 12 =? 0)%Z then Established
  else if (strncmp buf "HTTP/" 5 =? 0)%Z then Failed GatewayHttpError
  else if (ret =? 0)%Z then Failed PeerClosed
  else Failed UnexpectedResponse.

Definition request_line (s : session) (enc : string -> string) : string :=
  "GET " ++ s_tunnel_path s ++ "?user=" ++ enc (s_username s)
  ++ "&authcookie=" ++ s_authcookie s ++ " HTTP/1.1" ++ String "013" (String "010" (String "013" (String "010" ""))).

(** Modelled from the spec: [openconnect_close_https] is not part of the
    sources at hand; it tears the transport down, after which [ssl_fd] is
    -1, the value [gpst_mainloop] tests for. *)
Definition close_https (v : openconnect_info) : openconnect_info := set_ssl_fd v (-1).

(** [if (!vpninfo->cookies) ret = parse_cookie(vpninfo)]: the return value
    (0 when nothing is parsed) and the store afterwards. *)
Definition populate_cookies (v : openconnect_info) : Z * cookie_store :=
  match cookies v with
  | [] => parse_cookie (cookie v) []
  | _ => (0, cookies v)
  end.

(** The part of [gpst_connect] from [openconnect_disable_ipv6] on, with
    the session parameters [s] in the locals. *)
Definition tunnel_handshake (e : connect_env) (v : openconnect_info) (s : session)
  : connect_result * openconnect_info * list call :=
  if negb (open_https e =? 0)%Z
  then (Failed (TransportError (open_https e)), v, [DisableIPv6; OpenHttps])
  else
    let v := set_ssl_fd v (open_fd e) in
    let tr := [DisableIPv6; OpenHttps;
               SslWrite (request_line s (urlencode e)); SslRead 256] in
    match ssl_read e with
    | SslReadFail errno =>
        if (- Z.pos errno =? - EINTR)%Z then (Failed ReadInterrupted, v, tr)
        else (Failed ReadFailed, v, tr)
    | SslReadText text =>
        let got := substring 0 256 text in
        let buf := buf_after_read (stack_buf e) got in
        let r := dispatch_response buf (Z.of_nat (String.length got)) in
        let v :=
          match r with
          | Established =>
              set_ip_info v (mk_ip_info (Some (s_ipaddr s))
                                        (Some "255.255.255.255") (s_mtu s))
          | Failed _ => v
          end in
        if (retcode r <? 0)%Z
        then (r, close_https v, (tr ++ [CloseHttps])%list)
        else (r, v, (tr ++ [MonitorFdNew; MonitorReadFd; MonitorExceptFd])%list)
    end.

(** [gpst_connect]: the outcome, the connection object afterwards and the
    calls made. *)
Definition gpst_connect (e : connect_env) (v : openconnect_info)
  : connect_result * openconnect_info * list call :=
  let '(ret, cs) := populate_cookies v in
  let v := set_cookies v cs in
  if negb (ret =? 0)%Z then (Failed MalformedCookie, v, [])
  else
    match session_of (scan_cookies cs) with
    | None => (Failed MissingCredentials, v, [])
    | Some s => tunnel_handshake e v s
    end.

End Connect.

(** ** The steady state: [gpst_mainloop] *)

Module Mainloop.
Import Frame Info.

(** What a call of [ssl_nonblock_read] does: fail with [-errno], or
    deliver bytes (none when nothing is readable). *)
Inductive read_result :=
| ReadError (errno : positive)
| ReadData (buf : list byte).

(** What the environment decides during one wake-up, apart from the
    reads: the block each [malloc] returns ([None] when it fails; its
    content is not initialised), the value of each [time(NULL)], the
    return value of each [ssl_nonblock_write], and the return value of
    [ssl_reconnect] with the descriptor it leaves in [ssl_fd]. *)
Record oracle := mk_oracle {
  o_malloc : nat -> option pkt;
  o_time : nat -> Z;
  o_write : nat -> Z;
  o_reconnect : Z * Z
}.

(** How many calls of each kind have been made during the wake-up. *)
Record calls := mk_calls {
  n_malloc : nat;
  n_time : nat;
  n_write : nat
}.

(** The receive buffer takes [65536 + 16] bytes, and a call of
    [ssl_nonblock_read] delivers that many at most. *)
Definition READ_CAP : Z := 65536 + 16.

Definition delivered (bytes : list byte) : list byte :=
  firstn (Z.to_nat READ_CAP) bytes.

Arguments delivered : simpl never.

(** Modelled from the spec: [queue_packet] and [dequeue_packet] are not
    part of the sources at hand; the queues are FIFO, a packet is added at
    the tail and taken from the head ([service_queue] below takes the head
    of the list, or finds the list empty where [dequeue_packet] returns
    NULL). *)
Definition queue_packet (q : list pkt) (p : pkt) : list pkt := q ++ [p].

(** How the read loop is left. *)
Inductive read_exit :=
| ReadBreak (v : openconnect_info) (c : calls) (work_done : Z)
| ReadReconnect (v : openconnect_info) (c : calls)
| ReadReturn (ret : Z) (v : openconnect_info) (c : calls).

(** [if (!vpninfo->cstp_pkt) vpninfo->cstp_pkt = malloc(...)]: the receive
    packet, or [None] when the allocation fails. *)
Definition ensure_cstp_pkt (o : oracle) (v : openconnect_info) (c : calls)
  : option pkt * calls :=
  match cstp_pkt v with
  | Some p => (Some p, c)
  | None => (o_malloc o (n_malloc c),
             mk_calls (S (n_malloc c)) (n_time c) (n_write c))
  end.

(** The [while (1)] loop over the reads of this wake-up.  [reads] lists
    what the successive calls of [ssl_nonblock_read] deliver; a call
    delivers [READ_CAP] bytes at most, and once the list is exhausted
    nothing is readable and the call returns 0. *)
Fixpoint read_loop (o : oracle) (reads : list read_result)
         (v : openconnect_info) (c : calls) (work_done : Z) : read_exit :=
  match ensure_cstp_pkt o v c with
  | (None, c) => ReadBreak v c work_done
  | (Some p, c) =>
      match reads with
      | [] => ReadBreak (set_cstp_pkt v (Some p)) c work_done
      | ReadError errno :: _ => ReadReconnect (set_cstp_pkt v (Some p)) c
      | ReadData bytes :: reads' =>
          let buf := delivered bytes in
          let v := set_cstp_pkt v (Some (pkt_fill p buf)) in
          if Z.of_nat (List.length buf) =? 0 then ReadBreak v c work_done
          else
            match recv_frame p buf with
            | inl ShortHeader =>
                ReadReturn 1 (set_quit_reason v "Short packet received") c
            | inl _ =>
                ReadReturn 1 (set_quit_reason v "Unknown packet received") c
            | inr (_, q) =>
                let v := set_last_rx v (o_time o (n_time c)) in
                let c := mk_calls (n_malloc c) (S (n_time c)) (n_write c) in
                let v := set_incoming_queue v (queue_packet (incoming_queue v) q) in
                let v := set_cstp_pkt v None in
                read_loop o reads' v c 1
            end
      end
  end.

(** The result of a wake-up: the return value, the connection object and
    the calls made. *)
Definition result := (Z * openconnect_info * list call)%type.

(** [do_reconnect] *)
Definition do_reconnect (o : oracle) (v : openconnect_info) (tr : list call)
  : result :=
  let '(ret, fd) := o_reconnect o in
  let v := set_ssl_fd v fd in
  if negb (ret =? 0)
  then (ret, set_quit_reason v "GPST reconnect failed", tr ++ [Reconnect])
  else (1, v, tr ++ [Reconnect]).

(** How [handle_outgoing] is left: the write was complete and the slot is
    free again, or the function returns. *)
Inductive write_exit :=
| WriteDone (v : openconnect_info) (c : calls) (tr : list call)
| WriteReturn (r : result).

(** [handle_outgoing], with [current_ssl_pkt] pointing to [p]. *)
Definition handle_outgoing (o : oracle) (p : pkt) (v : openconnect_info)
           (c : calls) (work_done : Z) (tr : list call) : write_exit :=
  let v := set_last_tx v (o_time o (n_time c)) in
  let tr := tr ++ [UnmonitorWriteFd; NonblockWrite (wire_bytes p)] in
  let ret := o_write o (n_write c) in
  let c := mk_calls (n_malloc c) (S (n_time c)) (S (n_write c)) in
  if ret <? 0 then WriteReturn (do_reconnect o v tr)
  else if ret =? 0 then WriteReturn (work_done, v, tr)
  else if negb (ret =? len p + 16)
  then WriteReturn (1, set_quit_reason v "Internal error", tr)
  else WriteDone (set_current_ssl_pkt v None) c tr.

(** "Service outgoing packet queue": the [while] loop whose body stores
    the header and jumps to [handle_outgoing]; after a complete write the
    loop condition is evaluated again.  [q] is [vpninfo->outgoing_queue]. *)
Fixpoint service_queue (o : oracle) (q : list pkt) (v : openconnect_info)
         (c : calls) (work_done : Z) (tr : list call) : result :=
  if is_dtls_connected (dtls_state v) then (work_done, v, tr)
  else
    match q with
    | [] => (work_done, set_current_ssl_pkt v None, tr)
    | this :: q' =>
        let this := store_header this in
        let v := set_current_ssl_pkt (set_outgoing_queue v q') (Some this) in
        match handle_outgoing o this v c work_done tr with
        | WriteReturn r => r
        | WriteDone v c tr => service_queue o q' v c work_done tr
        end
    end.

(** The part of the function after the read loop. *)
Definition write_phase (o : oracle) (v : openconnect_info) (c : calls)
           (work_done : Z) : result :=
  match current_ssl_pkt v with
  | Some p =>
      match handle_outgoing o p v c work_done [] with
      | WriteReturn r => r
      | WriteDone v c tr => service_queue o (outgoing_queue v) v c work_done tr
      end
  | None => service_queue o (outgoing_queue v) v c work_done []
  end.

(** [gpst_mainloop], one wake-up. *)
Definition gpst_mainloop (o : oracle) (reads : list read_result)
           (v : openconnect_info) : result :=
  if ssl_fd v =? -1 then do_reconnect o v []
  else
    match read_loop o reads v (mk_calls 0 0 0) 0 with
    | ReadBreak v c work_done => write_phase o v c work_done
    | ReadReconnect v c => do_reconnect o v []
    | ReadReturn ret v c => (ret, v, [])
    end.

(** The buffers handed to [ssl_nonblock_write] during a wake-up, in
    order. *)
Fixpoint writes_of (tr : list call) : list (list byte) :=
  match tr with
  | [] => []
  | NonblockWrite bytes :: tr' => bytes :: writes_of tr'
  | _ :: tr' => writes_of tr'
  end.

End Mainloop.


(** ** Views on a wake-up, and the values used in the examples *)

Module Views.
Import Frame Cookie Info Connect Mainloop.

(** The connection object and the call counts with which the read loop
    is left. *)
Definition exit_info (e : read_exit) : openconnect_info :=
  match e with
  | ReadBreak v _ _ => v
  | ReadReconnect v _ => v
  | ReadReturn _ v _ => v
  end.

Definition exit_calls (e : read_exit) : calls :=
  match e with
  | ReadBreak _ c _ => c
  | ReadReconnect _ c => c
  | ReadReturn _ _ c => c
  end.

(** Whether a wake-up gets as far as the code after the read loop: the
    transport is up and the read loop is left by [break]. *)
Definition reaches_write_phase (o : oracle) (reads : list read_result)
           (v : openconnect_info) : bool :=
  negb (ssl_fd v =? -1) &&
  match read_loop o reads v (mk_calls 0 0 0) 0 with
  | ReadBreak _ _ _ => true
  | _ => false
  end.

(** The first and the last buffer handed to [ssl_nonblock_write]. *)
Definition first_write (tr : list call) : option (list byte) :=
  hd_error (writes_of tr).

Definition last_write (tr : list call) : option (list byte) :=
  last (map Some (writes_of tr)) None.

(** A write is complete when it returns the [len + 16] bytes asked for. *)
Definition complete_write (ret : Z) (p : pkt) : Prop :=
  0 < ret /\ ret = len p + 16.

(** The number of packets a wake-up has added to the incoming queue. *)
Definition received (v v' : openconnect_info) : nat :=
  (List.length (incoming_queue v') - List.length (incoming_queue v))%nat.

(** The value that the loop over the cookies ends up with for a name: the
    one of the last entry of that name. *)
Definition last_value (cookies : cookie_store) (name : string) : option string :=
  lookup (rev cookies) name.

(** A connection object before the first connect: the cookie text from
    the login, an empty store, no transport. *)
Definition logged_in (text : string) : openconnect_info :=
  mk_info (Some text) [] (mk_ip_info None None 0) (-1) None None [] []
          (DTLS_NOT_CONNECTED 0) 0 0 None.

(** An environment for [gpst_connect] in which the transport opens on
    descriptor 3 and the read ends as given, with [stack] in the array
    before the read. *)
Definition handshake (r : ssl_read_result) (stack : string) : connect_env :=
  mk_connect_env 0 3 (fun s => s) r stack.

(** A receive packet and a short payload. *)
Definition rx0 : pkt := mkpkt 0 [] [].
Definition payload3 : list byte := [x45; x00; x1c].

(** A packet as the tun side queues it: 16 bytes of header room, then
    the payload. *)
Definition pkt_of (payload : list byte) : pkt :=
  mkpkt (Z.of_nat (List.length payload)) (repeat x00 16) payload.

(** A connection that is up, nothing queued, nothing in flight. *)
Definition idle : openconnect_info :=
  mk_info None [] (mk_ip_info None None 0) 3 None None [] []
          (DTLS_NOT_CONNECTED 0) 0 0 None.

(** An environment in which every allocation succeeds, the clock stands
    at [now], every write returns [w], and a reconnect succeeds. *)
Definition steady (now w : Z) : oracle :=
  mk_oracle (fun _ => Some rx0) (fun _ => now) (fun _ => w) (0, 4).

End Views.


(** ** The cookie text as a list of fields *)

Module CookieSpec.
Import Cookie.
Local Open Scope string_scope.

(** Splitting a text at every [';']: n separators give n + 1 fields. *)
Fixpoint split_semicolon (s : string) : list string :=
  match s with
  | EmptyString => [EmptyString]
  | String c r =>
      if Ascii.eqb c ";" then EmptyString :: split_semicolon r
      else match split_semicolon r with
           | f :: fs => String c f :: fs
           | [] => [String c EmptyString]
           end
  end.

(** The fields in the words of the specification: the text split on
    [';'], leading white space trimmed from each field after the first. *)
Definition fields (raw : string) : list string :=
  match split_semicolon raw with
  | [] => []
  | f :: fs => f :: map skip_space fs
  end.

(** A field without ['=']. *)
Definition lacks_equals (f : string) : bool :=
  match strchr f "=" with
  | None => true
  | Some _ => false
  end.

(** The fields taken in order, each split at its first ['='] and added
    to the store unless its name is there already; the first field
    without ['='] ends it with [-EINVAL]. *)
Fixpoint add_fields (fs : list string) (cookies : cookie_store)
  : Z * cookie_store :=
  match fs with
  | [] => (0, cookies)
  | f :: fs' =>
      match strchr f "=" with
      | None => (- EINVAL, cookies)
      | Some (name, value) => add_fields fs' (http_add_cookie cookies name value)
      end
  end.

(** The fields without a last field that is empty: what is left of the
    text after a final [';'] (and white space) is not looked at. *)
Fixpoint live (fs : list string) : list string :=
  match fs with
  | [] => []
  | f :: fs' =>
      match fs' with
      | [] => if String.eqb f "" then [] else [f]
      | _ :: _ => f :: live fs'
      end
  end.

(** The value of the first field whose name is [name]. *)
Fixpoint first_binding (fs : list string) (name : string) : option string :=
  match fs with
  | [] => None
  | f :: fs' =>
      match strchr f "=" with
      | Some (k, v) => if String.eqb k name then Some v else first_binding fs' name
      | None => first_binding fs' name
      end
  end.

End CookieSpec.


(** ** Traffic through a wake-up *)

Module Traffic.
Import Frame Info Mainloop Views.

(** The reads that deliver, one per call, the frames of the given
    payloads. *)
Definition frames_of (payloads : list (list byte)) : list read_result :=
  map (fun payload => ReadData (encode_frame (pkt_of payload))) payloads.

(** What waits to be written: the packet in the slot, if any, then the
    outgoing queue. *)
Definition pending (v : openconnect_info) : list pkt :=
  match current_ssl_pkt v with
  | Some p => p :: outgoing_queue v
  | None => outgoing_queue v
  end.

(** A packet as the read loop queues it: [len] within 16 bits, that many
    payload bytes behind the header, and a header that passes the check
    for this length. *)
Definition well_received (q : pkt) : Prop :=
  0 <= len q <= 65535 /\
  Z.of_nat (List.length (pkt_payload q)) = len q /\
  check_header (hdr q) (16 + len q) = inr (ETHERTYPE_IPV4, len q).

(** The packet in the slot, if any, carries the header for its [len]:
    storing the header again would change nothing. *)
Definition slot_framed (v : openconnect_info) : Prop :=
  forall p, current_ssl_pkt v = Some p -> store_header p = p.

(** The transport takes every packet that waits in full: the write
    number [k] of the wake-up returns the [len + 16] bytes of the packet
    number [k]. *)
Definition all_accepted (o : oracle) (waiting : list pkt) : Prop :=
  forall k p, nth_error waiting k = Some p ->
              o_write o k = len p + 16 /\ 0 <= len p.

(** Every allocation of the wake-up succeeds. *)
Definition malloc_succeeds (o : oracle) : Prop :=
  forall k, o_malloc o k <> None.

(** The quit reason the read loop leaves for a frame it refuses. *)
Definition refusal_reason (e : frame_error) : string :=
  match e with
  | ShortHeader => "Short packet received"
  | _ => "Unknown packet received"
  end.

End Traffic.


(** ** The ways out of a wake-up *)

Module Exits.
Import Frame Info Mainloop.
Local Open Scope string_scope.

(** The wake-up went through [do_reconnect]: [ssl_reconnect] is the last
    call and the only one of its kind, [ssl_fd] is what it left, the
    return value is 1 when it returned 0, and its own return value, with
    the quit reason set, when it failed.  [v] is the connection object
    before the wake-up. *)
Definition reconnect_exit (o : oracle) (v : openconnect_info) (res : result)
  : Prop :=
  let '(r, v', tr) := res in
  (exists before, tr = (before ++ [Reconnect])%list /\ ~ In Reconnect before) /\
  ssl_fd v' = snd (o_reconnect o) /\
  ((fst (o_reconnect o) = 0 /\ r = 1 /\ quit_reason v' = quit_reason v) \/
   (fst (o_reconnect o) <> 0 /\ r = fst (o_reconnect o) /\
    quit_reason v' = Some "GPST reconnect failed")).

(** The wake-up returned without a reconnect: the descriptor is kept,
    and the quit reason is either kept or, with return value 1, one of
    the three texts that the read loop and the write set. *)
Definition plain_exit (v : openconnect_info) (res : result) : Prop :=
  let '(r, v', tr) := res in
  ~ In Reconnect tr /\
  ssl_fd v' = ssl_fd v /\
  (quit_reason v' = quit_reason v \/
   (r = 1 /\
    (quit_reason v' = Some "Short packet received" \/
     quit_reason v' = Some "Unknown packet received" \/
     quit_reason v' = Some "Internal error"))).

End Exits.


(** ** Cookie texts *)

Module CookieText.
Import Cookie.
Local Open Scope string_scope.

(** A cookie text in the form the comment in [parse_cookie] gives,
    [USER=xxx; AUTH=xxx]: each pair as name, ['='] and value, with [';']
    and a space between two pairs. *)
Fixpoint cookie_text (kvs : cookie_store) : string :=
  match kvs with
  | [] => ""
  | (k, v) :: rest =>
      k ++ "=" ++ v ++
      match rest with
      | [] => ""
      | _ :: _ => "; " ++ cookie_text rest
      end
  end.

(** One call of [http_add_cookie] for each pair, in order. *)
Definition add_all (kvs : cookie_store) (cookies : cookie_store) : cookie_store :=
  fold_left (fun st kv => http_add_cookie st (fst kv) (snd kv)) kvs cookies.

(** A pair that such a text can carry: the name has no [';'], no ['=']
    and no white space at its start, the value has no [';']. *)
Definition plain_pair (kv : string * string) : Prop :=
  strchr (fst kv) ";" = None /\
  strchr (fst kv) "=" = None /\
  skip_space (fst kv) = fst kv /\
  strchr (snd kv) ";" = None.

End CookieText.


(** ** The trace output: [buf_hexdump] *)

Module Hexdump.
Import Wire.
Local Open Scope string_scope.

(** The digit that [%x] prints for a value below 16. *)
Definition hex_digit (n : Z) : ascii :=
  match String.get (Z.to_nat n) "0123456789abcdef" with
  | Some c => c
  | None => "0"%char
  end.

(** The [w] low hexadecimal digits of [n], the most significant first. *)
Fixpoint hex_fixed (w : nat) (n : Z) : string :=
  match w with
  | O => ""
  | S w' => hex_fixed w' (n / 16) ++ String (hex_digit (n mod 16)) ""
  end.

(** Leading zeros are dropped as long as more than [minw] characters are
    left. *)
Fixpoint strip_zeros (minw : nat) (s : string) : string :=
  match s with
  | EmptyString => s
  | String c r =>
      if Ascii.eqb c "0" && (minw <? String.length s)%nat
      then strip_zeros minw r
      else s
  end.

(** What [sprintf] writes for [%04x] ([minw] is 4) and [%02x] ([minw] is
    2): the argument, an [int], is taken as the [unsigned int] of 32 bits
    that [%x] prints, in hexadecimal with small letters, filled with
    zeros to [minw] digits. *)
Definition fmt_x (minw : nat) (n : Z) : string :=
  strip_zeros minw (hex_fixed 8 (n mod 4294967296)).

(** The [for] loop from index [i] on, [d] being the bytes [d[i]] to
    [d[len - 1]]: the content of [linebuf] and the lines logged so far
    (each is logged with a newline after it). *)
Fixpoint hexdump_loop (d : list byte) (i : Z) (linebuf : string)
         (out : list string) : string * list string :=
  match d with
  | [] => (linebuf, out)
  | b :: d' =>
      let '(linebuf, out) :=
        if (i mod 16 =? 0)%Z
        then (fmt_x 4 i ++ ":",
              if negb (i =? 0)%Z then (out ++ [linebuf])%list else out)
        else (linebuf, out) in
      hexdump_loop d' (i + 1) (linebuf ++ " " ++ fmt_x 2 (u8 b)) out
  end.

(** [buf_hexdump]: the lines handed to [vpn_progress], in order.  The
    array [linebuf] is not initialised; it holds [stale] when the
    function is entered.  [d] has [len] bytes at least. *)
Definition buf_hexdump (stale : string) (d : list byte) (len : Z)
  : list string :=
  let '(linebuf, out) := hexdump_loop (firstn (Z.to_nat len) d) 0 stale [] in
  (out ++ [linebuf])%list.

(** The bytes of a line: a space and two digits for each. *)
Fixpoint hex_bytes (bs : list byte) : string :=
  match bs with
  | [] => ""
  | b :: bs' => " " ++ fmt_x 2 (u8 b) ++ hex_bytes bs'
  end.

(** Line number [k] of the dump of [d]: the offset [16 * k], a colon, and
    the sixteen bytes from there on, or as many as there are. *)
Definition dump_line (d : list byte) (k : nat) : string :=
  fmt_x 4 (16 * Z.of_nat k) ++ ":" ++ hex_bytes (firstn 16 (skipn (16 * k) d)).

End Hexdump.


(** ** What a wake-up does with the packets that wait *)

Module Outgoing.
Import Frame Info Mainloop Views.

(** The packets [waiting] are written in order, the first of them by
    the write number [n0] of the wake-up, until the list is at its end
    or a write is not complete; [written] are the buffers written and
    [rest] is what waits afterwards.  The number [k] of writes decides
    both: every write but the last was complete, and either the last was
    complete too and [rest] starts behind the packet written last, or it
    was not and [rest] starts with that packet. *)
Definition outgoing_conserved (o : oracle) (n0 : nat) (waiting : list pkt)
           (written : list (list byte)) (rest : list pkt) : Prop :=
  exists k,
    (k <= List.length waiting)%nat /\
    written = map wire_bytes (firstn k waiting) /\
    (forall j p, (S j < k)%nat -> nth_error waiting j = Some p ->
                 complete_write (o_write o (n0 + j)) p) /\
    ((rest = skipn k waiting /\
      forall p, (0 < k)%nat -> nth_error waiting (k - 1) = Some p ->
                complete_write (o_write o (n0 + (k - 1))) p) \/
     ((0 < k)%nat /\
      rest = skipn (k - 1) waiting /\
      exists p, nth_error waiting (k - 1) = Some p /\
                ~ complete_write (o_write o (n0 + (k - 1))) p)).

End Outgoing.

(** * Properties *)

Import Wire Frame Cookie CookieSpec Info Connect Mainloop Views Traffic Exits CookieText Hexdump Outgoing.

(** ** Bytes and integers *)

Lemma land_255_range z : 0 <= Z.land z 255 < 256.
Proof.
  change 255 with (Z.ones 8). rewrite Z.land_ones by lia.
  change (2 ^ 8) with 256. apply Z.mod_pos_bound. lia.
Qed.

Lemma u8_to_u8 z : u8 (to_u8 z) = Z.land z 255.
Proof.
  unfold u8, to_u8. pose proof (land_255_range z) as R.
  destruct (Byte.of_N (Z.to_N (Z.land z 255))) as [b|] eqn:E.
  - apply Byte.to_of_N in E. rewrite E. rewrite Z2N.id; lia.
  - apply Byte.of_N_None_iff in E. lia.
Qed.

Lemma u8_range b : 0 <= u8 b < 256.
Proof. unfold u8. pose proof (Byte.to_N_bounded b). lia. Qed.

Lemma testbit_255 n : 0 <= n -> Z.testbit 255 n = (n <? 8).
Proof.
  intros Hn. change 255 with (Z.ones 8).
  destruct (n <? 8) eqn:E.
  - apply Z.ones_spec_low. lia.
  - apply Z.ones_spec_high. lia.
Qed.

Lemma testbit_above d k n : 0 <= d < 2 ^ k -> 0 <= k <= n -> Z.testbit d n = false.
Proof.
  intros Hd Hk.
  destruct (Z.eq_dec d 0) as [->|Hnz]; [apply Z.testbit_0_l|].
  apply Z.bits_above_log2; [lia|].
  assert (Z.log2 d < k) by (apply Z.log2_lt_pow2; lia). lia.
Qed.

(** Two bytes, high one first, give back a 16-bit value. *)
Lemma be16_join d :
  0 <= d < 65536 ->
  Z.lor (Z.shiftl (Z.land (Z.shiftr d 8) 255) 8) (Z.land d 255) = d.
Proof.
  intros Hd. apply Z.bits_inj'. intros n Hn.
  rewrite Z.lor_spec, Z.land_spec, testbit_255 by lia.
  destruct (Z.ltb_spec n 8) as [L|L].
  - rewrite Z.shiftl_spec_low by lia. rewrite andb_true_r. reflexivity.
  - rewrite Z.shiftl_spec by lia.
    rewrite Z.land_spec, Z.shiftr_spec, testbit_255 by lia.
    replace (n - 8 + 8) with n by lia.
    rewrite andb_false_r, orb_false_r.
    destruct (Z.ltb_spec (n - 8) 8) as [M|M].
    + apply andb_true_r.
    + rewrite andb_false_r. symmetry.
      apply (testbit_above d 16); [change (2 ^ 16) with 65536|]; lia.
Qed.

Lemma uint16_range d : 0 <= uint16 d < 65536.
Proof.
  unfold uint16. change 65535 with (Z.ones 16). rewrite Z.land_ones by lia.
  change (2 ^ 16) with 65536. apply Z.mod_pos_bound. lia.
Qed.

Lemma uint16_mod d : uint16 d = d mod 65536.
Proof.
  unfold uint16. change 65535 with (Z.ones 16). rewrite Z.land_ones by lia.
  reflexivity.
Qed.

Lemma uint16_small d : 0 <= d <= 65535 -> uint16 d = d.
Proof. intros H. rewrite uint16_mod. apply Z.mod_small. lia. Qed.

(** What [store_be16] writes, [load_be16] reads back, whatever follows. *)
Lemma load_store_be16 d rest : load_be16 (store_be16 d ++ rest) = uint16 d.
Proof.
  unfold load_be16, store_be16, at_. simpl.
  rewrite !u8_to_u8. apply be16_join. apply uint16_range.
Qed.

(** ** The frame header *)

Lemma at_skipn k p i : at_ (skipn k p) i = at_ p (k + i).
Proof. unfold at_. rewrite nth_skipn. reflexivity. Qed.

Lemma at_firstn n p i : (i < n)%nat -> at_ (firstn n p) i = at_ p i.
Proof.
  intros H. unfold at_. rewrite nth_firstn.
  destruct (Nat.ltb_spec i n); [reflexivity|lia].
Qed.

(** The header check looks at the first 16 bytes only. *)
Lemma check_header_firstn h n : check_header (firstn 16 h) n = check_header h n.
Proof.
  unfold check_header, load_be32, load_be16, load_le32.
  rewrite !at_skipn. simpl Nat.add.
  rewrite !at_firstn by lia. reflexivity.
Qed.

Lemma pkt_fill_hdr rx buf :
  (16 <= List.length buf)%nat -> hdr (pkt_fill rx buf) = firstn 16 buf.
Proof.
  intros H. unfold pkt_fill. cbn [hdr]. rewrite firstn_app.
  replace (16 - List.length buf)%nat with 0%nat by lia.
  simpl. apply app_nil_r.
Qed.

Lemma pkt_fill_data rx buf :
  (16 <= List.length buf)%nat ->
  data (pkt_fill rx buf) = skipn 16 buf ++ skipn (List.length buf) (pkt_mem rx).
Proof.
  intros H. unfold pkt_fill. cbn [data]. rewrite skipn_app.
  replace (16 - List.length buf)%nat with 0%nat by lia. reflexivity.
Qed.

(** A buffer shorter than the header is refused before anything is read
    from it. *)
Lemma decode_frame_short rx buf :
  Z.of_nat (List.length buf) < 16 -> decode_frame rx buf = inl ShortHeader.
Proof.
  intros H. unfold decode_frame, recv_frame, check_header.
  destruct (Z.ltb_spec (Z.of_nat (List.length buf)) 16); [reflexivity|lia].
Qed.

(** From 16 bytes on, decoding is the header check on the buffer itself,
    and the payload is cut from what follows the header. *)
Lemma decode_frame_long rx buf :
  16 <= Z.of_nat (List.length buf) ->
  decode_frame rx buf =
  match check_header buf (Z.of_nat (List.length buf)) with
  | inl e => inl e
  | inr (ethertype, payload_len) =>
      inr (ethertype,
           firstn (Z.to_nat payload_len)
                  (skipn 16 buf ++ skipn (List.length buf) (pkt_mem rx)))
  end.
Proof.
  intros H. unfold decode_frame, recv_frame.
  rewrite pkt_fill_hdr, pkt_fill_data by lia.
  rewrite check_header_firstn.
  destruct (check_header buf (Z.of_nat (List.length buf))) as [e|[et pl]];
    reflexivity.
Qed.

Lemma payload_cut (buf stale : list byte) pl :
  Z.of_nat (List.length buf) = 16 + pl ->
  firstn (Z.to_nat pl) (skipn 16 buf ++ stale) = skipn 16 buf.
Proof.
  intros H. rewrite firstn_app.
  assert (L : List.length (skipn 16 buf) = Z.to_nat pl)
    by (rewrite length_skipn; lia).
  rewrite <- L, firstn_all, Nat.sub_diag. simpl. apply app_nil_r.
Qed.

Lemma store_header_length p : List.length (hdr (store_header p)) = 16%nat.
Proof. reflexivity. Qed.

(** The frame written for a packet whose [len] is not negative: the 16
    header bytes, then the first [len] bytes of the data. *)
Lemma encode_frame_eq p :
  0 <= len p ->
  encode_frame p = hdr (store_header p) ++ firstn (Z.to_nat (len p)) (data p).
Proof.
  intros H. unfold encode_frame, wire_bytes, pkt_mem.
  change (len (store_header p)) with (len p).
  change (data (store_header p)) with (data p).
  rewrite firstn_app, store_header_length.
  rewrite firstn_all2 by (rewrite store_header_length; lia).
  f_equal. f_equal. lia.
Qed.

Lemma skipn_6_stored p rest :
  skipn 6 (hdr (store_header p) ++ rest)
  = store_be16 (len p) ++ (store_le32 1 ++ store_le32 0 ++ rest).
Proof.
  change (skipn 6 (hdr (store_header p) ++ rest))
    with ((store_be16 (len p) ++ store_le32 1 ++ store_le32 0) ++ rest).
  rewrite <- !app_assoc. reflexivity.
Qed.

(** The length field of an encoded frame holds the low 16 bits of [len]. *)
Lemma declared_len_encode p :
  0 <= len p -> declared_len (encode_frame p) = uint16 (len p).
Proof.
  intros H. rewrite encode_frame_eq by assumption.
  unfold declared_len. rewrite skipn_6_stored. apply load_store_be16.
Qed.

(** The header check accepts the header that [store_header] writes, for
    a frame of the matching length. *)
Lemma check_header_stored p rest :
  0 <= len p <= 65535 ->
  check_header (hdr (store_header p) ++ rest) (16 + len p)
  = inr (ETHERTYPE_IPV4, len p).
Proof.
  intros H. unfold check_header.
  destruct (Z.ltb_spec (16 + len p) 16); [lia|].
  assert (P : load_be16 (skipn 6 (hdr (store_header p) ++ rest)) = len p).
  { rewrite skipn_6_stored, load_store_be16. apply uint16_small. lia. }
  rewrite P.
  replace (load_be32 (hdr (store_header p) ++ rest)) with GPST_MAGIC
    by (vm_compute; reflexivity).
  replace (load_be16 (skipn 4 (hdr (store_header p) ++ rest))) with ETHERTYPE_IPV4
    by (vm_compute; reflexivity).
  replace (load_le32 (skipn 8 (hdr (store_header p) ++ rest))) with 1
    by (vm_compute; reflexivity).
  replace (load_le32 (skipn 12 (hdr (store_header p) ++ rest))) with 0
    by (vm_compute; reflexivity).
  rewrite !Z.eqb_refl. reflexivity.
Qed.

(** A frame that passes the header check is queued by the read loop, which
    then goes on with the next read. *)
Lemma read_loop_accepts o rx v c wd buf reads ethertype q :
  cstp_pkt v = Some rx ->
  Z.of_nat (List.length buf) <= READ_CAP ->
  recv_frame rx buf = inr (ethertype, q) ->
  read_loop o (ReadData buf :: reads) v c wd
  = read_loop o reads
      (set_cstp_pkt
         (set_incoming_queue
            (set_last_rx (set_cstp_pkt v (Some (pkt_fill rx buf)))
                         (o_time o (n_time c)))
            (queue_packet (incoming_queue v) q))
         None)
      (mk_calls (n_malloc c) (S (n_time c)) (n_write c)) 1.
Proof.
  intros A L R.
  assert (D : delivered buf = buf) by (apply firstn_all2; lia).
  assert (N : (Z.of_nat (List.length buf) =? 0) = false).
  { apply Z.eqb_neq. intros Z0. unfold recv_frame, check_header in R.
    rewrite Z0 in R. discriminate R. }
  simpl read_loop. unfold ensure_cstp_pkt. rewrite A, D, N, R. reflexivity.
Qed.

(** C1 (frame round trip).  A payload of 0 to 65535 bytes, queued as a
    packet whose [len] is its length, is framed by the sender as the 16
    header bytes (magic 0x1a2b3c4d and EtherType 0x0800 big-endian, the
    length as 16 bits big-endian, the words 1 and 0 little-endian)
    followed by the payload as it is; decoding those bytes on the
    receiving side succeeds and yields EtherType 0x0800 and the payload
    itself, whatever the header area of the packet and the receive buffer
    held before. *)
Theorem frame_roundtrip (rx : pkt) (hdr0 payload : list byte) :
  Z.of_nat (List.length payload) <= 65535 ->
  let n := Z.of_nat (List.length payload) in
  let frame := encode_frame (mkpkt n hdr0 payload) in
  frame = [x1a; x2b; x3c; x4d; x08; x00; to_u8 (Z.shiftr n 8); to_u8 n;
           x01; x00; x00; x00; x00; x00; x00; x00] ++ payload /\
  decode_frame rx frame = inr (ETHERTYPE_IPV4, payload).
Proof.
  intros Hlen n frame. subst frame.
  set (p := mkpkt n hdr0 payload).
  assert (Hp : 0 <= len p <= 65535) by (simpl; lia).
  assert (E : encode_frame p = hdr (store_header p) ++ payload).
  { rewrite encode_frame_eq by lia. f_equal. simpl len. simpl data.
    unfold n. rewrite Nat2Z.id. apply firstn_all. }
  assert (L : Z.of_nat (List.length (encode_frame p)) = 16 + len p).
  { rewrite E, length_app, store_header_length. simpl len. lia. }
  split.
  - rewrite E. f_equal. unfold store_header. cbn [hdr len p].
    unfold store_be16 at 2. rewrite (uint16_small n) by (unfold n; lia).
    reflexivity.
  - rewrite decode_frame_long by lia.
    rewrite L. rewrite E at 1. rewrite check_header_stored by assumption.
    rewrite payload_cut by exact L.
    rewrite E. f_equal.
Qed.

Lemma frame_roundtrip_witness :
  Z.of_nat (List.length payload3) <= 65535 /\
  decode_frame rx0 (encode_frame (mkpkt (Z.of_nat (List.length payload3)) [] payload3))
  = inr (ETHERTYPE_IPV4, payload3).
Proof.
  split; [simpl; lia|].
  destruct (frame_roundtrip rx0 [] payload3) as [_ H]; [simpl; lia|exact H].
Defined.

(** A refusal is not decided by its own field alone: 16 zero bytes carry
    a wrong EtherType, yet the frame is refused for its magic, which is
    looked at first. *)
Lemma decode_rejection_not_independent :
  let buf := repeat x00 16 in
  load_be16 (skipn 4 buf) <> ETHERTYPE_IPV4 /\
  decode_frame rx0 buf <> inl BadEtherType /\
  decode_frame rx0 buf = inl BadMagic.
Proof. vm_compute. repeat split; discriminate. Qed.

(** C2 (frame rejection, amended).  The checks are made in order and the
    first that fails decides: ShortHeader exactly when the buffer has
    fewer than 16 bytes; BadMagic exactly when it has 16 or more and the
    magic differs; BadEtherType exactly when, further, the magic is right
    and the EtherType is not 0x0800; LengthMismatch exactly when, further,
    the EtherType is right and the buffer length is not 16 plus the
    declared length; BadTrailer exactly when, further, the length is right
    and the trailer words are not (1, 0).  In the one remaining case
    decoding succeeds, with EtherType 0x0800 and the bytes after the
    header as payload. *)
Theorem decode_rejection_in_order (rx : pkt) (buf : list byte) :
  let n := Z.of_nat (List.length buf) in
  let magic := load_be32 buf in
  let ethertype := load_be16 (skipn 4 buf) in
  let payload_len := load_be16 (skipn 6 buf) in
  let one := load_le32 (skipn 8 buf) in
  let zero := load_le32 (skipn 12 buf) in
  (decode_frame rx buf = inl ShortHeader <-> n < 16) /\
  (decode_frame rx buf = inl BadMagic <-> 16 <= n /\ magic <> GPST_MAGIC) /\
  (decode_frame rx buf = inl BadEtherType <->
   16 <= n /\ magic = GPST_MAGIC /\ ethertype <> ETHERTYPE_IPV4) /\
  (decode_frame rx buf = inl LengthMismatch <->
   16 <= n /\ magic = GPST_MAGIC /\ ethertype = ETHERTYPE_IPV4 /\
   n <> 16 + payload_len) /\
  (decode_frame rx buf = inl BadTrailer <->
   16 <= n /\ magic = GPST_MAGIC /\ ethertype = ETHERTYPE_IPV4 /\
   n = 16 + payload_len /\ ~ (one = 1 /\ zero = 0)) /\
  (decode_frame rx buf = inr (ETHERTYPE_IPV4, skipn 16 buf) <->
   16 <= n /\ magic = GPST_MAGIC /\ ethertype = ETHERTYPE_IPV4 /\
   n = 16 + payload_len /\ one = 1 /\ zero = 0) /\
  (forall r, decode_frame rx buf = inr r -> r = (ETHERTYPE_IPV4, skipn 16 buf)).
Proof.
  intros n magic ethertype payload_len one zero.
  destruct (Z.lt_ge_cases n 16) as [Hs|Hl].
  - rewrite (decode_frame_short rx buf Hs).
    repeat split; intros; try discriminate; try lia;
      repeat match goal with H : _ /\ _ |- _ => destruct H end; lia.
  - rewrite (decode_frame_long rx buf Hl). unfold check_header.
    fold n magic ethertype payload_len one zero.
    destruct (Z.ltb_spec n 16) as [?|_]; [lia|].
    destruct (Z.eqb_spec magic GPST_MAGIC) as [Hm|Hm]; cbn [negb orb];
      [|repeat split; intros; try discriminate; try tauto; try lia].
    destruct (Z.eqb_spec ethertype ETHERTYPE_IPV4) as [He|He]; cbn [negb orb];
      [|repeat split; intros; try discriminate; try tauto; try lia].
    destruct (Z.eqb_spec n (16 + payload_len)) as [Hn|Hn]; cbn [negb orb];
      [|repeat split; intros; try discriminate; try tauto; try lia].
    destruct (Z.eqb_spec one 1) as [H1|H1]; cbn [negb orb];
      [|repeat split; intros; try discriminate; try tauto; try lia].
    destruct (Z.eqb_spec zero 0) as [H0|H0]; cbn [negb orb];
      [|repeat split; intros; try discriminate; try tauto; try lia].
    rewrite (payload_cut buf _ payload_len Hn). rewrite He.
    repeat split; intros; try discriminate; try tauto; try lia;
      try congruence.
Qed.

(** ** The wake-up: what the read loop leaves alone *)

Lemma writes_of_app a b : writes_of (a ++ b) = writes_of a ++ writes_of b.
Proof.
  induction a as [|x a IH]; simpl; [reflexivity|].
  destruct x; simpl; rewrite ?IH; reflexivity.
Qed.

Lemma ensure_cstp_pkt_calls o v c :
  n_time (snd (ensure_cstp_pkt o v c)) = n_time c /\
  n_write (snd (ensure_cstp_pkt o v c)) = n_write c.
Proof. unfold ensure_cstp_pkt. destruct (cstp_pkt v); simpl; auto. Qed.

(** The read loop touches the receive packet, the incoming queue, the
    receive timestamp and the quit reason only; it calls [time] once per
    packet queued and never writes. *)
Lemma read_loop_frame o reads : forall v c wd,
  let e := read_loop o reads v c wd in
  current_ssl_pkt (exit_info e) = current_ssl_pkt v /\
  outgoing_queue (exit_info e) = outgoing_queue v /\
  dtls_state (exit_info e) = dtls_state v /\
  last_tx (exit_info e) = last_tx v /\
  ssl_fd (exit_info e) = ssl_fd v /\
  n_write (exit_calls e) = n_write c /\
  (n_time (exit_calls e) + List.length (incoming_queue v)
   = n_time c + List.length (incoming_queue (exit_info e)))%nat.
Proof.
  induction reads as [|r reads IH]; intros v c wd e; subst e;
    pose proof (ensure_cstp_pkt_calls o v c) as [Ht Hw]; simpl read_loop;
    destruct (ensure_cstp_pkt o v c) as [[p|] c1]; simpl in Ht, Hw;
    try (simpl; repeat split; congruence).
  destruct r as [errno|bytes]; [simpl; repeat split; congruence|].
  destruct (Z.of_nat (List.length (delivered bytes)) =? 0);
    [simpl; repeat split; congruence|].
  destruct (recv_frame p (delivered bytes)) as [[]|[et q]];
    try (simpl; repeat split; congruence).
  match goal with
  | |- context [read_loop o reads ?v1 ?c1 ?w1] =>
      specialize (IH v1 c1 w1); simpl in IH;
      destruct IH as (I1 & I2 & I3 & I4 & I5 & I6 & I7)
  end.
  unfold queue_packet in *. rewrite length_app in I7. simpl in I7.
  repeat split; try congruence. lia.
Qed.

(** ** The wake-up: one write attempt *)

Lemma do_reconnect_frame o v tr r v' tr' :
  do_reconnect o v tr = (r, v', tr') ->
  current_ssl_pkt v' = current_ssl_pkt v /\
  last_tx v' = last_tx v /\
  incoming_queue v' = incoming_queue v /\
  outgoing_queue v' = outgoing_queue v /\
  dtls_state v' = dtls_state v /\
  writes_of tr' = writes_of tr.
Proof.
  unfold do_reconnect. destruct (o_reconnect o) as [ret fd].
  destruct (negb (ret =? 0)); intros H; injection H as <- <- <-;
    rewrite writes_of_app; simpl; rewrite app_nil_r; repeat split.
Qed.

(** A write attempt that frees the slot: the write returned [len + 16]. *)
Lemma handle_outgoing_done o p v c wd tr v' c' tr' :
  handle_outgoing o p v c wd tr = WriteDone v' c' tr' ->
  0 < o_write o (n_write c) /\
  o_write o (n_write c) = len p + 16 /\
  v' = set_current_ssl_pkt (set_last_tx v (o_time o (n_time c))) None /\
  c' = mk_calls (n_malloc c) (S (n_time c)) (S (n_write c)) /\
  tr' = tr ++ [UnmonitorWriteFd; NonblockWrite (wire_bytes p)].
Proof.
  unfold handle_outgoing.
  destruct (Z.ltb_spec (o_write o (n_write c)) 0) as [L|L]; [discriminate|].
  destruct (Z.eqb_spec (o_write o (n_write c)) 0) as [E|E]; [discriminate|].
  destruct (Z.eqb_spec (o_write o (n_write c)) (len p + 16)) as [F|F];
    cbn [negb]; [|discriminate].
  intros H. injection H as <- <- <-. repeat split; try assumption. lia.
Qed.

(** A write attempt that ends the wake-up: the write failed, would block
    or was short; the packet stays in the slot as it is. *)
Lemma handle_outgoing_return o p v c wd tr r v' tr' :
  handle_outgoing o p v c wd tr = WriteReturn (r, v', tr') ->
  ~ (0 < o_write o (n_write c) /\ o_write o (n_write c) = len p + 16) /\
  current_ssl_pkt v' = current_ssl_pkt v /\
  last_tx v' = o_time o (n_time c) /\
  incoming_queue v' = incoming_queue v /\
  outgoing_queue v' = outgoing_queue v /\
  dtls_state v' = dtls_state v /\
  writes_of tr' = writes_of tr ++ [wire_bytes p].
Proof.
  unfold handle_outgoing.
  destruct (Z.ltb_spec (o_write o (n_write c)) 0) as [L|L].
  - intros H. assert (H' : do_reconnect o (set_last_tx v (o_time o (n_time c)))
                            (tr ++ [UnmonitorWriteFd; NonblockWrite (wire_bytes p)])
                          = (r, v', tr')) by congruence.
    apply do_reconnect_frame in H'.
    destruct H' as (H1 & H2 & H3 & H4 & H5 & H6).
    rewrite writes_of_app in H6. simpl in *.
    repeat split; try assumption. lia.
  - destruct (Z.eqb_spec (o_write o (n_write c)) 0) as [E|E].
    + intros H. injection H as <- <- <-. rewrite writes_of_app. simpl.
      repeat split. lia.
    + destruct (Z.eqb_spec (o_write o (n_write c)) (len p + 16)) as [F|F];
        cbn [negb]; [discriminate|].
      intros H. injection H as <- <- <-. rewrite writes_of_app. simpl.
      repeat split. lia.
Qed.

(** With the parallel channel connected nothing is taken from the queue. *)
Lemma service_queue_dtls o q v c wd tr :
  is_dtls_connected (dtls_state v) = true ->
  service_queue o q v c wd tr = (wd, v, tr).
Proof. intros H. destruct q; simpl; rewrite H; reflexivity. Qed.

Lemma last_some_app (A : Type) (l : list A) (x : A) :
  last (map Some (l ++ [x])) None = Some x.
Proof. rewrite map_app. simpl. apply last_last. Qed.

(** Servicing the queue, starting with a free slot: the writes made are
    added to the trace; the send timestamp is the time taken at the last
    of them; a packet left in the slot is the one whose bytes were
    written last; the incoming queue is not touched. *)
Lemma service_queue_spec o q : forall v c wd tr r v' tr',
  current_ssl_pkt v = None ->
  service_queue o q v c wd tr = (r, v', tr') ->
  exists ws,
    writes_of tr' = writes_of tr ++ ws /\
    match ws with
    | [] => last_tx v' = last_tx v
    | _ => last_tx v' = o_time o (n_time c + List.length ws - 1)
    end /\
    (forall p, current_ssl_pkt v' = Some p ->
               last (map Some ws) None = Some (wire_bytes p)) /\
    incoming_queue v' = incoming_queue v.
Proof.
  induction q as [|this q IH]; intros v c wd tr r v' tr' Hfree H.
  - exists []. simpl in H.
    destruct (is_dtls_connected (dtls_state v)); injection H as <- <- <-;
      rewrite app_nil_r; simpl; repeat split; try congruence;
      intros p Hp; congruence.
  - simpl in H. destruct (is_dtls_connected (dtls_state v)).
    { exists []. injection H as <- <- <-. rewrite app_nil_r.
      repeat split. intros p Hp. congruence. }
    destruct (handle_outgoing o (store_header this)
                (set_current_ssl_pkt (set_outgoing_queue v q)
                                     (Some (store_header this)))
                c wd tr) as [v1 c1 tr1|[[r1 v1] tr1]] eqn:E.
    + apply handle_outgoing_done in E.
      destruct E as (_ & _ & -> & -> & ->).
      apply IH in H; [|reflexivity].
      destruct H as (ws & W & T & S & I).
      rewrite writes_of_app in W. simpl in W, T, I.
      exists (wire_bytes (store_header this) :: ws).
      rewrite <- app_assoc in W. simpl in W.
      repeat split.
      * exact W.
      * destruct ws as [|w ws]; simpl in *.
        -- rewrite T. f_equal. lia.
        -- rewrite T. f_equal. lia.
      * intros p Hp. specialize (S p Hp).
        destruct ws as [|w ws]; [discriminate S|exact S].
      * exact I.
    + injection H as -> -> ->.
      apply handle_outgoing_return in E.
      destruct E as (_ & E1 & E2 & E3 & E4 & E5 & E6).
      simpl in E1, E2, E3.
      exists [wire_bytes (store_header this)].
      repeat split.
      * exact E6.
      * simpl. rewrite E2. f_equal. lia.
      * intros p Hp. rewrite E1 in Hp. injection Hp as <-. reflexivity.
      * exact E3.
Qed.

(** ** The wake-up: the code after the read loop *)

(** The writes of the write phase, the send timestamp and the slot. *)
Lemma write_phase_spec o v c wd r v' tr' :
  write_phase o v c wd = (r, v', tr') ->
  match writes_of tr' with
  | [] => last_tx v' = last_tx v
  | _ => last_tx v' = o_time o (n_time c + List.length (writes_of tr') - 1)
  end /\
  (forall p, current_ssl_pkt v' = Some p ->
             last_write tr' = Some (wire_bytes p) \/
             (writes_of tr' = [] /\ current_ssl_pkt v = Some p)) /\
  incoming_queue v' = incoming_queue v.
Proof.
  unfold write_phase, last_write. intros H.
  destruct (current_ssl_pkt v) as [p0|] eqn:S0.
  - destruct (handle_outgoing o p0 v c wd []) as [v1 c1 tr1|[[r1 v1] tr1]] eqn:E.
    + apply handle_outgoing_done in E. destruct E as (_ & _ & -> & -> & ->).
      apply service_queue_spec in H; [|reflexivity].
      destruct H as (ws & W & T & S & I). simpl in W, T, I.
      rewrite W. repeat split.
      * destruct ws as [|w ws]; simpl in *; rewrite T; f_equal; lia.
      * intros p Hp. left. specialize (S p Hp).
        destruct ws as [|w ws]; [discriminate S|exact S].
      * exact I.
    + injection H as -> -> ->. apply handle_outgoing_return in E.
      destruct E as (_ & E1 & E2 & E3 & _ & _ & E6). simpl in E6.
      rewrite E6. simpl. repeat split.
      * rewrite E2. f_equal. lia.
      * intros p Hp. left. congruence.
      * exact E3.
  - apply service_queue_spec in H; [|exact S0].
    destruct H as (ws & W & T & S & I). simpl in W. rewrite W.
    repeat split.
    + exact T.
    + intros p Hp. left. apply S. exact Hp.
    + exact I.
Qed.

(** A packet found in the slot is written first, from its own bytes, and
    stays in the slot unless that write is complete. *)
Lemma write_phase_retry o v c wd r v' tr' p :
  current_ssl_pkt v = Some p ->
  write_phase o v c wd = (r, v', tr') ->
  first_write tr' = Some (wire_bytes p) /\
  (~ complete_write (o_write o (n_write c)) p -> current_ssl_pkt v' = Some p).
Proof.
  unfold write_phase, first_write. intros S0 H. rewrite S0 in H.
  destruct (handle_outgoing o p v c wd []) as [v1 c1 tr1|[[r1 v1] tr1]] eqn:E.
  - apply handle_outgoing_done in E. destruct E as (E1 & E2 & -> & -> & ->).
    apply service_queue_spec in H; [|reflexivity].
    destruct H as (ws & W & _). simpl in W. rewrite W. split; [reflexivity|].
    intros N. exfalso. apply N. split; assumption.
  - injection H as -> -> ->. apply handle_outgoing_return in E.
    destruct E as (_ & E1 & _ & _ & _ & _ & E6). simpl in E6.
    rewrite E6. split; [reflexivity|]. intros _. congruence.
Qed.

(** With the parallel channel connected, a packet found in the slot is
    still written, and it is the only write; the queue is left alone. *)
Lemma write_phase_dtls o v c wd r v' tr' p :
  current_ssl_pkt v = Some p ->
  is_dtls_connected (dtls_state v) = true ->
  write_phase o v c wd = (r, v', tr') ->
  writes_of tr' = [wire_bytes p] /\ outgoing_queue v' = outgoing_queue v.
Proof.
  unfold write_phase. intros S0 D H. rewrite S0 in H.
  destruct (handle_outgoing o p v c wd []) as [v1 c1 tr1|[[r1 v1] tr1]] eqn:E.
  - apply handle_outgoing_done in E. destruct E as (_ & _ & -> & -> & ->).
    rewrite service_queue_dtls in H by exact D.
    injection H as <- <- <-. split; reflexivity.
  - injection H as -> -> ->. apply handle_outgoing_return in E.
    destruct E as (_ & _ & _ & _ & E4 & _ & E6). split; assumption.
Qed.

(** A wake-up either ends before the write phase, with no write and the
    slot, the queue and the send timestamp as they were, or runs the write
    phase on what the read loop left. *)
Lemma gpst_mainloop_cases o reads v r v' tr :
  gpst_mainloop o reads v = (r, v', tr) ->
  (reaches_write_phase o reads v = false /\
   writes_of tr = [] /\
   current_ssl_pkt v' = current_ssl_pkt v /\
   last_tx v' = last_tx v /\
   outgoing_queue v' = outgoing_queue v) \/
  (reaches_write_phase o reads v = true /\
   exists v1 c1 wd,
     write_phase o v1 c1 wd = (r, v', tr) /\
     current_ssl_pkt v1 = current_ssl_pkt v /\
     outgoing_queue v1 = outgoing_queue v /\
     dtls_state v1 = dtls_state v /\
     last_tx v1 = last_tx v /\
     n_write c1 = 0%nat /\
     (n_time c1 + List.length (incoming_queue v)
      = List.length (incoming_queue v1))%nat).
Proof.
  unfold gpst_mainloop, reaches_write_phase. intros H.
  destruct (ssl_fd v =? -1).
  - left. apply do_reconnect_frame in H.
    destruct H as (H1 & H2 & _ & H4 & _ & H6). simpl. repeat split; assumption.
  - pose proof (read_loop_frame o reads v (mk_calls 0 0 0) 0) as F.
    simpl in F.
    destruct (read_loop o reads v (mk_calls 0 0 0) 0) as [v1 c1 wd|v1 c1|ret v1 c1];
      simpl in F; destruct F as (F1 & F2 & F3 & F4 & F5 & F6 & F7).
    + right. split; [reflexivity|]. exists v1, c1, wd.
      repeat split; try assumption.
    + left. apply do_reconnect_frame in H.
      destruct H as (H1 & H2 & _ & H4 & _ & H6). simpl in H6 |- *.
      repeat split; congruence.
    + left. injection H as <- <- <-. simpl. repeat split; assumption.
Qed.

(** ** The write-retry logic *)

(** Where the packet in the slot comes from: the read loop, the write and
    the reconnect leave the slot alone; only the dequeue loop fills it,
    with the packet it has just stored the header of. *)
Lemma service_queue_origin o q : forall v c wd tr r v' tr' p,
  current_ssl_pkt v = None ->
  service_queue o q v c wd tr = (r, v', tr') ->
  current_ssl_pkt v' = Some p ->
  exists this, In this q /\ p = store_header this.
Proof.
  induction q as [|this q IH]; intros v c wd tr r v' tr' p Sl H Hp; simpl in H.
  - destruct (is_dtls_connected (dtls_state v)); injection H as <- <- <-;
      simpl in Hp; congruence.
  - destruct (is_dtls_connected (dtls_state v)).
    { injection H as <- <- <-. congruence. }
    destruct (handle_outgoing o (store_header this)
                (set_current_ssl_pkt (set_outgoing_queue v q)
                                     (Some (store_header this)))
                c wd tr) as [v1 c1 tr1|[[r1 v1] tr1]] eqn:E.
    + apply handle_outgoing_done in E. destruct E as (_ & _ & -> & -> & ->).
      apply IH with (p := p) in H; [|reflexivity|exact Hp].
      destruct H as (t & T & ->).
      exists t. split; [right; exact T|reflexivity].
    + injection H as -> -> ->. apply handle_outgoing_return in E.
      destruct E as (_ & E1 & _). simpl in E1.
      exists this. split; [left; reflexivity|congruence].
Qed.

Lemma write_phase_origin o v c wd r v' tr' p :
  write_phase o v c wd = (r, v', tr') ->
  current_ssl_pkt v' = Some p ->
  current_ssl_pkt v = Some p \/
  exists this, In this (outgoing_queue v) /\ p = store_header this.
Proof.
  unfold write_phase. intros H Hp.
  destruct (current_ssl_pkt v) as [p0|] eqn:S0.
  - destruct (handle_outgoing o p0 v c wd []) as [v1 c1 tr1|[[r1 v1] tr1]] eqn:E.
    + apply handle_outgoing_done in E. destruct E as (_ & _ & -> & -> & ->).
      right. apply service_queue_origin with (p := p) in H;
        [exact H|reflexivity|exact Hp].
    + injection H as -> -> ->. apply handle_outgoing_return in E.
      destruct E as (_ & E1 & _). left. congruence.
  - right. exact (service_queue_origin _ _ _ _ _ _ _ _ _ p S0 H Hp).
Qed.

Lemma gpst_mainloop_origin o reads v r v' tr p :
  gpst_mainloop o reads v = (r, v', tr) ->
  current_ssl_pkt v' = Some p ->
  current_ssl_pkt v = Some p \/
  exists this, In this (outgoing_queue v) /\ p = store_header this.
Proof.
  intros R Hp. apply gpst_mainloop_cases in R.
  destruct R as [(_ & _ & C & _)|(_ & v1 & c1 & wd & W & C & Q & _)].
  - left. congruence.
  - rewrite <- C, <- Q. exact (write_phase_origin _ _ _ _ _ _ _ _ W Hp).
Qed.

(** The header that the dequeue loop stores. *)
Lemma stored_header this :
  hdr (store_header this)
  = [x1a; x2b; x3c; x4d; x08; x00] ++ store_be16 (len this)
    ++ [x01; x00; x00; x00; x00; x00; x00; x00] /\
  len (store_header this) = len this /\
  data (store_header this) = data this.
Proof. repeat split. Qed.

(** C3 (write-retry invariant).  Let a wake-up leave the packet [p] in
    the in-flight slot, and let the next wake-up find it there (the host
    may have changed anything else in between).  Then the bytes of the
    last write of the first wake-up, if it made one, and the bytes of the
    first write of the second, if it makes one, are both the [len + 16]
    bytes of [p] as it sits in the slot, so they are identical; the second
    wake-up does make that write whenever it gets past its read loop; and
    unless that write is complete, [p] is still in the slot afterwards,
    unchanged.  The header is written once, when the packet is taken
    from the queue: either [p] was in the slot before the first wake-up
    already, or the first wake-up took a packet [this] from the outgoing
    queue and [p] is [this] with the header stored (the magic
    0x1a2b3c4d, the EtherType 0x0800, the 16 bits of [len], the words 1
    and 0), payload and [len] as they were.  The retry stores nothing:
    whatever header [p] carries, the second wake-up writes it as it is,
    and the packet it leaves in the slot is [p] itself or else a packet
    that it took from the queue in its turn. *)
Theorem retry_writes_same_bytes
        o1 reads1 v1 r1 v1' tr1 o2 reads2 v2 r2 v2' tr2 p :
  gpst_mainloop o1 reads1 v1 = (r1, v1', tr1) ->
  current_ssl_pkt v1' = Some p ->
  current_ssl_pkt v2 = Some p ->
  gpst_mainloop o2 reads2 v2 = (r2, v2', tr2) ->
  (forall b, last_write tr1 = Some b -> b = wire_bytes p) /\
  (forall b, first_write tr2 = Some b -> b = wire_bytes p) /\
  (forall b1 b2, last_write tr1 = Some b1 -> first_write tr2 = Some b2 -> b1 = b2) /\
  (reaches_write_phase o2 reads2 v2 = true -> first_write tr2 = Some (wire_bytes p)) /\
  (~ complete_write (o_write o2 0) p -> current_ssl_pkt v2' = Some p) /\
  (current_ssl_pkt v1 = Some p \/
   exists this,
     In this (outgoing_queue v1) /\
     p = store_header this /\
     hdr p = [x1a; x2b; x3c; x4d; x08; x00] ++ store_be16 (len this)
             ++ [x01; x00; x00; x00; x00; x00; x00; x00] /\
     len p = len this /\
     data p = data this) /\
  (forall p', current_ssl_pkt v2' = Some p' ->
     p' = p \/
     exists this, In this (outgoing_queue v2) /\ p' = store_header this).
Proof.
  intros R1 S1 S2 R2.
  assert (O1 : current_ssl_pkt v1 = Some p \/
               exists this,
                 In this (outgoing_queue v1) /\
                 p = store_header this /\
                 hdr p = [x1a; x2b; x3c; x4d; x08; x00] ++ store_be16 (len this)
                         ++ [x01; x00; x00; x00; x00; x00; x00; x00] /\
                 len p = len this /\
                 data p = data this).
  { destruct (gpst_mainloop_origin _ _ _ _ _ _ _ R1 S1) as [L|(this & T & ->)];
      [left; exact L|right].
    exists this. split; [exact T|]. split; [reflexivity|].
    exact (stored_header this). }
  assert (O2 : forall p', current_ssl_pkt v2' = Some p' ->
                 p' = p \/
                 exists this, In this (outgoing_queue v2) /\ p' = store_header this).
  { intros p' Hp'.
    destruct (gpst_mainloop_origin _ _ _ _ _ _ _ R2 Hp') as [L|L];
      [left; congruence|right; exact L]. }
  assert (A : forall b, last_write tr1 = Some b -> b = wire_bytes p).
  { intros b Hb. apply gpst_mainloop_cases in R1.
    destruct R1 as [(_ & W & _)|(_ & v1x & c1 & wd & W & _)].
    - unfold last_write in Hb. rewrite W in Hb. discriminate.
    - apply write_phase_spec in W. destruct W as (_ & W & _).
      destruct (W p S1) as [L|[L _]].
      + congruence.
      + unfold last_write in Hb. rewrite L in Hb. discriminate. }
  apply gpst_mainloop_cases in R2.
  destruct R2 as [(N & W & C & _)|(Y & v2x & c2 & wd & W & C & _ & _ & _ & NW & _)].
  - refine (conj A (conj _ (conj _ (conj _ (conj _ (conj O1 O2)))))).
    + unfold first_write. rewrite W. discriminate.
    + unfold first_write. rewrite W. discriminate.
    + rewrite N. discriminate.
    + congruence.
  - rewrite <- C in S2.
    destruct (write_phase_retry _ _ _ _ _ _ _ _ S2 W) as [F K].
    rewrite NW in K.
    refine (conj A (conj _ (conj _ (conj _ (conj _ (conj O1 O2)))))).
    + intros b Hb. congruence.
    + intros b1 b2 H1 H2. rewrite (A b1 H1). congruence.
    + intros _. exact F.
    + exact K.
Qed.

Lemma retry_writes_same_bytes_witness :
  let this := pkt_of payload3 in
  let p := store_header this in
  let v1 := set_outgoing_queue idle [this] in
  let R1 := gpst_mainloop (steady 100 0) [] v1 in
  let R2 := gpst_mainloop (steady 101 19) [] (snd (fst R1)) in
  current_ssl_pkt (snd (fst R1)) = Some p /\
  last_write (snd R1) = Some (wire_bytes p) /\
  first_write (snd R2) = Some (wire_bytes p) /\
  (forall b1 b2, last_write (snd R1) = Some b1 ->
                 first_write (snd R2) = Some b2 -> b1 = b2) /\
  current_ssl_pkt v1 = None /\
  In this (outgoing_queue v1) /\
  wire_bytes p = [x1a; x2b; x3c; x4d; x08; x00; x00; x03;
                  x01; x00; x00; x00; x00; x00; x00; x00] ++ payload3.
Proof.
  intros this p v1 R1 R2.
  split; [vm_compute; reflexivity|]. split; [vm_compute; reflexivity|].
  split; [vm_compute; reflexivity|].
  split; [|split; [reflexivity|split; [left; reflexivity|vm_compute; reflexivity]]].
  apply (retry_writes_same_bytes
           (steady 100 0) [] v1
           (fst (fst R1)) (snd (fst R1)) (snd R1)
           (steady 101 19) [] (snd (fst R1))
           (fst (fst R2)) (snd (fst R2)) (snd R2) p);
    vm_compute; reflexivity.
Defined.

(** The send timestamp does not wait for a write to succeed: here the
    only write of the wake-up returns 0 (it would block), the packet stays
    in the slot, and the timestamp has moved from 0 to the current time. *)
Lemma last_tx_moves_on_blocked_write :
  let p := store_header (pkt_of payload3) in
  let v := set_current_ssl_pkt idle (Some p) in
  o_write (steady 100 0) 0 = 0 /\
  last_tx v = 0 /\
  writes_of (snd (gpst_mainloop (steady 100 0) [] v)) = [wire_bytes p] /\
  current_ssl_pkt (snd (fst (gpst_mainloop (steady 100 0) [] v))) = Some p /\
  last_tx (snd (fst (gpst_mainloop (steady 100 0) [] v))) = 100.
Proof. vm_compute. repeat split. Qed.

(** C9 (send timestamp, amended).  The send timestamp is set to the
    current time at every write attempt, before the write and whatever it
    returns: after a wake-up that made no write it is what it was, after
    any other it is the time taken at the last attempt ([time] is called
    once per packet received and once per attempt).  For each attempt, the
    slot is freed exactly when the write returns [len + 16]; after a
    failed, blocked or short write the packet is still in the slot, and
    the timestamp has been set all the same. *)
Theorem last_tx_set_at_each_attempt o reads v :
  (let '(r, v', tr) := gpst_mainloop o reads v in
   match writes_of tr with
   | [] => last_tx v' = last_tx v
   | _ => last_tx v'
          = o_time o (received v v' + List.length (writes_of tr) - 1)
   end) /\
  (forall p c wd tr0,
      match handle_outgoing o p v c wd tr0 with
      | WriteDone v1 _ _ =>
          complete_write (o_write o (n_write c)) p /\
          current_ssl_pkt v1 = None /\
          last_tx v1 = o_time o (n_time c)
      | WriteReturn (_, v1, _) =>
          ~ complete_write (o_write o (n_write c)) p /\
          current_ssl_pkt v1 = current_ssl_pkt v /\
          last_tx v1 = o_time o (n_time c)
      end).
Proof.
  split.
  - destruct (gpst_mainloop o reads v) as [[r v'] tr] eqn:R.
    apply gpst_mainloop_cases in R.
    destruct R as [(_ & W & _ & T & _)|(_ & v1 & c1 & wd & W & _ & _ & _ & T & _ & I)].
    + rewrite W. exact T.
    + apply write_phase_spec in W. destruct W as (W & _ & Q).
      unfold received. rewrite Q.
      replace (List.length (incoming_queue v1) - List.length (incoming_queue v))%nat
        with (n_time c1) by lia.
      destruct (writes_of tr); congruence.
  - intros p c wd tr0.
    destruct (handle_outgoing o p v c wd tr0) as [v1 c1 tr1|[[r1 v1] tr1]] eqn:E.
    + apply handle_outgoing_done in E. destruct E as (E1 & E2 & -> & _).
      repeat split; assumption.
    + apply handle_outgoing_return in E. destruct E as (E0 & E1 & E2 & _).
      repeat split; assumption.
Qed.

(** A wake-up whose read fails, or that finds the transport down,
    reconnects and writes nothing, packet in the slot or not. *)
Lemma no_retry_when_read_fails :
  let p := store_header (pkt_of payload3) in
  let v := mk_info None [] (mk_ip_info None None 0) 3 None (Some p)
                   [] [] DTLS_CONNECTED 0 0 None in
  current_ssl_pkt v = Some p /\
  dtls_state v = DTLS_CONNECTED /\
  snd (gpst_mainloop (steady 100 19) [ReadError 5] v) = [Reconnect] /\
  writes_of (snd (gpst_mainloop (steady 100 19) [ReadError 5] v)) = [] /\
  writes_of (snd (gpst_mainloop (steady 100 19) [] (set_ssl_fd v (-1)))) = [].
Proof. vm_compute. repeat split. Qed.

(** C10 (the parallel channel and the slot, amended).  With the parallel
    channel marked connected nothing is taken from the outgoing queue; a
    packet found in the slot is written all the same, and it is the only
    write, in every wake-up that gets past its read loop (transport up,
    read loop left by [break]); a wake-up that ends before that writes
    nothing. *)
Theorem dtls_connected_still_retries o reads v p :
  current_ssl_pkt v = Some p ->
  dtls_state v = DTLS_CONNECTED ->
  let '(r, v', tr) := gpst_mainloop o reads v in
  outgoing_queue v' = outgoing_queue v /\
  writes_of tr = if reaches_write_phase o reads v then [wire_bytes p] else [].
Proof.
  intros S D.
  destruct (gpst_mainloop o reads v) as [[r v'] tr] eqn:R.
  apply gpst_mainloop_cases in R.
  destruct R as [(N & W & _ & _ & Q)|(Y & v1 & c1 & wd & W & C & Q & D1 & _)].
  - rewrite N. split; assumption.
  - rewrite Y. rewrite <- C in S.
    assert (D2 : is_dtls_connected (dtls_state v1) = true)
      by (rewrite D1, D; reflexivity).
    destruct (write_phase_dtls _ _ _ _ _ _ _ _ S D2 W) as [W1 W2].
    split; congruence.
Qed.

Lemma dtls_connected_still_retries_witness :
  let p := store_header (pkt_of payload3) in
  let v := mk_info None [] (mk_ip_info None None 0) 3 None (Some p)
                   [] [pkt_of payload3] DTLS_CONNECTED 0 0 None in
  current_ssl_pkt v = Some p /\
  dtls_state v = DTLS_CONNECTED /\
  let '(r, v', tr) := gpst_mainloop (steady 100 0) [] v in
  outgoing_queue v' = outgoing_queue v /\
  writes_of tr = if reaches_write_phase (steady 100 0) [] v
                 then [wire_bytes p] else [].
Proof.
  intros p v. split; [reflexivity|]. split; [reflexivity|].
  apply (dtls_connected_still_retries (steady 100 0) [] v p); reflexivity.
Defined.

(** ** The length field *)

Lemma handle_outgoing_trace o p v c wd tr :
  exists rest,
    match handle_outgoing o p v c wd tr with
    | WriteDone _ _ tr' => tr'
    | WriteReturn (_, _, tr') => tr'
    end = tr ++ UnmonitorWriteFd :: NonblockWrite (wire_bytes p) :: rest.
Proof.
  unfold handle_outgoing, do_reconnect. destruct (o_reconnect o) as [ret fd].
  destruct (o_write o (n_write c) <? 0).
  - exists [Reconnect]. destruct (negb (ret =? 0)); rewrite <- app_assoc; reflexivity.
  - destruct (o_write o (n_write c) =? 0); [exists []; reflexivity|].
    destruct (negb (o_write o (n_write c) =? len p + 16)); exists []; reflexivity.
Qed.

(** A packet taken from the queue is written as [encode_frame] makes it;
    there is no exit between taking it and writing it. *)
Lemma service_queue_writes_head o this q v c wd tr :
  is_dtls_connected (dtls_state v) = false ->
  exists rest,
    snd (service_queue o (this :: q) v c wd tr)
    = tr ++ UnmonitorWriteFd :: NonblockWrite (encode_frame this) :: rest.
Proof.
  intros D. simpl. rewrite D.
  set (v1 := set_current_ssl_pkt (set_outgoing_queue v q) (Some (store_header this))).
  destruct (handle_outgoing_trace o (store_header this) v1 c wd tr) as [rest R].
  destruct (handle_outgoing o (store_header this) v1 c wd tr)
    as [v2 c2 tr2|[[r2 v2] tr2]].
  - subst tr2.
    assert (X : forall q' v' c' t, exists more,
                 snd (service_queue o q' v' c' wd t) = t ++ more).
    { induction q' as [|a q' IH]; intros v' c' t; simpl.
      - destruct (is_dtls_connected (dtls_state v')); exists []; simpl;
          rewrite app_nil_r; reflexivity.
      - destruct (is_dtls_connected (dtls_state v')).
        + exists []. simpl. rewrite app_nil_r. reflexivity.
        + set (v3 := set_current_ssl_pkt (set_outgoing_queue v' q')
                                         (Some (store_header a))).
          destruct (handle_outgoing_trace o (store_header a) v3 c' wd t) as [r3 R3].
          destruct (handle_outgoing o (store_header a) v3 c' wd t)
            as [v4 c4 tr4|[[r4 v4] tr4]].
          * subst tr4. destruct (IH v4 c4 (t ++ UnmonitorWriteFd
                                   :: NonblockWrite (wire_bytes (store_header a)) :: r3))
              as [more M].
            rewrite M. rewrite <- app_assoc. eexists. reflexivity.
          * simpl. subst tr4. eexists. reflexivity. }
    destruct (X q v2 c2 (tr ++ UnmonitorWriteFd
                :: NonblockWrite (wire_bytes (store_header this)) :: rest))
      as [more M].
    rewrite M. rewrite <- app_assoc. simpl. eexists. reflexivity.
  - simpl. subst tr2. exists rest. reflexivity.
Qed.

(** A payload of 65536 bytes is framed like any other: the frame has all
    its 65552 bytes, and its length field says 0. *)
Lemma oversized_packet_is_framed :
  let p := mkpkt 65536 (repeat x00 16) (repeat x00 (Z.to_nat 65536)) in
  Z.of_nat (List.length (pkt_payload p)) = 65536 /\
  Z.of_nat (List.length (encode_frame p)) = 65536 + 16 /\
  declared_len (encode_frame p) = 0 /\
  declared_len (encode_frame p) <> len p.
Proof.
  intros p.
  assert (L : List.length (pkt_payload p) = Z.to_nat 65536).
  { unfold pkt_payload, p. cbn [len data].
    rewrite firstn_all2; rewrite repeat_length; lia. }
  assert (D : declared_len (encode_frame p) = 0).
  { rewrite declared_len_encode; [reflexivity|]. unfold p. cbn [len]. lia. }
  split; [|split; [|split]].
  - rewrite L. lia.
  - rewrite encode_frame_eq by (unfold p; cbn [len]; lia).
    rewrite length_app, store_header_length.
    change (firstn (Z.to_nat (len p)) (data p)) with (pkt_payload p).
    rewrite L. lia.
  - exact D.
  - rewrite D. unfold p. cbn [len]. lia.
Qed.

(** C8 (length field, amended).  Encoding has no failure: every packet
    taken from the outgoing queue is framed and handed to the write.  The
    length field receives the low 16 bits of [len]; it equals the payload
    length exactly when that length is at most 65535. *)
Theorem encode_length_field (p : pkt) :
  0 <= len p ->
  declared_len (encode_frame p) = len p mod 65536 /\
  (declared_len (encode_frame p) = len p <-> len p <= 65535) /\
  (forall o q v c wd tr,
      is_dtls_connected (dtls_state v) = false ->
      exists rest,
        snd (service_queue o (p :: q) v c wd tr)
        = tr ++ UnmonitorWriteFd :: NonblockWrite (encode_frame p) :: rest).
Proof.
  intros H. rewrite declared_len_encode by assumption. rewrite uint16_mod.
  split; [reflexivity|]. split.
  - split; intros E.
    + pose proof (Z.mod_pos_bound (len p) 65536). lia.
    + apply Z.mod_small. lia.
  - intros o q v c wd tr D. apply service_queue_writes_head. exact D.
Qed.

Lemma encode_length_field_witness :
  0 <= len (pkt_of payload3) /\
  declared_len (encode_frame (pkt_of payload3)) = len (pkt_of payload3) mod 65536.
Proof.
  split; [simpl; lia|].
  destruct (encode_length_field (pkt_of payload3)) as [H _];
    [simpl; lia|exact H].
Defined.

(** ** The cookie text *)

(** One round of the loop of [parse_cookie]. *)
Lemma parse_cookie_loop_unfold p cs :
  parse_cookie_loop p cs =
  match p with
  | EmptyString => (0, cs)
  | String _ _ =>
      match strchr p ";" with
      | None =>
          match strchr p "=" with
          | None => (- EINVAL, cs)
          | Some (name, value) => (0, http_add_cookie cs name value)
          end
      | Some (field, rest) =>
          match strchr field "=" with
          | None => (- EINVAL, cs)
          | Some (name, value) =>
              parse_cookie_loop (skip_space rest) (http_add_cookie cs name value)
          end
      end
  end.
Proof.
  funelim (parse_cookie_loop p cs); try rewrite e; try rewrite Heq; reflexivity.
Qed.

Lemma strchr_shorter p c before after :
  strchr p c = Some (before, after) ->
  (String.length after < String.length p)%nat.
Proof.
  revert before after.
  induction p as [|a r IH]; simpl; intros before after H; [discriminate|].
  destruct (Ascii.eqb a c).
  - injection H as _ <-. lia.
  - destruct (strchr r c) as [[b' a']|] eqn:E; [|discriminate].
    injection H as _ <-. specialize (IH _ _ eq_refl). lia.
Qed.

Lemma skip_space_length p :
  (String.length (skip_space p) <= String.length p)%nat.
Proof.
  induction p as [|a r IH]; simpl; [lia|].
  destruct (isspace a); simpl; lia.
Qed.

Lemma split_semicolon_cons s : exists f fs, split_semicolon s = f :: fs.
Proof.
  induction s as [|c r IH]; simpl; [eauto|].
  destruct (Ascii.eqb c ";"); [eauto|].
  destruct IH as (f & fs & ->). eauto.
Qed.

Lemma split_without_semicolon p :
  strchr p ";" = None -> split_semicolon p = [p].
Proof.
  induction p as [|a r IH]; simpl; [reflexivity|].
  destruct (Ascii.eqb a ";"); [discriminate|].
  destruct (strchr r ";") as [[b c]|]; [discriminate|].
  intros _. rewrite IH; reflexivity.
Qed.

Lemma split_at_semicolon p field rest :
  strchr p ";" = Some (field, rest) ->
  split_semicolon p = field :: split_semicolon rest.
Proof.
  revert field. induction p as [|a r IH]; simpl; intros field H; [discriminate|].
  destruct (Ascii.eqb a ";").
  - injection H as <- <-. reflexivity.
  - destruct (strchr r ";") as [[b c]|]; [|discriminate].
    injection H as <- <-. rewrite (IH b eq_refl). reflexivity.
Qed.

Lemma space_is_no_semicolon a : isspace a = true -> Ascii.eqb a ";" = false.
Proof.
  intros H. destruct (Ascii.eqb_spec a ";") as [->|]; [|reflexivity].
  discriminate H.
Qed.

(** Skipping leading white space touches the first field only. *)
Lemma split_skip_space r :
  split_semicolon (skip_space r)
  = match split_semicolon r with
    | f :: fs => skip_space f :: fs
    | [] => []
    end.
Proof.
  induction r as [|a r IH]; [reflexivity|].
  simpl skip_space. destruct (isspace a) eqn:S.
  - rewrite IH. simpl split_semicolon. rewrite (space_is_no_semicolon a S).
    destruct (split_semicolon_cons r) as (f & fs & ->).
    simpl. rewrite S. reflexivity.
  - simpl split_semicolon. destruct (Ascii.eqb a ";"); [reflexivity|].
    destruct (split_semicolon_cons r) as (f & fs & ->).
    simpl. rewrite S. reflexivity.
Qed.

Lemma fields_skip_space r :
  fields (skip_space r) = map skip_space (split_semicolon r).
Proof.
  unfold fields. rewrite split_skip_space.
  destruct (split_semicolon r); reflexivity.
Qed.

(** The loop of [parse_cookie] goes through the fields of the text, a
    last empty field left out. *)
Lemma parse_cookie_loop_fields n : forall p cs,
  (String.length p <= n)%nat ->
  parse_cookie_loop p cs = add_fields (live (fields p)) cs.
Proof.
  induction n as [|n IH]; intros p cs L; rewrite parse_cookie_loop_unfold;
    destruct p as [|a r]; try reflexivity; simpl in L; [lia|].
  destruct (strchr (String a r) ";") as [[field rest]|] eqn:E.
  - unfold fields. rewrite (split_at_semicolon _ _ _ E).
    destruct (split_semicolon_cons rest) as (g & t & G). rewrite G.
    simpl map. cbn [live add_fields].
    destruct (strchr field "=") as [[name value]|]; [|reflexivity].
    rewrite IH.
    + rewrite fields_skip_space, G. reflexivity.
    + pose proof (strchr_shorter _ _ _ _ E) as S1.
      pose proof (skip_space_length rest) as S2. simpl in S1. lia.
  - unfold fields. rewrite (split_without_semicolon _ E).
    cbn [map live add_fields String.eqb].
    destruct (strchr (String a r) "=") as [[name value]|]; reflexivity.
Qed.

Lemma add_fields_status fs : forall cs,
  (fst (add_fields fs cs) = - EINVAL <-> existsb lacks_equals fs = true) /\
  (fst (add_fields fs cs) = 0 <-> existsb lacks_equals fs = false).
Proof.
  induction fs as [|f fs IH]; intros cs; simpl.
  - unfold EINVAL. split; split; intros H; try reflexivity; discriminate.
  - unfold lacks_equals at 1 3. destruct (strchr f "=") as [[k v]|]; simpl.
    + apply IH.
    + unfold EINVAL. split; split; intros H; try reflexivity; discriminate.
Qed.

Lemma lookup_app cs k v name :
  lookup (cs ++ [(k, v)]) name
  = match lookup cs name with
    | Some x => Some x
    | None => if String.eqb k name then Some v else None
    end.
Proof.
  unfold lookup. induction cs as [|[k' v'] cs IH]; simpl.
  - destruct (String.eqb k name); reflexivity.
  - destruct (String.eqb k' name); [reflexivity|exact IH].
Qed.

Lemma has_cookie_lookup cs k :
  has_cookie cs k = true -> lookup cs k <> None.
Proof.
  unfold has_cookie, lookup. induction cs as [|[k' v'] cs IH]; simpl.
  - discriminate.
  - destruct (String.eqb k' k); simpl; [discriminate|exact IH].
Qed.

(** [http_add_cookie] never changes what a name already stands for. *)
Lemma http_add_cookie_lookup cs k v name :
  lookup (http_add_cookie cs k v) name
  = match lookup cs name with
    | Some x => Some x
    | None => if String.eqb k name then Some v else None
    end.
Proof.
  unfold http_add_cookie. destruct (has_cookie cs k) eqn:H.
  - destruct (lookup cs name) eqn:L; [reflexivity|].
    destruct (String.eqb_spec k name) as [->|]; [|reflexivity].
    apply has_cookie_lookup in H. contradiction.
  - apply lookup_app.
Qed.

Lemma add_fields_lookup fs name : forall cs,
  fst (add_fields fs cs) = 0 ->
  lookup (snd (add_fields fs cs)) name
  = match lookup cs name with
    | Some x => Some x
    | None => first_binding fs name
    end.
Proof.
  induction fs as [|f fs IH]; intros cs H; simpl in *.
  - destruct (lookup cs name); reflexivity.
  - destruct (strchr f "=") as [[k v]|]; [|discriminate H].
    rewrite (IH _ H), http_add_cookie_lookup.
    destruct (lookup cs name); [reflexivity|].
    destruct (String.eqb k name); reflexivity.
Qed.

(** A text that ends in [';'] has an empty last field, which has no
    ['=']; it is accepted. *)
Lemma trailing_semicolon_accepted :
  existsb lacks_equals (fields "USER=a;AUTH=b;") = true /\
  parse_cookie (Some "USER=a;AUTH=b;"%string) []
  = (0, [("USER", "a"); ("AUTH", "b")]%string).
Proof. vm_compute. split; reflexivity. Qed.

(** C7 (cookie parsing, amended).  [parse_cookie] goes through the fields
    of the text (split on [';'], leading white space trimmed from each
    field after the first), except that a last field which is empty is
    not looked at: a text may end in [';'], and the empty text has no
    field.  Each field is split at its first ['='] and added under its
    name unless the name is in the store already.  It fails, with
    [-EINVAL], exactly when one of these fields has no ['=']; otherwise it
    returns 0, and a name stands for what it stood for before or else for
    the value of the first field of that name.  The empty text gives the
    empty store. *)
Theorem parse_cookie_by_fields (raw : string) (cookies : cookie_store) :
  let fs := live (fields raw) in
  parse_cookie (Some raw) cookies = add_fields fs cookies /\
  (fst (parse_cookie (Some raw) cookies) = - EINVAL <->
   existsb lacks_equals fs = true) /\
  (fst (parse_cookie (Some raw) cookies) = 0 <->
   existsb lacks_equals fs = false) /\
  (fst (parse_cookie (Some raw) cookies) = 0 ->
   forall name,
     lookup (snd (parse_cookie (Some raw) cookies)) name
     = match lookup cookies name with
       | Some x => Some x
       | None => first_binding fs name
       end) /\
  parse_cookie (Some ""%string) [] = (0, []).
Proof.
  intros fs.
  assert (E : parse_cookie (Some raw) cookies = add_fields fs cookies)
    by (apply (parse_cookie_loop_fields (String.length raw)); lia).
  rewrite E. destruct (add_fields_status fs cookies) as [A B].
  repeat split; try apply A; try apply B.
  intros H name. apply add_fields_lookup. exact H.
Qed.

(** ** Session parameters *)

Lemma lookup_none_iff cs name : lookup cs name = None <-> has_cookie cs name = false.
Proof.
  unfold lookup, has_cookie. induction cs as [|[k v] cs IH]; simpl.
  - split; reflexivity.
  - destruct (String.eqb k name); simpl; [split; discriminate|exact IH].
Qed.

Lemma has_cookie_app cs cs' name :
  has_cookie (cs ++ cs') name = has_cookie cs name || has_cookie cs' name.
Proof. unfold has_cookie. apply existsb_app. Qed.

Lemma has_cookie_rev cs name : has_cookie (rev cs) name = has_cookie cs name.
Proof.
  induction cs as [|c cs IH]; [reflexivity|].
  simpl rev. rewrite has_cookie_app, IH. unfold has_cookie. simpl.
  rewrite orb_false_r. apply orb_comm.
Qed.

(** A name is absent from the store for the loop exactly when named
    lookup finds nothing. *)
Lemma last_value_none_iff cs name :
  last_value cs name = None <-> lookup cs name = None.
Proof.
  unfold last_value. rewrite !lookup_none_iff, has_cookie_rev. reflexivity.
Qed.

Lemma last_value_snoc cs k v name :
  last_value (cs ++ [(k, v)]) name
  = if String.eqb k name then Some v else last_value cs name.
Proof. unfold last_value. rewrite rev_unit. unfold lookup. simpl.
  destruct (String.eqb k name); reflexivity.
Qed.

(** What the loop over the cookies leaves in the locals. *)
Lemma scan_cookies_spec cs :
  tunnel_path (scan_cookies cs) = last_value cs "TUNNEL" /\
  username (scan_cookies cs) = last_value cs "USER" /\
  authcookie (scan_cookies cs) = last_value cs "AUTH" /\
  ipaddr (scan_cookies cs) = last_value cs "IP" /\
  l_mtu (scan_cookies cs)
  = match last_value cs "MTU" with Some m => atoi m | None => -1 end.
Proof.
  induction cs as [|[k v] cs IH] using rev_ind.
  - repeat split.
  - unfold scan_cookies in *. rewrite fold_left_app. simpl fold_left.
    rewrite !last_value_snoc.
    destruct IH as (I1 & I2 & I3 & I4 & I5).
    unfold scan_cookie.
    destruct (String.eqb_spec k "TUNNEL") as [->|];
      [simpl; repeat split; assumption|].
    destruct (String.eqb_spec k "USER") as [->|];
      [simpl; repeat split; assumption|].
    destruct (String.eqb_spec k "AUTH") as [->|];
      [simpl; repeat split; assumption|].
    destruct (String.eqb_spec k "IP") as [->|];
      [simpl; repeat split; assumption|].
    destruct (String.eqb_spec k "MTU") as [->|];
      [simpl; repeat split; assumption|].
    repeat split; assumption.
Qed.

(** The checks and defaults after the loop. *)
Lemma session_of_spec cs :
  (session_of (scan_cookies cs) = None <->
   lookup cs "USER" = None \/ lookup cs "AUTH" = None) /\
  (forall s, session_of (scan_cookies cs) = Some s ->
     last_value cs "USER" = Some (s_username s) /\
     last_value cs "AUTH" = Some (s_authcookie s) /\
     s_tunnel_path s = match last_value cs "TUNNEL" with
                       | Some t => t
                       | None => "/ssl-tunnel-connect.sslvpn"%string
                       end /\
     s_ipaddr s = match last_value cs "IP" with
                  | Some ip => ip
                  | None => "0.0.0.0"%string
                  end /\
     s_mtu s = match last_value cs "MTU" with
               | Some m => if atoi m <=? 0 then 1500 else atoi m
               | None => 1500
               end).
Proof.
  destruct (scan_cookies_spec cs) as (T & U & A & I & M).
  unfold session_of. rewrite T, U, A, I, M.
  rewrite <- (last_value_none_iff cs "USER"), <- (last_value_none_iff cs "AUTH").
  destruct (last_value cs "USER") as [u|]; destruct (last_value cs "AUTH") as [a|];
    (split; [split; [try discriminate; tauto
                    |intros [H|H]; try discriminate; tauto]|]);
    intros s H; try discriminate.
  injection H as <-. simpl.
  destruct (last_value cs "MTU"); repeat split.
Qed.

(** The outcomes of the handshake part. *)
Lemma tunnel_handshake_outcome e v s :
  let '(res, v', tr) := tunnel_handshake e v s in
  res <> Failed MissingCredentials /\
  res <> Failed MalformedCookie /\
  (open_https e = 0 -> In (SslWrite (request_line s (urlencode e))) tr) /\
  (res = Established ->
   ip_info v' = mk_ip_info (Some (s_ipaddr s)) (Some "255.255.255.255"%string) (s_mtu s)).
Proof.
  unfold tunnel_handshake.
  destruct (Z.eqb_spec (open_https e) 0) as [O|O]; cbn [negb].
  2:{ repeat split; try discriminate. intros; contradiction. }
  destruct (ssl_read e) as [errno|text].
  - destruct (- Z.pos errno =? - EINTR); repeat split; try discriminate;
      intros; simpl; tauto.
  - set (buf := buf_after_read _ _). set (n := Z.of_nat _).
    unfold dispatch_response.
    destruct (strncmp buf "START_TUNNEL" 12 =? 0);
      [|destruct (strncmp buf "HTTP/" 5 =? 0); [|destruct (n =? 0)]];
      cbn [retcode Z.ltb Z.compare Z.opp EINVAL EPIPE];
      repeat split; try discriminate; intros; simpl; tauto.
Qed.

(** C6 (session parameters).  Once the cookie store is there (it was
    there on entry, or the cookie text was parsed into it without error),
    [gpst_connect] fails with the "Missing USERNAME and/or AUTH cookie"
    exit exactly when the store has no USER or no AUTH.  Otherwise the
    tunnel path, the address and the MTU are those of the TUNNEL, IP and
    MTU cookies, with /ssl-tunnel-connect.sslvpn, 0.0.0.0 and 1500 where
    the cookie is absent, and 1500 also where the MTU cookie is there but
    its value is not positive; the path goes into the request that is
    sent, the address and the MTU into [ip_info] when the tunnel is
    established. *)
Theorem session_parameters (e : connect_env) (v : openconnect_info)
        (cs : cookie_store) :
  populate_cookies v = (0, cs) ->
  let '(res, v', tr) := gpst_connect e v in
  (res = Failed MissingCredentials <->
   lookup cs "USER" = None \/ lookup cs "AUTH" = None) /\
  (forall name, last_value cs name = None <-> lookup cs name = None) /\
  (res <> Failed MissingCredentials ->
   exists s,
     s_tunnel_path s = match last_value cs "TUNNEL" with
                       | Some t => t
                       | None => "/ssl-tunnel-connect.sslvpn"%string
                       end /\
     s_ipaddr s = match last_value cs "IP" with
                  | Some ip => ip
                  | None => "0.0.0.0"%string
                  end /\
     s_mtu s = match last_value cs "MTU" with
               | Some m => if atoi m <=? 0 then 1500 else atoi m
               | None => 1500
               end /\
     (open_https e = 0 -> In (SslWrite (request_line s (urlencode e))) tr) /\
     (res = Established ->
      ip_info v' = mk_ip_info (Some (s_ipaddr s))
                              (Some "255.255.255.255"%string) (s_mtu s))).
Proof.
  intros P. unfold gpst_connect. rewrite P. cbn [Z.eqb negb].
  destruct (session_of_spec cs) as [N S].
  destruct (session_of (scan_cookies cs)) as [s|] eqn:E.
  - pose proof (tunnel_handshake_outcome e (set_cookies v cs) s) as H.
    destruct (tunnel_handshake e (set_cookies v cs) s) as [[res v'] tr].
    destruct H as (H1 & H2 & H3 & H4).
    destruct (S s eq_refl) as (_ & _ & S3 & S4 & S5).
    split; [|split].
    + split; [intros; contradiction|].
      intros H. apply N in H. discriminate.
    + intros name. apply last_value_none_iff.
    + intros _. exists s. repeat split; assumption.
  - split; [|split].
    + split; [intros _; apply N; reflexivity|reflexivity].
    + intros name. apply last_value_none_iff.
    + intros H. contradiction.
Qed.

Lemma session_parameters_witness :
  let e := handshake (SslReadText "START_TUNNEL") "" in
  let v := logged_in "USER=u; AUTH=t; MTU=0" in
  let cs := [("USER", "u"); ("AUTH", "t"); ("MTU", "0")]%string in
  populate_cookies v = (0, cs) /\
  let '(res, v', tr) := gpst_connect e v in
  (res = Failed MissingCredentials <->
   lookup cs "USER" = None \/ lookup cs "AUTH" = None) /\
  res = Established /\
  ip_info v' = mk_ip_info (Some "0.0.0.0"%string)
                          (Some "255.255.255.255"%string) 1500.
Proof.
  intros e v cs.
  assert (P : populate_cookies v = (0, cs)) by (vm_compute; reflexivity).
  split; [exact P|].
  pose proof (session_parameters e v cs P) as H.
  destruct (gpst_connect e v) as [[res v'] tr] eqn:G.
  destruct H as (H1 & _ & _).
  split; [exact H1|].
  vm_compute in G. injection G as <- <- _. split; reflexivity.
Defined.

(** ** The handshake response *)

(** A response that begins with START_TUNNEL is taken as such whatever
    else the array holds. *)
Lemma dispatch_start_tunnel stack rest n :
  dispatch_response (buf_after_read stack ("START_TUNNEL" ++ rest)) n = Established.
Proof. reflexivity. Qed.

(** A response that begins with HTTP/ is the gateway's error. *)
Lemma dispatch_http stack rest n :
  dispatch_response (buf_after_read stack ("HTTP/" ++ rest)) n
  = Failed GatewayHttpError.
Proof. reflexivity. Qed.

(** When nothing was read, the comparisons look at what the array held
    before; only if that is neither text is the zero length noticed. *)
Lemma dispatch_nothing_read stack :
  dispatch_response (buf_after_read stack "") 0
  = if strncmp (substring 0 256 stack) "START_TUNNEL" 12 =? 0 then Established
    else if strncmp (substring 0 256 stack) "HTTP/" 5 =? 0
         then Failed GatewayHttpError
         else Failed PeerClosed.
Proof. reflexivity. Qed.

(** A failed read ends the function at once: [-EINTR] is passed on as it
    is, any other error becomes [-EINVAL]; in both cases the transport
    stays as [openconnect_open_https] left it and nothing more is
    called. *)
Lemma tunnel_handshake_read_failure e v s errno :
  open_https e = 0 ->
  ssl_read e = SslReadFail errno ->
  tunnel_handshake e v s
  = (if Pos.eqb errno 4 then Failed ReadInterrupted else Failed ReadFailed,
     set_ssl_fd v (open_fd e),
     [DisableIPv6; OpenHttps; SslWrite (request_line s (urlencode e)); SslRead 256]).
Proof.
  intros O R. unfold tunnel_handshake. rewrite O, R. cbn [Z.eqb negb].
  unfold EINTR. destruct (Pos.eqb_spec errno 4) as [->|N].
  - reflexivity.
  - destruct (- Z.pos errno =? _) eqn:E; [|reflexivity].
    apply Z.eqb_eq in E. exfalso. apply N. lia.
Qed.

(** After a response was read, a failure closes the transport and
    success registers it. *)
Lemma tunnel_handshake_after_response e v s text :
  open_https e = 0 ->
  ssl_read e = SslReadText text ->
  let '(res, v', tr) := tunnel_handshake e v s in
  match res with
  | Established =>
      ssl_fd v' = open_fd e /\
      tr = [DisableIPv6; OpenHttps; SslWrite (request_line s (urlencode e));
            SslRead 256; MonitorFdNew; MonitorReadFd; MonitorExceptFd]
  | Failed _ =>
      ssl_fd v' = -1 /\
      tr = [DisableIPv6; OpenHttps; SslWrite (request_line s (urlencode e));
            SslRead 256; CloseHttps]
  end.
Proof.
  intros O R. unfold tunnel_handshake. rewrite O, R. cbn [Z.eqb negb].
  set (buf := buf_after_read _ _). set (n := Z.of_nat _).
  unfold dispatch_response.
  destruct (strncmp buf "START_TUNNEL" 12 =? 0);
    [|destruct (strncmp buf "HTTP/" 5 =? 0); [|destruct (n =? 0)]];
    split; reflexivity.
Qed.

(** C4 (handshake response dispatch), at the input where the code leaves
    it: the read returns 0 (the gateway closed the connection) and the
    array, which is not initialised, holds START_TUNNEL from before.  The
    comparison with START_TUNNEL is made before the length is looked at,
    so the tunnel counts as established and the transport is registered;
    with an array of NULs the same read is the "Gateway disconnected"
    exit. *)
Theorem empty_read_decided_by_stale_buffer :
  let v := logged_in "USER=u; AUTH=t" in
  let dirty := gpst_connect (handshake (SslReadText "") "START_TUNNEL") v in
  let clean := gpst_connect (handshake (SslReadText "") "") v in
  fst (fst dirty) = Established /\
  retcode (fst (fst dirty)) = 0 /\
  snd dirty = [DisableIPv6; OpenHttps;
               SslWrite (request_line
                           (mk_session "/ssl-tunnel-connect.sslvpn" "u" "t"
                                       "0.0.0.0" 1500)
                           (fun s => s));
               SslRead 256; MonitorFdNew; MonitorReadFd; MonitorExceptFd] /\
  fst (fst clean) = Failed PeerClosed /\
  retcode (fst (fst clean)) = - EPIPE.
Proof. vm_compute. repeat split. Qed.

(** C5 (transport disposition), at the input where the code leaves it:
    the read of the response fails with an error other than EINTR (here
    EIO, 5).  [gpst_connect] returns [-EINVAL] from inside the test of the
    read, before the code at [out:] that closes the transport on failure:
    the transport that [openconnect_open_https] opened is still open and
    [openconnect_close_https] has not been called.  (A failure found in
    the response, such as an HTTP status line, does go through [out:] and
    closes it.) *)
Theorem read_failure_skips_teardown :
  let v := logged_in "USER=u; AUTH=t" in
  let failed := gpst_connect (handshake (SslReadFail 5) "") v in
  let refused := gpst_connect (handshake (SslReadText "HTTP/1.1 403 Forbidden") "") v in
  fst (fst failed) = Failed ReadFailed /\
  retcode (fst (fst failed)) = - EINVAL /\
  ssl_fd (snd (fst failed)) = 3 /\
  ~ In CloseHttps (snd failed) /\
  fst (fst refused) = Failed GatewayHttpError /\
  ssl_fd (snd (fst refused)) = -1 /\
  In CloseHttps (snd refused).
Proof.
  vm_compute. repeat split; try tauto.
  intros H. repeat (destruct H as [H|H]; [discriminate H|]). exact H.
Qed.

(** ** The scenarios of the specification, run on the embedding *)

Example parse_two_cookies :
  parse_cookie (Some "USER=a;AUTH=b"%string) []
  = (0, [("USER", "a"); ("AUTH", "b")]%string) /\
  parse_cookie (Some "USER=a; AUTH=b"%string) []
  = parse_cookie (Some "USER=a;AUTH=b"%string) [].
Proof. split; reflexivity. Qed.

Example parse_without_equals :
  parse_cookie (Some "X"%string) [] = (- EINVAL, []).
Proof. reflexivity. Qed.

Example parse_keeps_existing :
  snd (parse_cookie (Some "USER=b; AUTH=t"%string) [("USER", "a")%string])
  = [("USER", "a"); ("AUTH", "t")]%string.
Proof. reflexivity. Qed.

Example connect_defaults :
  let r := gpst_connect (handshake (SslReadText "START_TUNNEL") "")
                        (logged_in "USER=u; AUTH=t") in
  fst (fst r) = Established /\
  ip_info (snd (fst r))
  = mk_ip_info (Some "0.0.0.0"%string) (Some "255.255.255.255"%string) 1500 /\
  In (SslWrite (request_line (mk_session "/ssl-tunnel-connect.sslvpn" "u" "t"
                                         "0.0.0.0" 1500) (fun s => s)))
     (snd r).
Proof. vm_compute. repeat split. tauto. Qed.

Example connect_responses :
  let run text := fst (fst (gpst_connect (handshake (SslReadText text) "")
                                         (logged_in "USER=u; AUTH=t"))) in
  run "START_TUNNEL"%string = Established /\
  run "HTTP/1.1 403 Forbidden"%string = Failed GatewayHttpError /\
  run ""%string = Failed PeerClosed /\
  run "garbage"%string = Failed UnexpectedResponse.
Proof. vm_compute. repeat split. Qed.

Example connect_interrupted :
  let r := gpst_connect (handshake (SslReadFail 4) "") (logged_in "USER=u; AUTH=t") in
  fst (fst r) = Failed ReadInterrupted /\ retcode (fst (fst r)) = - EINTR.
Proof. vm_compute. split; reflexivity. Qed.

Example reject_frames :
  decode_frame rx0 (repeat x00 16) = inl BadMagic /\
  decode_frame rx0 ([x1a; x2b; x3c; x4d; x08; x00; x00; x0a;
                     x01; x00; x00; x00; x00; x00; x00; x00] ++ repeat x00 4)
  = inl LengthMismatch /\
  decode_frame rx0 (repeat x00 15) = inl ShortHeader.
Proof. vm_compute. repeat split. Qed.

(** A write that fails leads to a reconnect and the return value 1; the
    packet stays in the slot, and the next wake-up writes it, then the
    packet behind it, each once. *)
Example reconnect_then_resume :
  let v := set_outgoing_queue idle [pkt_of payload3; pkt_of [x02]] in
  let r1 := gpst_mainloop (steady 7 (-5)) [] v in
  let r2 := gpst_mainloop
              (mk_oracle (fun _ => Some rx0) (fun _ => 8)
                         (fun k => if Nat.eqb k 0 then 19 else 17) (0, 4))
              [] (snd (fst r1)) in
  fst (fst r1) = 1 /\
  snd r1 = [UnmonitorWriteFd; NonblockWrite (encode_frame (pkt_of payload3));
            Reconnect] /\
  fst (fst r2) = 0 /\
  writes_of (snd r2) = [encode_frame (pkt_of payload3); encode_frame (pkt_of [x02])] /\
  current_ssl_pkt (snd (fst r2)) = None /\
  outgoing_queue (snd (fst r2)) = [].
Proof. vm_compute. repeat split. Qed.

(** * Further properties of the code *)

(** ** Words and their bytes *)

Lemma lor_add a b k :
  0 <= k -> (forall n, 0 <= n < k -> Z.testbit a n = false) -> 0 <= b < 2 ^ k ->
  Z.lor a b = a + b.
Proof.
  intros Hk Ha Hb.
  assert (L : Z.land a b = 0).
  { apply Z.bits_inj'. intros n Hn. rewrite Z.land_spec, Z.bits_0.
    destruct (Z.lt_ge_cases n k).
    - rewrite Ha by lia. reflexivity.
    - rewrite (testbit_above b k n) by lia. apply andb_false_r. }
  rewrite Z.add_nocarry_lxor by exact L. symmetry. apply Z.lxor_lor. exact L.
Qed.

Lemma at_range p i : 0 <= at_ p i < 256.
Proof. apply u8_range. Qed.

Lemma load_be16_value p : load_be16 p = at_ p 0 * 256 + at_ p 1.
Proof.
  unfold load_be16. pose proof (at_range p 1).
  rewrite (lor_add _ _ 8); try lia.
  - rewrite Z.shiftl_mul_pow2 by lia. reflexivity.
  - intros n Hn. apply Z.shiftl_spec_low. lia.
Qed.

Lemma load_be16_range p : 0 <= load_be16 p <= 65535.
Proof.
  rewrite load_be16_value.
  pose proof (at_range p 0). pose proof (at_range p 1). lia.
Qed.

Lemma word_of_bytes a0 a1 a2 a3 :
  0 <= a0 < 256 -> 0 <= a1 < 256 -> 0 <= a2 < 256 -> 0 <= a3 < 256 ->
  Z.lor (Z.lor (Z.lor (Z.shiftl a0 24) (Z.shiftl a1 16)) (Z.shiftl a2 8)) a3
  = a0 * 16777216 + a1 * 65536 + a2 * 256 + a3.
Proof.
  intros H0 H1 H2 H3.
  rewrite (lor_add _ a3 8); try lia.
  2:{ intros n Hn. rewrite !Z.lor_spec, !Z.shiftl_spec_low by lia. reflexivity. }
  rewrite (lor_add _ (Z.shiftl a2 8) 16); try lia.
  2:{ intros n Hn. rewrite !Z.lor_spec, !Z.shiftl_spec_low by lia. reflexivity. }
  2:{ rewrite Z.shiftl_mul_pow2 by lia. change (2 ^ 8) with 256.
      change (2 ^ 16) with 65536. lia. }
  rewrite (lor_add _ (Z.shiftl a1 16) 24); try lia.
  2:{ intros n Hn. apply Z.shiftl_spec_low. lia. }
  2:{ rewrite Z.shiftl_mul_pow2 by lia. change (2 ^ 16) with 65536.
      change (2 ^ 24) with 16777216. lia. }
  rewrite !Z.shiftl_mul_pow2 by lia. reflexivity.
Qed.

Lemma to_u8_of z b : Z.land z 255 = u8 b -> to_u8 z = b.
Proof.
  intros H. unfold to_u8. rewrite H. unfold u8. rewrite N2Z.id.
  rewrite Byte.of_to_N. reflexivity.
Qed.

Lemma to_u8_mod z b : z mod 256 = u8 b -> to_u8 z = b.
Proof.
  intros H. apply to_u8_of. change 255 with (Z.ones 8).
  rewrite Z.land_ones by lia. exact H.
Qed.

Lemma uint32_mod d : uint32 d = d mod 4294967296.
Proof.
  unfold uint32. change 4294967295 with (Z.ones 32).
  rewrite Z.land_ones by lia. reflexivity.
Qed.

(** Storing what was loaded gives back the bytes. *)
Lemma store_load_be16 b0 b1 rest :
  store_be16 (load_be16 (b0 :: b1 :: rest)) = [b0; b1].
Proof.
  rewrite load_be16_value. unfold store_be16, at_. simpl nth.
  pose proof (u8_range b0). pose proof (u8_range b1).
  rewrite uint16_mod, Z.shiftr_div_pow2 by lia. change (2 ^ 8) with 256.
  f_equal; [|f_equal]; apply to_u8_mod; Z.div_mod_to_equations; lia.
Qed.

Lemma store_load_be32 b0 b1 b2 b3 rest :
  store_be32 (load_be32 (b0 :: b1 :: b2 :: b3 :: rest)) = [b0; b1; b2; b3].
Proof.
  unfold load_be32, store_be32, at_. simpl nth.
  pose proof (u8_range b0). pose proof (u8_range b1).
  pose proof (u8_range b2). pose proof (u8_range b3).
  rewrite word_of_bytes by assumption.
  rewrite uint32_mod, !Z.shiftr_div_pow2 by lia.
  change (2 ^ 8) with 256. change (2 ^ 16) with 65536.
  change (2 ^ 24) with 16777216.
  repeat (f_equal; try (apply to_u8_mod; Z.div_mod_to_equations; lia)).
Qed.

Lemma store_load_le32 b0 b1 b2 b3 rest :
  store_le32 (load_le32 (b0 :: b1 :: b2 :: b3 :: rest)) = [b0; b1; b2; b3].
Proof.
  unfold load_le32, store_le32, at_. simpl nth.
  pose proof (u8_range b0). pose proof (u8_range b1).
  pose proof (u8_range b2). pose proof (u8_range b3).
  rewrite word_of_bytes by assumption.
  rewrite uint32_mod, !Z.shiftr_div_pow2 by lia.
  change (2 ^ 8) with 256. change (2 ^ 16) with 65536.
  change (2 ^ 24) with 16777216.
  repeat (f_equal; try (apply to_u8_mod; Z.div_mod_to_equations; lia)).
Qed.

(** ** The frames the receiver accepts *)

(** A header that passes the check is, byte for byte, the header the
    sender stores for the declared length. *)
Lemma check_header_exact buf n ethertype payload_len :
  (16 <= List.length buf)%nat ->
  check_header buf n = inr (ethertype, payload_len) ->
  firstn 16 buf = hdr (store_header (mkpkt payload_len [] [])) /\
  ethertype = ETHERTYPE_IPV4 /\ n = 16 + payload_len /\
  0 <= payload_len <= 65535.
Proof.
  intros L.
  do 16 (destruct buf as [|? buf]; [simpl in L; lia|]). clear L.
  unfold check_header. destruct (n <? 16); [discriminate|].
  cbn [skipn].
  destruct (Z.eqb_spec (load_be32 (b :: b0 :: b1 :: b2 :: b3 :: b4 :: b5 :: b6 :: b7
              :: b8 :: b9 :: b10 :: b11 :: b12 :: b13 :: b14 :: buf)) GPST_MAGIC)
    as [M|]; cbn [negb]; [|discriminate].
  destruct (Z.eqb_spec (load_be16 (b3 :: b4 :: b5 :: b6 :: b7 :: b8 :: b9 :: b10
              :: b11 :: b12 :: b13 :: b14 :: buf)) ETHERTYPE_IPV4)
    as [E|]; cbn [negb]; [|discriminate].
  destruct (Z.eqb_spec n (16 + load_be16 (b5 :: b6 :: b7 :: b8 :: b9 :: b10
              :: b11 :: b12 :: b13 :: b14 :: buf)))
    as [N|]; cbn [negb]; [|discriminate].
  destruct (Z.eqb_spec (load_le32 (b7 :: b8 :: b9 :: b10 :: b11 :: b12 :: b13
              :: b14 :: buf)) 1)
    as [O|]; cbn [negb orb]; [|discriminate].
  destruct (Z.eqb_spec (load_le32 (b11 :: b12 :: b13 :: b14 :: buf)) 0)
    as [Z0|]; cbn [negb]; [|discriminate].
  intros H. injection H as <- <-.
  repeat split; try assumption; try apply load_be16_range.
  cbn [firstn]. unfold store_header. cbn [hdr len].
  rewrite <- M, <- E, <- O, <- Z0.
  rewrite store_load_be32, !store_load_be16, !store_load_le32. reflexivity.
Qed.

(** Decoding what the sender wrote for a payload of at most 65535 bytes
    gives the payload back. *)
Lemma decode_frame_encoded rx hdr0 payload :
  Z.of_nat (List.length payload) <= 65535 ->
  decode_frame rx (encode_frame (mkpkt (Z.of_nat (List.length payload)) hdr0 payload))
  = inr (ETHERTYPE_IPV4, payload).
Proof.
  intros Hlen.
  set (p := mkpkt (Z.of_nat (List.length payload)) hdr0 payload).
  assert (Hp : 0 <= len p <= 65535) by (simpl; lia).
  assert (E : encode_frame p = hdr (store_header p) ++ payload).
  { rewrite encode_frame_eq by lia. f_equal. simpl len. simpl data.
    rewrite Nat2Z.id. apply firstn_all. }
  assert (L : Z.of_nat (List.length (encode_frame p)) = 16 + len p).
  { rewrite E, length_app, store_header_length. simpl len. lia. }
  rewrite decode_frame_long by lia.
  rewrite L. rewrite E at 1. rewrite check_header_stored by assumption.
  rewrite payload_cut by exact L.
  rewrite E. f_equal.
Qed.

(** X1.  The receiver accepts exactly what the sender writes: a buffer
    decodes to a payload if and only if it is the frame that the queue
    service writes for that payload, the payload has at most 65535 bytes,
    and the EtherType reported is 0x0800.  No other byte sequence gets
    through the header check. *)
Theorem decode_accepts_exactly_encoded (rx : pkt) (buf : list byte)
        (ethertype : Z) (payload : list byte) :
  decode_frame rx buf = inr (ethertype, payload) <->
  ethertype = ETHERTYPE_IPV4 /\
  Z.of_nat (List.length payload) <= 65535 /\
  buf = encode_frame (pkt_of payload).
Proof.
  split.
  - intros D.
    destruct (Z.lt_ge_cases (Z.of_nat (List.length buf)) 16) as [S|L].
    { rewrite decode_frame_short in D by assumption. discriminate. }
    rewrite decode_frame_long in D by assumption.
    destruct (check_header buf (Z.of_nat (List.length buf))) as [e|[et pl]] eqn:C;
      [discriminate|].
    apply check_header_exact in C; [|lia].
    destruct C as (H16 & -> & N & R).
    rewrite payload_cut in D by exact N.
    assert (P : Z.of_nat (List.length (skipn 16 buf)) = pl)
      by (rewrite length_skipn; lia).
    assert (B : buf = firstn 16 buf ++ skipn 16 buf)
      by (symmetry; apply firstn_skipn).
    remember (skipn 16 buf) as pay eqn:Epay.
    assert (Ee : ethertype = ETHERTYPE_IPV4) by congruence.
    assert (Ep : payload = pay) by congruence.
    subst ethertype payload. clear D.
    split; [reflexivity|]. split; [lia|].
    unfold pkt_of. rewrite encode_frame_eq by (cbn [len]; lia).
    cbn [len data]. rewrite Nat2Z.id, firstn_all.
    unfold store_header at 1. cbn [hdr len]. rewrite P.
    change (store_be32 GPST_MAGIC ++ store_be16 ETHERTYPE_IPV4 ++ store_be16 pl
            ++ store_le32 1 ++ store_le32 0)
      with (hdr (store_header (mkpkt pl [] []))).
    rewrite <- H16. exact B.
  - intros (-> & L & ->). apply decode_frame_encoded. exact L.
Qed.

(** ** What the read loop queues *)

Lemma recv_frame_ok p buf ethertype q :
  recv_frame p buf = inr (ethertype, q) ->
  ethertype = ETHERTYPE_IPV4 /\
  well_received q /\
  pkt_payload q = skipn 16 buf /\
  16 <= Z.of_nat (List.length buf).
Proof.
  unfold recv_frame. intros R.
  destruct (Z.lt_ge_cases (Z.of_nat (List.length buf)) 16) as [S|L].
  { unfold check_header in R.
    destruct (Z.ltb_spec (Z.of_nat (List.length buf)) 16); [discriminate|lia]. }
  rewrite pkt_fill_hdr, pkt_fill_data in R by lia.
  destruct (check_header (firstn 16 buf) (Z.of_nat (List.length buf)))
    as [e|[et pl]] eqn:C; [discriminate|].
  assert (E : ethertype = et) by congruence.
  assert (Q : q = mkpkt pl (firstn 16 buf)
                        (skipn 16 buf ++ skipn (List.length buf) (pkt_mem p)))
    by congruence.
  clear R. subst ethertype q.
  pose proof C as C'.
  apply check_header_exact in C'; [|rewrite length_firstn; lia].
  destruct C' as (_ & -> & N & R).
  assert (P : firstn (Z.to_nat pl)
                     (skipn 16 buf ++ skipn (List.length buf) (pkt_mem p))
              = skipn 16 buf) by (apply payload_cut; exact N).
  split; [reflexivity|]. split; [|split; [exact P|exact L]].
  unfold well_received, pkt_payload. cbn [len hdr data]. rewrite P.
  split; [exact R|]. split.
  - rewrite length_skipn. lia.
  - rewrite <- N. exact C.
Qed.

Lemma encode_frame_pkt_of payload :
  encode_frame (pkt_of payload) = hdr (store_header (pkt_of payload)) ++ payload /\
  List.length (encode_frame (pkt_of payload)) = (16 + List.length payload)%nat.
Proof.
  assert (E : encode_frame (pkt_of payload)
              = hdr (store_header (pkt_of payload)) ++ payload).
  { rewrite encode_frame_eq by (unfold pkt_of; cbn [len]; lia).
    unfold pkt_of at 2 3. cbn [len data]. rewrite Nat2Z.id, firstn_all.
    reflexivity. }
  split; [exact E|]. rewrite E, length_app, store_header_length. reflexivity.
Qed.

(** The read loop only adds to the incoming queue, and what it adds has
    passed the header check. *)
Lemma read_loop_queues_validated o reads : forall v c wd,
  exists new,
    incoming_queue (exit_info (read_loop o reads v c wd))
    = incoming_queue v ++ new /\
    Forall well_received new /\
    (List.length new <= List.length reads)%nat.
Proof.
  induction reads as [|r reads IH]; intros v c wd; simpl read_loop;
    destruct (ensure_cstp_pkt o v c) as [[p|] c1];
    try (exists []; simpl; rewrite app_nil_r; repeat split;
         [constructor|lia]).
  destruct r as [errno|bytes].
  { exists []. simpl. rewrite app_nil_r. repeat split; [constructor|lia]. }
  destruct (Z.of_nat (List.length (delivered bytes)) =? 0).
  { exists []. simpl. rewrite app_nil_r. repeat split; [constructor|lia]. }
  destruct (recv_frame p (delivered bytes)) as [e|[et q]] eqn:R.
  { destruct e; exists []; simpl; rewrite app_nil_r; repeat split;
      try constructor; lia. }
  apply recv_frame_ok in R. destruct R as (_ & W & _).
  match goal with
  | |- context [read_loop o reads ?v1 ?c2 ?w1] =>
      destruct (IH v1 c2 w1) as (new & I & F & L)
  end.
  exists (q :: new). rewrite I. simpl incoming_queue. unfold queue_packet.
  rewrite <- app_assoc. repeat split.
  - constructor; assumption.
  - simpl. lia.
Qed.

(** Reconnecting and the write phase leave the receive side alone. *)
Lemma do_reconnect_rx o v tr r v' tr' :
  do_reconnect o v tr = (r, v', tr') ->
  incoming_queue v' = incoming_queue v /\ last_rx v' = last_rx v.
Proof.
  unfold do_reconnect. destruct (o_reconnect o) as [ret fd].
  destruct (negb (ret =? 0)); intros H; injection H as <- <- <-; split; reflexivity.
Qed.

Lemma handle_outgoing_rx o p v c wd tr :
  match handle_outgoing o p v c wd tr with
  | WriteDone v' _ _ => incoming_queue v' = incoming_queue v /\ last_rx v' = last_rx v
  | WriteReturn (_, v', _) =>
      incoming_queue v' = incoming_queue v /\ last_rx v' = last_rx v
  end.
Proof.
  unfold handle_outgoing, do_reconnect. destruct (o_reconnect o) as [ret fd].
  destruct (o_write o (n_write c) <? 0).
  - destruct (negb (ret =? 0)); split; reflexivity.
  - destruct (o_write o (n_write c) =? 0); [split; reflexivity|].
    destruct (negb (o_write o (n_write c) =? len p + 16)); split; reflexivity.
Qed.

Lemma service_queue_rx o q : forall v c wd tr,
  incoming_queue (snd (fst (service_queue o q v c wd tr))) = incoming_queue v /\
  last_rx (snd (fst (service_queue o q v c wd tr))) = last_rx v.
Proof.
  induction q as [|this q IH]; intros v c wd tr; simpl;
    destruct (is_dtls_connected (dtls_state v)); try (split; reflexivity).
  set (v1 := set_current_ssl_pkt (set_outgoing_queue v q) (Some (store_header this))).
  pose proof (handle_outgoing_rx o (store_header this) v1 c wd tr) as H.
  destruct (handle_outgoing o (store_header this) v1 c wd tr)
    as [v2 c2 tr2|[[r2 v2] tr2]].
  - destruct (IH v2 c2 wd tr2) as [I1 I2]. destruct H as [H1 H2].
    unfold v1 in H1, H2. simpl in H1, H2. split; congruence.
  - exact H.
Qed.

Lemma write_phase_rx o v c wd :
  incoming_queue (snd (fst (write_phase o v c wd))) = incoming_queue v /\
  last_rx (snd (fst (write_phase o v c wd))) = last_rx v.
Proof.
  unfold write_phase. destruct (current_ssl_pkt v) as [p|].
  - pose proof (handle_outgoing_rx o p v c wd []) as H.
    destruct (handle_outgoing o p v c wd []) as [v2 c2 tr2|[[r2 v2] tr2]].
    + destruct (service_queue_rx o (outgoing_queue v2) v2 c2 wd tr2) as [I1 I2].
      destruct H as [H1 H2]. split; congruence.
    + exact H.
  - apply service_queue_rx.
Qed.

(** The receive side after a wake-up is the one the read loop left. *)
Lemma gpst_mainloop_rx o reads v :
  ssl_fd v <> -1 ->
  incoming_queue (snd (fst (gpst_mainloop o reads v)))
  = incoming_queue (exit_info (read_loop o reads v (mk_calls 0 0 0) 0)) /\
  last_rx (snd (fst (gpst_mainloop o reads v)))
  = last_rx (exit_info (read_loop o reads v (mk_calls 0 0 0) 0)).
Proof.
  intros U. unfold gpst_mainloop.
  destruct (Z.eqb_spec (ssl_fd v) (-1)) as [|_]; [contradiction|].
  destruct (read_loop o reads v (mk_calls 0 0 0) 0) as [v1 c1 wd|v1 c1|ret v1 c1];
    simpl exit_info.
  - apply write_phase_rx.
  - destruct (do_reconnect o v1 []) as [[r v'] tr] eqn:D.
    apply do_reconnect_rx in D. exact D.
  - split; reflexivity.
Qed.

(** X2.  A wake-up only appends to the incoming queue, at most one packet
    per read, and every packet it appends has passed the header check:
    its [len] is between 0 and 65535, that many payload bytes are there
    behind the header, and the header is the valid one for that length.
    Nothing that failed a check, and nothing longer than the 16-bit length
    field allows, reaches the consumer of the queue. *)
Theorem incoming_queue_grows_validated o reads v :
  exists new,
    incoming_queue (snd (fst (gpst_mainloop o reads v)))
    = incoming_queue v ++ new /\
    Forall well_received new /\
    (List.length new <= List.length reads)%nat.
Proof.
  destruct (Z.eq_dec (ssl_fd v) (-1)) as [D|U].
  - exists []. rewrite app_nil_r. unfold gpst_mainloop. rewrite D. simpl.
    destruct (do_reconnect o v []) as [[r v'] tr] eqn:R.
    apply do_reconnect_rx in R. simpl. repeat split; [apply R|constructor|lia].
  - destruct (gpst_mainloop_rx o reads v U) as [I _]. rewrite I.
    apply read_loop_queues_validated.
Qed.

(** ** Delivery in order, and the frame that ends the session *)

Lemma ensure_with_malloc o v c :
  malloc_succeeds o ->
  exists rx c0, ensure_cstp_pkt o v c = (Some rx, c0) /\ n_time c0 = n_time c.
Proof.
  intros M. unfold ensure_cstp_pkt. destruct (cstp_pkt v) as [p|].
  - exists p, c. split; reflexivity.
  - destruct (o_malloc o (n_malloc c)) as [p|] eqn:E.
    + eexists p, _. split; reflexivity.
    + exfalso. exact (M _ E).
Qed.

Lemma read_loop_step o rx c0 v c wd buf reads ethertype q :
  ensure_cstp_pkt o v c = (Some rx, c0) ->
  Z.of_nat (List.length buf) <= READ_CAP ->
  recv_frame rx buf = inr (ethertype, q) ->
  read_loop o (ReadData buf :: reads) v c wd
  = read_loop o reads
      (set_cstp_pkt
         (set_incoming_queue
            (set_last_rx (set_cstp_pkt v (Some (pkt_fill rx buf)))
                         (o_time o (n_time c0)))
            (queue_packet (incoming_queue v) q))
         None)
      (mk_calls (n_malloc c0) (S (n_time c0)) (n_write c0)) 1.
Proof.
  intros A L R.
  assert (D : delivered buf = buf) by (apply firstn_all2; lia).
  assert (N : (Z.of_nat (List.length buf) =? 0) = false).
  { apply Z.eqb_neq. apply recv_frame_ok in R. lia. }
  simpl read_loop. rewrite A, D, N, R. reflexivity.
Qed.

Lemma recv_frame_encoded rx payload :
  Z.of_nat (List.length payload) <= 65535 ->
  exists q, recv_frame rx (encode_frame (pkt_of payload)) = inr (ETHERTYPE_IPV4, q) /\
            pkt_payload q = payload.
Proof.
  intros L. pose proof (decode_frame_encoded rx (repeat x00 16) payload L) as D.
  fold (pkt_of payload) in D. unfold decode_frame in D.
  destruct (recv_frame rx (encode_frame (pkt_of payload))) as [e|[et q]];
    [discriminate|].
  exists q. split; congruence.
Qed.

(** The read loop takes in a run of good frames one by one, in order,
    and goes on with what follows them. *)
Lemma read_loop_good_prefix o rest ps :
  malloc_succeeds o ->
  Forall (fun payload => Z.of_nat (List.length payload) <= 65535) ps ->
  forall v c wd,
  exists v1 c1 new,
    read_loop o (frames_of ps ++ rest) v c wd
    = read_loop o rest v1 c1 (match ps with [] => wd | _ => 1 end) /\
    incoming_queue v1 = incoming_queue v ++ new /\
    map pkt_payload new = ps /\
    current_ssl_pkt v1 = current_ssl_pkt v /\
    outgoing_queue v1 = outgoing_queue v /\
    quit_reason v1 = quit_reason v /\
    ssl_fd v1 = ssl_fd v.
Proof.
  intros M F. induction F as [|payload ps Hp F IH]; intros v c wd.
  - exists v, c, []. rewrite app_nil_r. repeat split.
  - destruct (ensure_with_malloc o v c M) as (rx & c0 & A & _).
    destruct (recv_frame_encoded rx payload Hp) as (q & R & P).
    simpl frames_of. simpl app.
    rewrite (read_loop_step o rx c0 v c wd _ _ ETHERTYPE_IPV4 q A); [|
      rewrite (proj2 (encode_frame_pkt_of payload)); unfold READ_CAP; lia|exact R].
    match goal with
    | |- context [read_loop o _ ?v2 ?c2 1] =>
        destruct (IH v2 c2 1) as (v1 & c1 & new & E & I & Q & S1 & S2 & S3 & S4)
    end.
    exists v1, c1, (q :: new). simpl in I, S1, S2, S3, S4.
    unfold queue_packet in I. rewrite <- app_assoc in I.
    repeat split; try assumption.
    + rewrite E. destruct ps; reflexivity.
    + simpl. rewrite P, Q. reflexivity.
Qed.

(** X3.  Frames that arrive together are delivered in the order of
    arrival: when the reads of a wake-up deliver the frames of the
    payloads [ps], each of at most 65535 bytes, the wake-up appends to the
    incoming queue one packet per frame, in that order, each holding its
    payload, whatever happens on the write side afterwards. *)
Theorem frames_delivered_in_order o ps v :
  malloc_succeeds o ->
  Forall (fun payload => Z.of_nat (List.length payload) <= 65535) ps ->
  ssl_fd v <> -1 ->
  exists new,
    incoming_queue (snd (fst (gpst_mainloop o (frames_of ps) v)))
    = incoming_queue v ++ new /\
    map pkt_payload new = ps.
Proof.
  intros M F U.
  destruct (gpst_mainloop_rx o (frames_of ps) v U) as [I _]. rewrite I.
  destruct (read_loop_good_prefix o [] ps M F v (mk_calls 0 0 0) 0)
    as (v1 & c1 & new & E & Q & P & _).
  rewrite app_nil_r in E. rewrite E.
  exists new. split; [|exact P]. rewrite <- Q.
  simpl read_loop. destruct (ensure_cstp_pkt o v1 c1) as [[p|] c2]; reflexivity.
Qed.

Lemma frames_delivered_in_order_witness :
  malloc_succeeds (steady 7 0) /\
  Forall (fun payload => Z.of_nat (List.length payload) <= 65535) [payload3; [x01]] /\
  ssl_fd idle <> -1 /\
  exists new,
    incoming_queue (snd (fst (gpst_mainloop (steady 7 0)
                                            (frames_of [payload3; [x01]]) idle)))
    = incoming_queue idle ++ new /\
    map pkt_payload new = [payload3; [x01]].
Proof.
  assert (M : malloc_succeeds (steady 7 0)) by (intros k; discriminate).
  assert (F : Forall (fun payload => Z.of_nat (List.length payload) <= 65535)
                     [payload3; [x01]])
    by (repeat constructor; simpl; lia).
  assert (U : ssl_fd idle <> -1) by (simpl; lia).
  split; [exact M|]. split; [exact F|]. split; [exact U|].
  exact (frames_delivered_in_order (steady 7 0) [payload3; [x01]] idle M F U).
Defined.

Lemma recv_frame_refused rx bad e :
  check_header bad (Z.of_nat (List.length bad)) = inl e ->
  recv_frame rx bad = inl e.
Proof.
  intros C. unfold recv_frame.
  destruct (Z.lt_ge_cases (Z.of_nat (List.length bad)) 16) as [S|L].
  - unfold check_header in *.
    destruct (Z.ltb_spec (Z.of_nat (List.length bad)) 16); [|lia].
    injection C as <-. reflexivity.
  - rewrite pkt_fill_hdr by lia. rewrite check_header_firstn, C. reflexivity.
Qed.

(** X4.  A frame that fails the header check ends the session on the
    spot: the wake-up returns 1 with the quit reason set ("Short packet
    received" below 16 bytes, "Unknown packet received" otherwise), makes
    no write and no reconnect even with a packet in flight, and does not
    look at later reads; the good frames read before it stay queued, and
    the slot, the outgoing queue and the transport are as they were. *)
Theorem refused_frame_ends_session o ps bad rest v e :
  malloc_succeeds o ->
  Forall (fun payload => Z.of_nat (List.length payload) <= 65535) ps ->
  ssl_fd v <> -1 ->
  0 < Z.of_nat (List.length bad) <= READ_CAP ->
  check_header bad (Z.of_nat (List.length bad)) = inl e ->
  let '(r, v', tr) := gpst_mainloop o (frames_of ps ++ ReadData bad :: rest) v in
  r = 1 /\ tr = [] /\
  quit_reason v' = Some (refusal_reason e) /\
  (exists new, incoming_queue v' = incoming_queue v ++ new /\
               map pkt_payload new = ps) /\
  current_ssl_pkt v' = current_ssl_pkt v /\
  outgoing_queue v' = outgoing_queue v /\
  ssl_fd v' = ssl_fd v.
Proof.
  intros M F U L C. unfold gpst_mainloop.
  destruct (Z.eqb_spec (ssl_fd v) (-1)) as [|_]; [contradiction|].
  destruct (read_loop_good_prefix o (ReadData bad :: rest) ps M F v (mk_calls 0 0 0) 0)
    as (v1 & c1 & new & E & Q & P & S1 & S2 & S3 & S4).
  rewrite E. simpl read_loop.
  destruct (ensure_with_malloc o v1 c1 M) as (rx & c0 & A & _). rewrite A.
  assert (D : delivered bad = bad) by (apply firstn_all2; lia).
  rewrite D. destruct (Z.eqb_spec (Z.of_nat (List.length bad)) 0) as [|_]; [lia|].
  rewrite (recv_frame_refused rx bad e C).
  destruct e; simpl; (repeat split; try assumption; exists new; split; assumption).
Qed.

Lemma refused_frame_ends_session_witness :
  let bad := repeat x00 16 in
  let v := set_current_ssl_pkt idle (Some (store_header (pkt_of [x02]))) in
  check_header bad (Z.of_nat (List.length bad)) = inl BadMagic /\
  let '(r, v', tr) :=
    gpst_mainloop (steady 7 17) (frames_of [payload3] ++ ReadData bad :: []) v in
  r = 1 /\ tr = [] /\ quit_reason v' = Some (refusal_reason BadMagic).
Proof.
  intros bad v.
  assert (C : check_header bad (Z.of_nat (List.length bad)) = inl BadMagic)
    by reflexivity.
  split; [exact C|].
  assert (M : malloc_succeeds (steady 7 17)) by (intros k; discriminate).
  assert (F : Forall (fun payload => Z.of_nat (List.length payload) <= 65535)
                     [payload3]) by (repeat constructor; simpl; lia).
  assert (U : ssl_fd v <> -1) by (simpl; lia).
  assert (L : 0 < Z.of_nat (List.length bad) <= READ_CAP)
    by (unfold READ_CAP; simpl; lia).
  pose proof (refused_frame_ends_session (steady 7 17) [payload3] bad [] v BadMagic
                                         M F U L C) as H.
  destruct (gpst_mainloop (steady 7 17) (frames_of [payload3] ++ [ReadData bad]) v)
    as [[r v'] tr].
  destruct H as (H1 & H2 & H3 & _). repeat split; assumption.
Defined.

(** ** The receive timestamp *)

Lemma read_loop_last_rx o reads : forall v c wd,
  let e := read_loop o reads v c wd in
  (n_time c <= n_time (exit_calls e))%nat /\
  last_rx (exit_info e)
  = if Nat.eqb (n_time (exit_calls e)) (n_time c) then last_rx v
    else o_time o (n_time (exit_calls e) - 1).
Proof.
  induction reads as [|r reads IH]; intros v c wd e; subst e;
    pose proof (ensure_cstp_pkt_calls o v c) as [Ht _]; simpl read_loop;
    destruct (ensure_cstp_pkt o v c) as [[p|] c1]; simpl in Ht;
    try (simpl; rewrite Ht, Nat.eqb_refl; split; [lia|reflexivity]).
  destruct r as [errno|bytes];
    [simpl; rewrite Ht, Nat.eqb_refl; split; [lia|reflexivity]|].
  destruct (Z.of_nat (List.length (delivered bytes)) =? 0);
    [simpl; rewrite Ht, Nat.eqb_refl; split; [lia|reflexivity]|].
  destruct (recv_frame p (delivered bytes)) as [[]|[et q]];
    try (simpl; rewrite Ht, Nat.eqb_refl; split; [lia|reflexivity]).
  match goal with
  | |- context [read_loop o reads ?v1 ?c2 ?w1] =>
      destruct (IH v1 c2 w1) as [I1 I2];
      set (x := read_loop o reads v1 c2 w1) in *
  end.
  simpl in I1, I2. rewrite Ht in I1, I2. split; [lia|].
  rewrite I2.
  destruct (Nat.eqb_spec (n_time (exit_calls x)) (S (n_time c))) as [E|E];
    destruct (Nat.eqb_spec (n_time (exit_calls x)) (n_time c)) as [G|G];
    try lia; try reflexivity.
  rewrite E. f_equal. lia.
Qed.

(** X5.  The receive timestamp moves exactly with the packets accepted:
    a wake-up that queued no packet leaves [last_rx] as it was, and one
    that queued [n + 1] packets leaves it at the time taken for the last
    of them (the call of [time] number [n] of the wake-up); neither the
    write phase nor a reconnect touches it. *)
Theorem last_rx_set_per_packet o reads v :
  let v' := snd (fst (gpst_mainloop o reads v)) in
  last_rx v' = match received v v' with
               | O => last_rx v
               | S n => o_time o n
               end.
Proof.
  intros v'. subst v'. unfold received.
  destruct (Z.eq_dec (ssl_fd v) (-1)) as [D|U].
  - unfold gpst_mainloop. rewrite D. simpl Z.eqb. cbv iota.
    destruct (do_reconnect o v []) as [[r v'] tr] eqn:R.
    apply do_reconnect_rx in R. destruct R as [R1 R2]. simpl.
    rewrite R1, R2, Nat.sub_diag. reflexivity.
  - destruct (gpst_mainloop_rx o reads v U) as [I T]. rewrite I, T.
    destruct (read_loop_last_rx o reads v (mk_calls 0 0 0) 0) as [_ L].
    destruct (read_loop_frame o reads v (mk_calls 0 0 0) 0)
      as (_ & _ & _ & _ & _ & _ & N).
    simpl in L, N. rewrite L.
    set (x := read_loop o reads v (mk_calls 0 0 0) 0) in *.
    replace (List.length (incoming_queue (exit_info x))
             - List.length (incoming_queue v))%nat
      with (n_time (exit_calls x)) by lia.
    destruct (n_time (exit_calls x)) as [|n]; simpl; [reflexivity|].
    rewrite Nat.sub_0_r. reflexivity.
Qed.

(** ** Nothing is lost, repeated or reordered on the way out *)

Lemma store_header_idem p : store_header (store_header p) = store_header p.
Proof. reflexivity. Qed.

Lemma conserved_none o n0 waiting :
  outgoing_conserved o n0 waiting [] waiting.
Proof.
  exists 0%nat. split; [lia|]. split; [reflexivity|].
  split; [intros j p L; lia|]. left. split; [reflexivity|]. intros p L. lia.
Qed.

Lemma conserved_blocked o n0 p waiting :
  ~ complete_write (o_write o n0) p ->
  outgoing_conserved o n0 (p :: waiting) [wire_bytes p] (p :: waiting).
Proof.
  intros N. exists 1%nat. split; [simpl; lia|]. split; [reflexivity|].
  split; [intros j q L; lia|]. right. split; [lia|]. split; [reflexivity|].
  exists p. split; [reflexivity|]. rewrite Nat.add_0_r. exact N.
Qed.

Lemma conserved_written o n0 p waiting written rest :
  complete_write (o_write o n0) p ->
  outgoing_conserved o (S n0) waiting written rest ->
  outgoing_conserved o n0 (p :: waiting) (wire_bytes p :: written) rest.
Proof.
  intros C (k & K & W & E & L). exists (S k).
  split; [simpl; lia|]. split; [simpl; rewrite W; reflexivity|].
  split.
  - intros [|j] q J Q; simpl in Q.
    + injection Q as <-. rewrite Nat.add_0_r. exact C.
    + replace (n0 + S j)%nat with (S n0 + j)%nat by lia.
      apply E; [lia|exact Q].
  - destruct L as [[R L]|(P & R & q & Q & N)].
    + left. split; [exact R|]. intros q _ Q.
      destruct k as [|k].
      * simpl in Q. injection Q as <-. rewrite Nat.add_0_r. exact C.
      * replace (S (S k) - 1)%nat with (S k) in * by lia. simpl in Q.
        replace (n0 + S k)%nat with (S n0 + (S k - 1))%nat by lia.
        apply L; [lia|]. replace (S k - 1)%nat with k by lia. exact Q.
    + right. split; [lia|]. destruct k as [|k]; [lia|].
      replace (S (S k) - 1)%nat with (S k) by lia.
      replace (S k - 1)%nat with k in * by lia.
      split; [simpl; exact R|]. exists q. split; [simpl; exact Q|].
      replace (n0 + S k)%nat with (S n0 + k)%nat by lia. exact N.
Qed.

Lemma service_queue_conserves o q : forall v c wd tr r v' tr',
  current_ssl_pkt v = None ->
  outgoing_queue v = q ->
  service_queue o q v c wd tr = (r, v', tr') ->
  exists written,
    writes_of tr' = writes_of tr ++ written /\
    outgoing_conserved o (n_write c) (map store_header q) written
                       (map store_header (pending v')) /\
    slot_framed v'.
Proof.
  induction q as [|this q IH]; intros v c wd tr r v' tr' Sl Q H; simpl in H.
  - exists []. rewrite app_nil_r.
    destruct (is_dtls_connected (dtls_state v)); injection H as <- <- <-;
      unfold pending, slot_framed; simpl; rewrite ?Sl, Q;
      (split; [reflexivity|split; [apply conserved_none|]]);
      intros p Hp; congruence.
  - destruct (is_dtls_connected (dtls_state v)).
    { exists []. injection H as <- <- <-. rewrite app_nil_r.
      unfold pending, slot_framed. rewrite Sl, Q.
      split; [reflexivity|split; [apply conserved_none|]].
      intros p Hp. congruence. }
    destruct (handle_outgoing o (store_header this)
                (set_current_ssl_pkt (set_outgoing_queue v q)
                                     (Some (store_header this)))
                c wd tr) as [v1 c1 tr1|[[r1 v1] tr1]] eqn:E.
    + apply handle_outgoing_done in E. destruct E as (E1 & E2 & -> & -> & ->).
      apply IH in H; [|reflexivity|reflexivity].
      destruct H as (written & W & P & F).
      exists (wire_bytes (store_header this) :: written).
      rewrite writes_of_app in W. simpl in W.
      rewrite <- app_assoc in W. simpl in W.
      split; [exact W|]. split; [|exact F].
      simpl map. apply conserved_written; [split; assumption|exact P].
    + injection H as -> -> ->. apply handle_outgoing_return in E.
      destruct E as (N & E1 & _ & _ & E4 & _ & E6).
      simpl in E1, E4. exists [wire_bytes (store_header this)].
      split; [exact E6|]. split.
      * unfold pending. rewrite E1, E4. simpl map.
        apply conserved_blocked. exact N.
      * intros p Hp. rewrite E1 in Hp. injection Hp as <-. reflexivity.
Qed.

Lemma write_phase_conserves o v c wd r v' tr' :
  slot_framed v ->
  write_phase o v c wd = (r, v', tr') ->
  outgoing_conserved o (n_write c) (map store_header (pending v))
                     (writes_of tr') (map store_header (pending v')) /\
  slot_framed v'.
Proof.
  intros F H. unfold write_phase in H. unfold pending at 1.
  destruct (current_ssl_pkt v) as [p|] eqn:Sl.
  - pose proof (F p Sl) as Fp. simpl map. rewrite Fp.
    destruct (handle_outgoing o p v c wd []) as [v1 c1 tr1|[[r1 v1] tr1]] eqn:E.
    + apply handle_outgoing_done in E. destruct E as (E1 & E2 & -> & -> & ->).
      apply service_queue_conserves in H; [|reflexivity|reflexivity].
      destruct H as (written & W & P & F'). simpl in W, P.
      rewrite W. split; [|exact F'].
      apply conserved_written; [split; assumption|exact P].
    + injection H as -> -> ->. apply handle_outgoing_return in E.
      destruct E as (N & E1 & _ & _ & E4 & _ & E6). simpl in E6.
      rewrite E6. split.
      * unfold pending. rewrite E1, E4, Sl. simpl map. rewrite Fp.
        apply conserved_blocked. exact N.
      * intros p' Hp. apply F. congruence.
  - apply service_queue_conserves in H; [|exact Sl|reflexivity].
    destruct H as (written & W & P & F'). simpl in W. rewrite W.
    split; assumption.
Qed.

(** X6.  Nothing is lost, repeated or reordered on the way out.  Take
    what waits to be written (the packet in the slot, then the queue),
    each with its header stored, and let the packet in the slot carry its
    header already, as it does when a wake-up left it there.  Then the
    writes of a wake-up are the frames of the first [k] of these, in
    order, one write each, and every write but the last returned the
    [len + 16] bytes asked for.  What waits afterwards is decided by the
    last write: when it was complete too, the rest from packet [k] on
    (every packet written has left); when it was not (it failed, would
    block or was short), the rest from packet [k - 1] on (the packet
    written last is still there, once, in the slot).  The packet in the
    slot carries its header again. *)
Theorem outgoing_packets_conserved o reads v :
  slot_framed v ->
  let '(r, v', tr) := gpst_mainloop o reads v in
  outgoing_conserved o 0 (map store_header (pending v)) (writes_of tr)
                     (map store_header (pending v')) /\
  slot_framed v'.
Proof.
  intros F. destruct (gpst_mainloop o reads v) as [[r v'] tr] eqn:R.
  apply gpst_mainloop_cases in R.
  destruct R as [(_ & W & C & _ & Q)|(_ & v1 & c1 & wd & W & C & Q & _ & _ & NW & _)].
  - rewrite W. split.
    + unfold pending. rewrite C, Q. apply conserved_none.
    + intros p Hp. apply F. congruence.
  - assert (F1 : slot_framed v1) by (intros p Hp; apply F; congruence).
    destruct (write_phase_conserves _ _ _ _ _ _ _ F1 W) as (P & F').
    assert (E : pending v1 = pending v) by (unfold pending; rewrite C, Q; reflexivity).
    rewrite E, NW in P. split; assumption.
Qed.

Lemma outgoing_packets_conserved_witness :
  let v := set_outgoing_queue idle [pkt_of payload3; pkt_of [x02]] in
  let o := mk_oracle (fun _ => Some rx0) (fun _ => 7)
                     (fun k => if Nat.eqb k 0 then 19 else 0) (0, 4) in
  slot_framed v /\
  let '(r, v', tr) := gpst_mainloop o [] v in
  outgoing_conserved o 0 (map store_header (pending v)) (writes_of tr)
                     (map store_header (pending v')) /\
  slot_framed v'.
Proof.
  intros v o.
  assert (F : slot_framed v) by (intros p Hp; discriminate Hp).
  split; [exact F|].
  exact (outgoing_packets_conserved o [] v F).
Defined.

(** ** The queue drained in order *)

Lemma handle_outgoing_complete o p v c wd tr :
  0 <= len p ->
  o_write o (n_write c) = len p + 16 ->
  handle_outgoing o p v c wd tr
  = WriteDone (set_current_ssl_pkt (set_last_tx v (o_time o (n_time c))) None)
              (mk_calls (n_malloc c) (S (n_time c)) (S (n_write c)))
              (tr ++ [UnmonitorWriteFd; NonblockWrite (wire_bytes p)]).
Proof.
  intros L W. unfold handle_outgoing. rewrite W.
  destruct (Z.ltb_spec (len p + 16) 0); [lia|].
  destruct (Z.eqb_spec (len p + 16) 0); [lia|].
  rewrite Z.eqb_refl. reflexivity.
Qed.

Lemma service_queue_drains o q : forall v c wd tr,
  is_dtls_connected (dtls_state v) = false ->
  outgoing_queue v = q ->
  (forall k p, nth_error q k = Some p ->
               o_write o (n_write c + k) = len p + 16 /\ 0 <= len p) ->
  let R := service_queue o q v c wd tr in
  fst (fst R) = wd /\
  writes_of (snd R) = writes_of tr ++ map encode_frame q /\
  current_ssl_pkt (snd (fst R)) = None /\
  outgoing_queue (snd (fst R)) = [] /\
  (forall x, In x (snd R) -> In x tr \/ x <> Reconnect) /\
  quit_reason (snd (fst R)) = quit_reason v.
Proof.
  induction q as [|this q IH]; intros v c wd tr D Q A R; subst R; simpl;
    rewrite D.
  - simpl. rewrite app_nil_r. repeat split; try assumption. intros x Hx. left. exact Hx.
  - destruct (A 0%nat this eq_refl) as [A0 L0]. rewrite Nat.add_0_r in A0.
    rewrite handle_outgoing_complete by assumption.
    match goal with
    | |- context [service_queue o q ?v1 ?c1 wd ?tr1] =>
        destruct (IH v1 c1 wd tr1) as (I1 & I2 & I3 & I4 & I5 & I6);
        [exact D|reflexivity| |]
    end.
    { intros k p Hk. simpl n_write.
      replace (S (n_write c) + k)%nat with (n_write c + S k)%nat by lia.
      apply A. exact Hk. }
    rewrite writes_of_app in I2. simpl in I2. rewrite <- app_assoc in I2.
    simpl in I6. repeat split; try assumption.
    intros x Hx. apply I5 in Hx. destruct Hx as [Hx|Hx]; [|right; exact Hx].
    apply in_app_or in Hx. destruct Hx as [Hx|Hx]; [left; exact Hx|right].
    simpl in Hx. destruct Hx as [<-|[<-|[]]]; discriminate.
Qed.

(** X7.  When the transport takes everything, the queue is drained in
    order: in a wake-up that gets past its read loop, with the parallel
    channel not connected and every write returning the full length, the
    writes are the frames of the packet in the slot and of every queued
    packet, first in first out, one write each; afterwards the slot is
    free and the queue empty, no reconnect was made and the quit reason is
    as it was. *)
Theorem queue_drained_in_order o reads v :
  reaches_write_phase o reads v = true ->
  is_dtls_connected (dtls_state v) = false ->
  slot_framed v ->
  all_accepted o (pending v) ->
  let '(r, v', tr) := gpst_mainloop o reads v in
  writes_of tr = map encode_frame (pending v) /\
  pending v' = [] /\
  ~ In Reconnect tr.
Proof.
  intros Y D F A. destruct (gpst_mainloop o reads v) as [[r v'] tr] eqn:R.
  apply gpst_mainloop_cases in R.
  destruct R as [(N & _)|(_ & v1 & c1 & wd & W & C & Q & D1 & _ & NW & _)];
    [congruence|].
  rewrite <- D1 in D. unfold write_phase in W. unfold pending in A |- * at 1.
  rewrite C in W. destruct (current_ssl_pkt v) as [p|] eqn:Sl.
  - destruct (A 0%nat p eq_refl) as [A0 L0]. rewrite <- NW in A0.
    rewrite handle_outgoing_complete in W by assumption.
    match type of W with
    | service_queue o ?q1 ?v2 ?c2 wd ?tr2 = _ =>
        destruct (service_queue_drains o q1 v2 c2 wd tr2)
          as (I1 & I2 & I3 & I4 & I5 & I6);
        [exact D|reflexivity| |]
    end.
    { intros k p' Hk. simpl in Hk. simpl n_write. rewrite NW.
      apply (A (S k) p'). simpl. rewrite <- Q. exact Hk. }
    rewrite W in I2, I3, I4, I5. simpl in I2, I3, I4, I5.
    split; [|split].
    + rewrite I2. simpl. rewrite Q. f_equal. unfold encode_frame.
      rewrite (F p Sl). reflexivity.
    + unfold pending. rewrite I3, I4. reflexivity.
    + intros Hr. apply I5 in Hr. destruct Hr as [Hr|Hr]; [|congruence].
      simpl in Hr. destruct Hr as [Hr|[Hr|[]]]; discriminate.
  - destruct (service_queue_drains o (outgoing_queue v1) v1 c1 wd [])
      as (I1 & I2 & I3 & I4 & I5 & I6); [exact D|reflexivity| |].
    { intros k p' Hk. rewrite NW. simpl. apply (A k p'). rewrite <- Q. exact Hk. }
    rewrite W in I2, I3, I4, I5. simpl in I2, I3, I4, I5.
    split; [|split].
    + rewrite I2, Q. reflexivity.
    + unfold pending. rewrite I3, I4. reflexivity.
    + intros Hr. apply I5 in Hr. destruct Hr as [[]|Hr]. congruence.
Qed.

Lemma queue_drained_in_order_witness :
  let v := set_outgoing_queue idle [pkt_of payload3; pkt_of payload3] in
  reaches_write_phase (steady 7 19) [] v = true /\
  is_dtls_connected (dtls_state v) = false /\
  slot_framed v /\
  all_accepted (steady 7 19) (pending v) /\
  let '(r, v', tr) := gpst_mainloop (steady 7 19) [] v in
  writes_of tr = map encode_frame (pending v) /\
  pending v' = [] /\
  ~ In Reconnect tr.
Proof.
  intros v.
  assert (Y : reaches_write_phase (steady 7 19) [] v = true) by reflexivity.
  assert (D : is_dtls_connected (dtls_state v) = false) by reflexivity.
  assert (F : slot_framed v) by (intros p Hp; discriminate Hp).
  assert (A : all_accepted (steady 7 19) (pending v)).
  { intros k p Hp. destruct k as [|[|k]]; simpl in Hp.
    - injection Hp as <-. simpl. lia.
    - injection Hp as <-. simpl. lia.
    - destruct k; discriminate Hp. }
  repeat (split; [assumption|]).
  exact (queue_drained_in_order (steady 7 19) [] v Y D F A).
Defined.

(** ** What a return value of 0 means *)

Lemma do_reconnect_nonzero o v tr : fst (fst (do_reconnect o v tr)) <> 0.
Proof.
  unfold do_reconnect. destruct (o_reconnect o) as [ret fd].
  destruct (Z.eqb_spec ret 0); simpl; lia.
Qed.

Lemma read_loop_exits o reads : forall v c wd0,
  match read_loop o reads v c wd0 with
  | ReadBreak v1 _ wd =>
      quit_reason v1 = quit_reason v /\
      ((wd = wd0 /\ incoming_queue v1 = incoming_queue v) \/ wd = 1)
  | ReadReconnect _ _ => True
  | ReadReturn ret _ _ => ret = 1
  end.
Proof.
  induction reads as [|r reads IH]; intros v c wd0; simpl read_loop;
    destruct (ensure_cstp_pkt o v c) as [[p|] c1];
    try (split; [reflexivity|left; split; reflexivity]).
  destruct r as [errno|bytes]; [exact I|].
  destruct (Z.of_nat (List.length (delivered bytes)) =? 0);
    [split; [reflexivity|left; split; reflexivity]|].
  destruct (recv_frame p (delivered bytes)) as [[]|[et q]]; try reflexivity.
  match goal with
  | |- context [read_loop o reads ?v1 ?c2 1] => specialize (IH v1 c2 1)
  end.
  destruct (read_loop o reads _ _ 1) as [v2 c2 wd|v2 c2|ret v2 c2];
    [|exact I|exact IH].
  destruct IH as [Q [[W _]|W]]; (split; [exact Q|right; exact W]).
Qed.

Lemma handle_outgoing_quiet o p v c wd tr v' tr' :
  handle_outgoing o p v c wd tr = WriteReturn (0, v', tr') ->
  wd = 0 /\
  tr' = tr ++ [UnmonitorWriteFd; NonblockWrite (wire_bytes p)] /\
  quit_reason v' = quit_reason v /\ ssl_fd v' = ssl_fd v.
Proof.
  unfold handle_outgoing.
  destruct (o_write o (n_write c) <? 0).
  - intros H. exfalso.
    apply (do_reconnect_nonzero o (set_last_tx v (o_time o (n_time c)))
             (tr ++ [UnmonitorWriteFd; NonblockWrite (wire_bytes p)])).
    injection H as H. rewrite H. reflexivity.
  - destruct (o_write o (n_write c) =? 0).
    + intros H. injection H as -> <- <-. repeat split.
    + destruct (negb (o_write o (n_write c) =? len p + 16)); discriminate.
Qed.

Lemma service_queue_quiet o q : forall v c wd tr v' tr',
  ~ In Reconnect tr ->
  service_queue o q v c wd tr = (0, v', tr') ->
  wd = 0 /\ ~ In Reconnect tr' /\
  quit_reason v' = quit_reason v /\ ssl_fd v' = ssl_fd v.
Proof.
  induction q as [|this q IH]; intros v c wd tr v' tr' N H; simpl in H.
  - destruct (is_dtls_connected (dtls_state v)); injection H as -> <- <-;
      repeat split; assumption.
  - destruct (is_dtls_connected (dtls_state v)).
    { injection H as -> <- <-. repeat split; assumption. }
    destruct (handle_outgoing o (store_header this)
                (set_current_ssl_pkt (set_outgoing_queue v q)
                                     (Some (store_header this)))
                c wd tr) as [v1 c1 tr1|[[r1 v1] tr1]] eqn:E.
    + apply handle_outgoing_done in E. destruct E as (_ & _ & -> & -> & ->).
      apply IH in H.
      * simpl in H. exact H.
      * intros Hr. apply in_app_or in Hr. destruct Hr as [Hr|Hr]; [exact (N Hr)|].
        simpl in Hr. destruct Hr as [Hr|[Hr|[]]]; discriminate.
    + injection H as -> -> ->. apply handle_outgoing_quiet in E.
      destruct E as (W & -> & Q & S1). simpl in Q, S1.
      repeat split; try assumption.
      intros Hr. apply in_app_or in Hr. destruct Hr as [Hr|Hr]; [exact (N Hr)|].
      simpl in Hr. destruct Hr as [Hr|[Hr|[]]]; discriminate.
Qed.

Lemma write_phase_quiet o v c wd v' tr' :
  write_phase o v c wd = (0, v', tr') ->
  wd = 0 /\ ~ In Reconnect tr' /\
  quit_reason v' = quit_reason v /\ ssl_fd v' = ssl_fd v.
Proof.
  unfold write_phase. intros H. destruct (current_ssl_pkt v) as [p|].
  - destruct (handle_outgoing o p v c wd []) as [v1 c1 tr1|[[r1 v1] tr1]] eqn:E.
    + apply handle_outgoing_done in E. destruct E as (_ & _ & -> & -> & ->).
      apply service_queue_quiet in H.
      * simpl in H. exact H.
      * simpl. intros [Hr|[Hr|[]]]; discriminate.
    + injection H as -> -> ->. apply handle_outgoing_quiet in E.
      destruct E as (W & -> & Q & S1). repeat split; try assumption.
      simpl. intros [Hr|[Hr|[]]]; discriminate.
  - apply service_queue_quiet in H; [exact H|]. intros [].
Qed.

(** X8.  A wake-up that returns 0 has left the session alone: it made no
    reconnect, set no quit reason, kept the transport descriptor, and
    received no packet; so every wake-up that queues a packet, reconnects
    or ends the session returns a non-zero value.  Packets may have been
    written all the same: getting rid of queued packets does not count as
    work. *)
Theorem return_zero_means_quiet o reads v :
  fst (fst (gpst_mainloop o reads v)) = 0 ->
  let '(r, v', tr) := gpst_mainloop o reads v in
  ~ In Reconnect tr /\
  quit_reason v' = quit_reason v /\
  ssl_fd v' = ssl_fd v /\
  incoming_queue v' = incoming_queue v.
Proof.
  unfold gpst_mainloop.
  destruct (ssl_fd v =? -1).
  { intros H. exfalso. exact (do_reconnect_nonzero o v [] H). }
  pose proof (read_loop_exits o reads v (mk_calls 0 0 0) 0) as X.
  pose proof (read_loop_frame o reads v (mk_calls 0 0 0) 0) as F. simpl in F.
  destruct (read_loop o reads v (mk_calls 0 0 0) 0) as [v1 c1 wd|v1 c1|ret v1 c1];
    simpl in F.
  - intros H. destruct (write_phase o v1 c1 wd) as [[r v'] tr] eqn:W.
    simpl in H. subst r.
    pose proof (write_phase_rx o v1 c1 wd) as [RX _]. rewrite W in RX. simpl in RX.
    apply write_phase_quiet in W. destruct W as (W0 & N & Q & S1).
    destruct X as [XQ [[_ XI]|X1]]; [|lia].
    destruct F as (_ & _ & _ & _ & F5 & _).
    repeat split; congruence.
  - intros H. exfalso. exact (do_reconnect_nonzero o v1 [] H).
  - simpl. intros H. lia.
Qed.

Lemma return_zero_means_quiet_witness :
  let v := set_outgoing_queue idle [pkt_of payload3] in
  fst (fst (gpst_mainloop (steady 7 19) [] v)) = 0 /\
  let '(r, v', tr) := gpst_mainloop (steady 7 19) [] v in
  ~ In Reconnect tr /\
  quit_reason v' = quit_reason v /\
  ssl_fd v' = ssl_fd v /\
  incoming_queue v' = incoming_queue v.
Proof.
  intros v.
  assert (Z0 : fst (fst (gpst_mainloop (steady 7 19) [] v)) = 0) by reflexivity.
  split; [exact Z0|].
  exact (return_zero_means_quiet (steady 7 19) [] v Z0).
Defined.

(** X9.  With the parallel channel connected and the slot free, the
    primary transport carries nothing: the wake-up makes no write, takes
    nothing from the outgoing queue and leaves the slot free, whatever it
    reads. *)
Theorem dtls_connected_sends_nothing o reads v :
  current_ssl_pkt v = None ->
  dtls_state v = DTLS_CONNECTED ->
  let '(r, v', tr) := gpst_mainloop o reads v in
  writes_of tr = [] /\
  outgoing_queue v' = outgoing_queue v /\
  current_ssl_pkt v' = None.
Proof.
  intros Sl D. destruct (gpst_mainloop o reads v) as [[r v'] tr] eqn:R.
  apply gpst_mainloop_cases in R.
  destruct R as [(_ & W & C & _ & Q)|(_ & v1 & c1 & wd & W & C & Q & D1 & _)].
  - repeat split; congruence.
  - unfold write_phase in W. rewrite C, Sl in W.
    rewrite service_queue_dtls in W by (rewrite D1, D; reflexivity).
    injection W as <- <- <-. repeat split; congruence.
Qed.

Lemma dtls_connected_sends_nothing_witness :
  let v := mk_info None [] (mk_ip_info None None 0) 3 None None
                   [] [pkt_of payload3] DTLS_CONNECTED 0 0 None in
  current_ssl_pkt v = None /\
  dtls_state v = DTLS_CONNECTED /\
  let '(r, v', tr) := gpst_mainloop (steady 7 19) [] v in
  writes_of tr = [] /\
  outgoing_queue v' = outgoing_queue v /\
  current_ssl_pkt v' = None.
Proof.
  intros v. split; [reflexivity|]. split; [reflexivity|].
  exact (dtls_connected_sends_nothing (steady 7 19) [] v eq_refl eq_refl).
Defined.

(** ** The exits of [gpst_connect] *)

(** The calls made up to and including the read of the response. *)
Lemma tunnel_handshake_shape e v s :
  let '(res, v', tr) := tunnel_handshake e v s in
  let sent := [DisableIPv6; OpenHttps;
               SslWrite (request_line s (urlencode e)); SslRead 256] in
  (open_https e <> 0 /\ res = Failed (TransportError (open_https e)) /\
   v' = v /\ tr = [DisableIPv6; OpenHttps]) \/
  (open_https e = 0 /\
   exists errno, ssl_read e = SslReadFail errno /\
     (res = Failed ReadInterrupted \/ res = Failed ReadFailed) /\
     v' = set_ssl_fd v (open_fd e) /\ tr = sent) \/
  (open_https e = 0 /\
   exists text, ssl_read e = SslReadText text /\
     res = dispatch_response (buf_after_read (stack_buf e) (substring 0 256 text))
                             (Z.of_nat (String.length (substring 0 256 text))) /\
     ((res = Established /\
       v' = set_ip_info (set_ssl_fd v (open_fd e))
                        (mk_ip_info (Some (s_ipaddr s))
                                    (Some "255.255.255.255"%string) (s_mtu s)) /\
       tr = sent ++ [MonitorFdNew; MonitorReadFd; MonitorExceptFd]) \/
      ((res = Failed GatewayHttpError \/ res = Failed PeerClosed \/
        res = Failed UnexpectedResponse) /\
       v' = close_https (set_ssl_fd v (open_fd e)) /\
       tr = sent ++ [CloseHttps]))).
Proof.
  unfold tunnel_handshake.
  destruct (Z.eqb_spec (open_https e) 0) as [O|O]; cbn [negb].
  2:{ left. repeat split. exact O. }
  destruct (ssl_read e) as [errno|text].
  - destruct (- Z.pos errno =? - EINTR); right; left;
      (split; [exact O|]); exists errno; repeat split; auto.
  - cbv zeta.
    remember (dispatch_response _ _) as r eqn:R.
    assert (r = Established \/ r = Failed GatewayHttpError \/
            r = Failed PeerClosed \/ r = Failed UnexpectedResponse) as D.
    { rewrite R. unfold dispatch_response.
      repeat match goal with |- context [if ?c then _ else _] => destruct c end;
        tauto. }
    destruct D as [-> |[-> |[-> | ->]]];
      cbn [retcode Z.ltb Z.compare EINVAL EPIPE Z.opp];
      right; right; (split; [exact O|]); exists text;
      (split; [reflexivity|]); (split; [exact R|]);
      [left; repeat split|right; repeat split; auto..].
Qed.

Lemma gpst_connect_shape e v :
  let '(res, v', tr) := gpst_connect e v in
  ((res = Failed MalformedCookie \/ res = Failed MissingCredentials) /\
   v' = set_cookies v (snd (populate_cookies v)) /\ tr = []) \/
  (exists s, (res, v', tr)
             = tunnel_handshake e (set_cookies v (snd (populate_cookies v))) s).
Proof.
  unfold gpst_connect. destruct (populate_cookies v) as [ret cs]. simpl snd.
  destruct (negb (ret =? 0)).
  - left. repeat split. left. reflexivity.
  - destruct (session_of (scan_cookies cs)) as [s|].
    + destruct (tunnel_handshake e (set_cookies v cs) s) as [[a b] c] eqn:T.
      right. exists s. symmetry. exact T.
    + left. repeat split. right. reflexivity.
Qed.


(** X11.  The return value tells success from failure: [gpst_connect]
    returns 0 exactly when the tunnel is established; a failure to open
    the transport is passed on with the non-zero value that
    [openconnect_open_https] returned, and every other failure returns a
    negative errno ([-EINVAL], [-EINTR] or [-EPIPE]). *)
Theorem return_zero_iff_established e v :
  let res := fst (fst (gpst_connect e v)) in
  (retcode res = 0 <-> res = Established) /\
  (forall r, res = Failed (TransportError r) -> r = open_https e /\ r <> 0) /\
  ((forall r, res <> Failed (TransportError r)) -> res <> Established ->
   retcode res = - EINVAL \/ retcode res = - EINTR \/ retcode res = - EPIPE).
Proof.
  pose proof (gpst_connect_shape e v) as G.
  destruct (gpst_connect e v) as [[res v'] tr]. simpl fst.
  destruct G as [([-> | ->] & _ & _)|(s & E)].
  - repeat split; try discriminate. intros _ _. left. reflexivity.
  - repeat split; try discriminate. intros _ _. left. reflexivity.
  - pose proof (tunnel_handshake_shape e (set_cookies v (snd (populate_cookies v))) s) as T.
    rewrite <- E in T. cbv zeta in T.
    destruct T as [(O & -> & _ & _)
                  |[(_ & errno & _ & [-> | ->] & _ & _)
                   |(_ & text & _ & _ & [(-> & _ & _)|([-> |[-> | ->]] & _ & _)])]];
      repeat split; try discriminate; try reflexivity;
      try (injection H as <-; first [reflexivity | exact O]);
      try (simpl; intros H; contradiction);
      try (intros H; exfalso; exact (H _ eq_refl));
      try (intros _ H; contradiction);
      try (intros _ _; simpl; unfold EINVAL, EINTR, EPIPE; tauto).
Qed.

(** ** The response of the gateway *)

Lemma nat_of_ascii_inj a b : nat_of_ascii a = nat_of_ascii b -> a = b.
Proof.
  intros H. rewrite <- (ascii_nat_embedding a), <- (ascii_nat_embedding b), H.
  reflexivity.
Qed.

(** Against a literal without a NUL, [strncmp] over the length of the
    literal is 0 exactly when the text begins with the literal. *)
Lemma strncmp_prefix lit :
  ~ In zero (list_ascii_of_string lit) ->
  forall s, strncmp s lit (String.length lit) = 0 <-> prefix lit s = true.
Proof.
  induction lit as [|a l IH]; intros NZ s.
  - split; intros _; [destruct s|]; reflexivity.
  - assert (a <> zero) as A by (intros ->; apply NZ; left; reflexivity).
    assert (~ In zero (list_ascii_of_string l)) as NZ'
      by (intros H; apply NZ; right; exact H).
    cbn [strncmp String.length prefix].
    destruct s as [|b r].
    + cbn [prefix].
      destruct (Ascii.eqb_spec zero a) as [E|E]; [congruence|]. cbn [negb].
      split; [|discriminate]. intros H. exfalso. apply E, nat_of_ascii_inj. lia.
    + cbn [prefix]. destruct (Ascii.eqb_spec b a) as [->|E]; cbn [negb].
      * destruct (Ascii.eqb_spec a zero) as [Z0|_]; [contradiction|].
        destruct (ascii_dec a a) as [_|N]; [|contradiction].
        apply IH. exact NZ'.
      * destruct (ascii_dec a b) as [->|_]; [contradiction|].
        split; [|discriminate]. intros H. exfalso. apply E, nat_of_ascii_inj. lia.
Qed.

Lemma prefix_app_long lit : forall got rest,
  (String.length lit <= String.length got)%nat ->
  prefix lit (got ++ rest) = prefix lit got.
Proof.
  induction lit as [|a l IH]; intros got rest L.
  - destruct got, rest; reflexivity.
  - destruct got as [|b g]; simpl in *; [lia|].
    destruct (ascii_dec a b); [|reflexivity]. apply IH. lia.
Qed.

Lemma prefix_substring lit : forall n s,
  (String.length lit <= n)%nat ->
  prefix lit (substring 0 n s) = prefix lit s.
Proof.
  induction lit as [|a l IH]; intros n s L; [destruct n, s; reflexivity|].
  simpl in L. destruct n as [|n]; [lia|].
  destruct s as [|b r]; [reflexivity|]. simpl.
  destruct (ascii_dec a b); [|reflexivity]. apply IH. lia.
Qed.

Lemma length_substring_0 : forall s n,
  String.length (substring 0 n s) = Nat.min n (String.length s).
Proof.
  induction s as [|c r IH]; intros [|n]; simpl; try reflexivity.
  rewrite IH. reflexivity.
Qed.

(** When at least [length lit] characters were read, the comparison with
    [lit] sees received characters only. *)
Lemma response_prefix stack text lit :
  ~ In zero (list_ascii_of_string lit) ->
  (String.length lit <= 256)%nat ->
  (String.length lit <= String.length text)%nat ->
  (strncmp (buf_after_read stack (substring 0 256 text)) lit (String.length lit) =? 0)
  = prefix lit text.
Proof.
  intros NZ L1 L2. unfold buf_after_read.
  pose proof (strncmp_prefix lit NZ
                (substring 0 256 text ++
                 substring (String.length (substring 0 256 text))
                           (256 - String.length (substring 0 256 text)) stack)) as P.
  rewrite prefix_app_long, prefix_substring in P by
    (rewrite ?length_substring_0; lia).
  destruct (prefix lit text).
  - apply Z.eqb_eq, P. reflexivity.
  - apply Z.eqb_neq. intros H. apply P in H. discriminate.
Qed.

Lemma read_reached e v :
  let '(res, v', tr) := gpst_connect e v in
  In (SslRead 256) tr ->
  open_https e = 0 /\
  exists s, (res, v', tr)
            = tunnel_handshake e (set_cookies v (snd (populate_cookies v))) s.
Proof.
  pose proof (gpst_connect_shape e v) as G.
  destruct (gpst_connect e v) as [[res v'] tr].
  destruct G as [(_ & _ & ->)|(s & E)]; intros I; [contradiction|].
  split; [|exists s; exact E].
  pose proof (tunnel_handshake_shape e (set_cookies v (snd (populate_cookies v))) s) as T.
  rewrite <- E in T. cbv zeta in T.
  destruct T as [(_ & _ & _ & ->)|[(O & _)|(O & _)]]; try exact O.
  simpl in I. destruct I as [I|[I|[]]]; discriminate.
Qed.

(** X12.  A response of at least twelve characters is judged on what was
    received, whatever the array [buf] held before the read: each time
    [gpst_connect] reads such a response, the tunnel is established if
    the response begins with START_TUNNEL, the gateway's error is
    reported if it begins with HTTP/, and any other text is an
    unexpected response. *)
Theorem full_response_decides e v text :
  ssl_read e = SslReadText text ->
  (12 <= String.length text)%nat ->
  In (SslRead 256) (snd (gpst_connect e v)) ->
  fst (fst (gpst_connect e v))
  = if prefix "START_TUNNEL" text then Established
    else if prefix "HTTP/" text then Failed GatewayHttpError
    else Failed UnexpectedResponse.
Proof.
  intros R L.
  pose proof (read_reached e v) as G.
  destruct (gpst_connect e v) as [[res v'] tr]. simpl fst. simpl snd. intros I.
  destruct (G I) as (O & s & E).
  unfold tunnel_handshake in E. rewrite O, R in E. cbn [Z.eqb negb] in E.
  cbv zeta in E.
  assert (res = dispatch_response
                  (buf_after_read (stack_buf e) (substring 0 256 text))
                  (Z.of_nat (String.length (substring 0 256 text)))) as D.
  { destruct (retcode _ <? 0) in E; injection E as -> _ _; reflexivity. }
  rewrite D. unfold dispatch_response.
  assert (12 <= 256)%nat as L256 by lia.
  pose proof (response_prefix (stack_buf e) text "START_TUNNEL") as P1.
  pose proof (response_prefix (stack_buf e) text "HTTP/") as P2.
  change (String.length "START_TUNNEL") with 12%nat in P1.
  change (String.length "HTTP/") with 5%nat in P2.
  rewrite P1, P2;
    try lia;
    try (simpl; intuition discriminate).
  destruct (prefix "START_TUNNEL" text); [reflexivity|].
  destruct (prefix "HTTP/" text); [reflexivity|].
  rewrite length_substring_0.
  destruct (Z.eqb_spec (Z.of_nat (Nat.min 256 (String.length text))) 0); [lia|].
  reflexivity.
Qed.

Lemma full_response_decides_witness :
  let e := handshake (SslReadText "START_TUNNEL and more") "HTTP/1.1 502" in
  let v := logged_in "USER=u; AUTH=a" in
  ssl_read e = SslReadText "START_TUNNEL and more" /\
  (12 <= String.length "START_TUNNEL and more")%nat /\
  In (SslRead 256) (snd (gpst_connect e v)) /\
  fst (fst (gpst_connect e v)) = Established.
Proof.
  intros e v.
  assert (R : ssl_read e = SslReadText "START_TUNNEL and more") by reflexivity.
  assert (L : (12 <= String.length "START_TUNNEL and more")%nat) by (simpl; lia).
  assert (I : In (SslRead 256) (snd (gpst_connect e v))).
  { vm_compute. right. right. right. left. reflexivity. }
  repeat (split; [assumption|]).
  exact (full_response_decides e v "START_TUNNEL and more" R L I).
Defined.

(** ** What [gpst_connect] leaves behind *)

(** X13.  [openconnect_close_https] is called exactly when a response
    was read and turned down (the gateway's error, a closed connection
    or an unexpected text), and the descriptor is handed to the event
    loop exactly when the tunnel is established, never both; on success
    the three monitor calls are the last calls made. *)
Theorem close_or_register e v :
  let '(res, v', tr) := gpst_connect e v in
  (In CloseHttps tr <->
   res = Failed GatewayHttpError \/ res = Failed PeerClosed \/
   res = Failed UnexpectedResponse) /\
  (In MonitorFdNew tr <-> res = Established) /\
  (In CloseHttps tr -> ~ In MonitorFdNew tr) /\
  (res = Established ->
   exists before, tr = before ++ [MonitorFdNew; MonitorReadFd; MonitorExceptFd]).
Proof.
  pose proof (gpst_connect_shape e v) as G.
  destruct (gpst_connect e v) as [[res v'] tr].
  destruct G as [([-> | ->] & _ & ->)|(s & E)].
  - simpl; intuition discriminate.
  - simpl; intuition discriminate.
  - pose proof (tunnel_handshake_shape e (set_cookies v (snd (populate_cookies v))) s) as T.
    rewrite <- E in T. cbv zeta in T.
    destruct T as [(_ & -> & _ & ->)
                  |[(_ & errno & _ & [-> | ->] & _ & ->)
                   |(_ & text & _ & _ & [(-> & -> & ->)|([-> |[-> | ->]] & -> & ->)])]];
      (split; [split; simpl; try (intuition discriminate); auto|]);
      (split; [split; simpl; try (intuition discriminate); auto|]);
      (split; [simpl; try (intuition discriminate)|]);
      try discriminate;
      intros _; eexists; reflexivity.
Qed.

(** X14.  [gpst_connect] leaves the traffic state alone.  The queues,
    the packet in flight, the receive packet, the state of the parallel
    channel, both time stamps and the quit reason are as before; the
    tunnel parameters in [ip_info] change only when the tunnel is
    established, so a failed connect keeps the old ones.  (What is left
    out is what the function works on: the cookie store, the descriptor,
    and the cookie text, which [parse_cookie] cuts while it reads it.) *)
Theorem connect_keeps_the_rest e v :
  let '(res, v', tr) := gpst_connect e v in
  cstp_pkt v' = cstp_pkt v /\
  current_ssl_pkt v' = current_ssl_pkt v /\
  incoming_queue v' = incoming_queue v /\
  outgoing_queue v' = outgoing_queue v /\
  dtls_state v' = dtls_state v /\
  last_rx v' = last_rx v /\
  last_tx v' = last_tx v /\
  quit_reason v' = quit_reason v /\
  (res <> Established -> ip_info v' = ip_info v).
Proof.
  pose proof (gpst_connect_shape e v) as G.
  destruct (gpst_connect e v) as [[res v'] tr].
  destruct G as [([-> | ->] & -> & _)|(s & E)].
  - repeat split; discriminate.
  - repeat split; discriminate.
  - pose proof (tunnel_handshake_shape e (set_cookies v (snd (populate_cookies v))) s) as T.
    rewrite <- E in T. cbv zeta in T.
    destruct T as [(_ & -> & -> & _)
                  |[(_ & errno & _ & [-> | ->] & -> & _)
                   |(_ & text & _ & _ & [(-> & -> & _)|([-> |[-> | ->]] & -> & _)])]];
      repeat split; try discriminate;
      intros N; exfalso; exact (N eq_refl).
Qed.

(** X15.  Cookies that the store already holds are used as they are:
    with a store that is not empty the cookie text is not parsed, so the
    outcome and the calls of [gpst_connect] depend on the store alone
    and the store is left as it was, whatever the text says. *)
Theorem stored_cookies_are_kept e v w :
  cookies v <> [] ->
  cookies w = cookies v ->
  fst (fst (gpst_connect e w)) = fst (fst (gpst_connect e v)) /\
  snd (gpst_connect e w) = snd (gpst_connect e v) /\
  cookies (snd (fst (gpst_connect e v))) = cookies v.
Proof.
  intros N C.
  assert (forall u, cookies u = cookies v -> populate_cookies u = (0, cookies v)) as P.
  { intros u U. unfold populate_cookies. rewrite U.
    destruct (cookies v); [contradiction|reflexivity]. }
  unfold gpst_connect. rewrite (P v eq_refl), (P w C). cbn [Z.eqb negb].
  destruct (session_of (scan_cookies (cookies v))) as [s|]; [|repeat split].
  unfold tunnel_handshake.
  destruct (negb (open_https e =? 0)); [repeat split|].
  destruct (ssl_read e) as [errno|text].
  - destruct (- Z.pos errno =? - EINTR); repeat split.
  - cbv zeta. destruct (dispatch_response _ _) as [|err];
      [|destruct err]; cbn [retcode];
      repeat match goal with
             | |- context [if ?c then _ else _] => destruct c
             end; repeat split.
Qed.

Lemma stored_cookies_are_kept_witness :
  let store := [("USER", "u"); ("AUTH", "a")]%string in
  let v := set_cookies (logged_in "no cookie at all") store in
  let w := set_cookies (logged_in "USER=x; AUTH=y") store in
  let e := handshake (SslReadText "START_TUNNEL") "" in
  cookies v <> [] /\
  cookies w = cookies v /\
  fst (fst (gpst_connect e w)) = fst (fst (gpst_connect e v)) /\
  snd (gpst_connect e w) = snd (gpst_connect e v) /\
  cookies (snd (fst (gpst_connect e v))) = cookies v.
Proof.
  intros store v w e.
  assert (N : cookies v <> []) by discriminate.
  assert (C : cookies w = cookies v) by reflexivity.
  repeat (split; [assumption|]).
  exact (stored_cookies_are_kept e v w N C).
Defined.

(** ** The ways out of a wake-up *)

Lemma not_in_snoc (tr : list call) (x y : call) :
  ~ In Reconnect tr -> x <> Reconnect -> y <> Reconnect ->
  ~ In Reconnect (tr ++ [x; y]).
Proof.
  intros N X Y H. apply in_app_or in H. destruct H as [H|H]; [exact (N H)|].
  simpl in H. destruct H as [H|[H|[]]]; congruence.
Qed.

Lemma do_reconnect_exit o v0 v tr :
  ~ In Reconnect tr ->
  quit_reason v = quit_reason v0 ->
  reconnect_exit o v0 (do_reconnect o v tr).
Proof.
  intros N Q. unfold do_reconnect, reconnect_exit.
  destruct (o_reconnect o) as [ret fd]. simpl fst. simpl snd.
  destruct (Z.eqb_spec ret 0) as [E|E]; cbn [negb].
  - split; [exists tr; split; [reflexivity|exact N]|].
    split; [reflexivity|]. left. repeat split; assumption.
  - split; [exists tr; split; [reflexivity|exact N]|].
    split; [reflexivity|]. right. repeat split. exact E.
Qed.

Lemma handle_outgoing_exit o p v0 v c wd tr :
  ~ In Reconnect tr ->
  ssl_fd v = ssl_fd v0 ->
  quit_reason v = quit_reason v0 ->
  match handle_outgoing o p v c wd tr with
  | WriteDone v' _ tr' =>
      ~ In Reconnect tr' /\ ssl_fd v' = ssl_fd v0 /\
      quit_reason v' = quit_reason v0
  | WriteReturn res => reconnect_exit o v0 res \/ plain_exit v0 res
  end.
Proof.
  intros N F Q. unfold handle_outgoing.
  assert (~ In Reconnect (tr ++ [UnmonitorWriteFd; NonblockWrite (wire_bytes p)]))
    as N' by (apply not_in_snoc; [exact N|discriminate|discriminate]).
  destruct (o_write o (n_write c) <? 0).
  - left. apply do_reconnect_exit; assumption.
  - destruct (o_write o (n_write c) =? 0).
    + right. repeat split; try assumption. left. exact Q.
    + destruct (negb (o_write o (n_write c) =? len p + 16)).
      * right. repeat split; try assumption. right. split; [reflexivity|].
        right. right. reflexivity.
      * repeat split; assumption.
Qed.

Lemma service_queue_exit o v0 q : forall v c wd tr,
  ~ In Reconnect tr ->
  ssl_fd v = ssl_fd v0 ->
  quit_reason v = quit_reason v0 ->
  reconnect_exit o v0 (service_queue o q v c wd tr) \/
  plain_exit v0 (service_queue o q v c wd tr).
Proof.
  induction q as [|this q IH]; intros v c wd tr N F Q; simpl;
    destruct (is_dtls_connected (dtls_state v));
    try (right; repeat split; try assumption; left; exact Q).
  pose proof (handle_outgoing_exit o (store_header this) v0
                (set_current_ssl_pkt (set_outgoing_queue v q)
                                     (Some (store_header this)))
                c wd tr N F Q) as H.
  destruct (handle_outgoing o (store_header this) _ c wd tr)
    as [v1 c1 tr1|res]; [|exact H].
  destruct H as (N1 & F1 & Q1). apply IH; assumption.
Qed.

Lemma write_phase_exit o v0 v c wd :
  ssl_fd v = ssl_fd v0 ->
  quit_reason v = quit_reason v0 ->
  reconnect_exit o v0 (write_phase o v c wd) \/
  plain_exit v0 (write_phase o v c wd).
Proof.
  intros F Q. unfold write_phase.
  assert (~ In Reconnect []) as N by (intros []).
  destruct (current_ssl_pkt v) as [p|];
    [|apply service_queue_exit; assumption].
  pose proof (handle_outgoing_exit o p v0 v c wd [] N F Q) as H.
  destruct (handle_outgoing o p v c wd []) as [v1 c1 tr1|res]; [|exact H].
  destruct H as (N1 & F1 & Q1). apply service_queue_exit; assumption.
Qed.

Lemma read_loop_exit o reads : forall v c wd,
  match read_loop o reads v c wd with
  | ReadBreak v1 _ _ => ssl_fd v1 = ssl_fd v /\ quit_reason v1 = quit_reason v
  | ReadReconnect v1 _ => quit_reason v1 = quit_reason v
  | ReadReturn r v1 _ =>
      r = 1 /\ ssl_fd v1 = ssl_fd v /\
      (quit_reason v1 = Some "Short packet received"%string \/
       quit_reason v1 = Some "Unknown packet received"%string)
  end.
Proof.
  induction reads as [|r reads IH]; intros v c wd; simpl read_loop;
    destruct (ensure_cstp_pkt o v c) as [[p|] c1];
    try (split; reflexivity).
  destruct r as [errno|bytes]; [reflexivity|].
  destruct (Z.of_nat (List.length (delivered bytes)) =? 0);
    [split; reflexivity|].
  destruct (recv_frame p (delivered bytes)) as [[]|[et q]];
    try (repeat split; (left; reflexivity) || (right; reflexivity)).
  match goal with
  | |- context [read_loop o reads ?v1 ?c2 1] => specialize (IH v1 c2 1)
  end.
  destruct (read_loop o reads _ _ 1) as [v2 c2 wd2|v2 c2|ret v2 c2];
    simpl in IH; exact IH.
Qed.

(** X16.  Every wake-up ends in one of two ways.  Either it went through
    a reconnect: then [ssl_reconnect] is its last call and is called
    once, [ssl_fd] is what the reconnect left, and the return value is 1
    after a reconnect that worked and the reconnect's own error, with
    the quit reason GPST reconnect failed, after one that did not.  Or
    it made no reconnect: then [ssl_fd] is unchanged, and the quit
    reason is unchanged unless the return value is 1 and the reason is a
    short packet, an unknown packet or a short write.  With the
    transport down ([ssl_fd] is -1) the reconnect is the only call. *)
Theorem wakeup_exits o reads v :
  (reconnect_exit o v (gpst_mainloop o reads v) \/
   plain_exit v (gpst_mainloop o reads v)) /\
  (ssl_fd v = -1 -> snd (gpst_mainloop o reads v) = [Reconnect]).
Proof.
  unfold gpst_mainloop.
  assert (~ In Reconnect []) as N by (intros []).
  destruct (Z.eqb_spec (ssl_fd v) (-1)) as [E|E].
  - split.
    + left. apply do_reconnect_exit; [exact N|reflexivity].
    + intros _. unfold do_reconnect. destruct (o_reconnect o) as [ret fd].
      destruct (negb (ret =? 0)); reflexivity.
  - split; [|intros F; contradiction].
    pose proof (read_loop_exit o reads v (mk_calls 0 0 0) 0) as R.
    destruct (read_loop o reads v (mk_calls 0 0 0) 0) as [v1 c1 wd|v1 c1|ret v1 c1].
    + destruct R as [F Q]. apply write_phase_exit; assumption.
    + left. apply do_reconnect_exit; [exact N|exact R].
    + right. destruct R as (-> & F & Q). split; [exact N|]. split; [exact F|].
      right. split; [reflexivity|]. tauto.
Qed.




(** ** Reading back a cookie text *)

Lemma append_empty (s : string) : (s ++ "")%string = s.
Proof. induction s as [|a s IH]; simpl; [reflexivity|rewrite IH; reflexivity]. Qed.

Lemma strchr_append a c : forall b,
  strchr a c = None ->
  strchr (a ++ b) c
  = match strchr b c with
    | Some (x, y) => Some ((a ++ x)%string, y)
    | None => None
    end.
Proof.
  induction a as [|h a IH]; intros b H; simpl in *.
  - destruct (strchr b c) as [[x y]|]; reflexivity.
  - destruct (Ascii.eqb h c); [discriminate|].
    destruct (strchr a c) as [[x y]|] eqn:E; [discriminate|].
    rewrite IH by reflexivity.
    destruct (strchr b c) as [[x y]|]; reflexivity.
Qed.

Lemma skip_space_name k x :
  skip_space k = k ->
  skip_space (k ++ String "=" x) = (k ++ String "=" x)%string.
Proof.
  destruct k as [|a r]; intros H; [reflexivity|]. simpl in *.
  destruct (isspace a); [|reflexivity].
  exfalso. pose proof (skip_space_length r) as L. rewrite H in L. simpl in L. lia.
Qed.

Lemma parse_cookie_loop_step p cs :
  p <> ""%string ->
  parse_cookie_loop p cs =
  match strchr p ";" with
  | None =>
      match strchr p "=" with
      | None => (- EINVAL, cs)
      | Some (name, value) => (0, http_add_cookie cs name value)
      end
  | Some (field, rest) =>
      match strchr field "=" with
      | None => (- EINVAL, cs)
      | Some (name, value) =>
          parse_cookie_loop (skip_space rest) (http_add_cookie cs name value)
      end
  end.
Proof.
  intros N. rewrite parse_cookie_loop_unfold.
  destruct p; [contradiction|reflexivity].
Qed.

Lemma cookie_text_starts k v rest :
  exists x, cookie_text ((k, v) :: rest) = (k ++ String "=" x)%string.
Proof. simpl. eexists. reflexivity. Qed.

(** X18.  A cookie text written as name=value pairs with [';'] and a
    space between them is read back pair by pair: [parse_cookie] returns
    0 and has called [http_add_cookie] once for each pair, in the order
    of the text, with the name and the value of the pair (a value may
    hold ['='] and white space). *)
Theorem cookie_text_round_trip (kvs : cookie_store) (cs : cookie_store) :
  Forall plain_pair kvs ->
  parse_cookie (Some (cookie_text kvs)) cs = (0, add_all kvs cs).
Proof.
  unfold parse_cookie. revert cs.
  induction kvs as [|[k v] rest IH]; intros cs F.
  - simpl. rewrite parse_cookie_loop_unfold. reflexivity.
  - inversion F as [|kv l (K1 & K2 & K3 & V) F']; subst. simpl in K1, K2, K3, V.
    rewrite parse_cookie_loop_step
      by (simpl; destruct k; discriminate).
    destruct rest as [|[k2 v2] rest].
    + simpl cookie_text. rewrite append_empty.
      rewrite (strchr_append k) by exact K1. simpl.
      rewrite V.
      rewrite (strchr_append k) by exact K2. simpl.
      rewrite append_empty. reflexivity.
    + change (cookie_text ((k, v) :: (k2, v2) :: rest))
        with (k ++ String "=" (v ++ String ";" (String " "
                (cookie_text ((k2, v2) :: rest)))))%string.
      assert (skip_space (cookie_text ((k2, v2) :: rest))
              = cookie_text ((k2, v2) :: rest)) as Sk.
      { inversion F' as [|kv l (L1 & L2 & L3 & L4) F'']; subst. simpl in L3.
        destruct (cookie_text_starts k2 v2 rest) as (x & X).
        rewrite X. apply skip_space_name. exact L3. }
      specialize (IH (http_add_cookie cs k v) F').
      remember (cookie_text ((k2, v2) :: rest)) as T eqn:ET.
      rewrite (strchr_append k) by exact K1. simpl.
      rewrite (strchr_append v) by exact V. simpl.
      rewrite (strchr_append k) by exact K2. simpl.
      rewrite !append_empty, Sk. exact IH.
Qed.

Lemma cookie_text_round_trip_witness :
  Forall plain_pair [("USER", "u"); ("AUTH", "a=b c"); ("MTU", "1400")]%string /\
  parse_cookie (Some "USER=u; AUTH=a=b c; MTU=1400"%string) []
  = (0, [("USER", "u"); ("AUTH", "a=b c"); ("MTU", "1400")]%string).
Proof.
  assert (F : Forall plain_pair
                [("USER", "u"); ("AUTH", "a=b c"); ("MTU", "1400")]%string)
    by (repeat constructor).
  split; [exact F|].
  exact (cookie_text_round_trip
           [("USER", "u"); ("AUTH", "a=b c"); ("MTU", "1400")]%string [] F).
Defined.

(** ** The hexadecimal dump *)

Lemma string_app_assoc (a b c : string) :
  ((a ++ b) ++ c)%string = (a ++ (b ++ c))%string.
Proof. induction a as [|x a IH]; simpl; [reflexivity|rewrite IH; reflexivity]. Qed.

Lemma string_length_app (a b : string) :
  String.length (a ++ b) = (String.length a + String.length b)%nat.
Proof. induction a as [|x a IH]; simpl; [reflexivity|rewrite IH; reflexivity]. Qed.

Lemma hex_bytes_snoc bs b :
  hex_bytes (bs ++ [b]) = (hex_bytes bs ++ " " ++ fmt_x 2 (u8 b))%string.
Proof.
  induction bs as [|x bs IH]; cbn [hex_bytes List.app].
  - rewrite append_empty. reflexivity.
  - rewrite IH. change (" " ++ ?s)%string with (String " " s).
    cbn [String.append]. rewrite !string_app_assoc. reflexivity.
Qed.

(** A line that is full does not change when bytes are added behind. *)
Lemma dump_line_stable (done more : list byte) (k : nat) :
  (16 * k + 16 <= List.length done)%nat ->
  dump_line (done ++ more) k = dump_line done k.
Proof.
  intros L. unfold dump_line. rewrite skipn_app, firstn_app, length_skipn.
  replace (16 - (List.length done - 16 * k))%nat with 0%nat by lia.
  rewrite firstn_O, app_nil_r. reflexivity.
Qed.

Lemma dump_lines_stable (done more : list byte) (q : nat) :
  (16 * q <= List.length done)%nat ->
  map (dump_line (done ++ more)) (seq 0 q) = map (dump_line done) (seq 0 q).
Proof.
  intros L. apply map_ext_in. intros k K. apply in_seq in K.
  apply dump_line_stable. lia.
Qed.

Lemma div16_facts m :
  (1 <= m)%nat ->
  ((Z.of_nat m mod 16 = 0)%Z ->
   (m = 16 * (m / 16) /\ m / 16 = S ((m - 1) / 16))%nat) /\
  ((Z.of_nat m mod 16 <> 0)%Z ->
   (m / 16 = (m - 1) / 16 /\ 16 * ((m - 1) / 16) <= m /\
    m - 16 * ((m - 1) / 16) <= 15)%nat) /\
  ((m + 15) / 16 = S ((m - 1) / 16))%nat.
Proof.
  intros M1.
  assert (Z.of_nat (m / 16) = Z.of_nat m / 16)%Z as A by apply Nat2Z.inj_div.
  assert (Z.of_nat ((m - 1) / 16) = (Z.of_nat m - 1) / 16)%Z as B
    by (rewrite Nat2Z.inj_div; f_equal; lia).
  assert (Z.of_nat ((m + 15) / 16) = (Z.of_nat m + 15) / 16)%Z as C
    by (rewrite Nat2Z.inj_div; f_equal; lia).
  remember (m / 16)%nat as a. remember ((m - 1) / 16)%nat as b.
  remember ((m + 15) / 16)%nat as c.
  clear Heqa Heqb Heqc.
  Z.div_mod_to_equations. lia.
Qed.

(** One round of the loop, [done] being the bytes dumped before it. *)
Lemma hexdump_round (done : list byte) (b : byte) :
  done <> [] ->
  let m := List.length done in
  let q := ((m - 1) / 16)%nat in
  let '(lb, out) :=
    if Z.of_nat m mod 16 =? 0
    then ((fmt_x 4 (Z.of_nat m) ++ ":")%string,
          if negb (Z.of_nat m =? 0)
          then map (dump_line done) (seq 0 q) ++ [dump_line done q]
          else map (dump_line done) (seq 0 q))
    else (dump_line done q, map (dump_line done) (seq 0 q)) in
  (lb ++ " " ++ fmt_x 2 (u8 b))%string = dump_line (done ++ [b]) (m / 16) /\
  out = map (dump_line (done ++ [b])) (seq 0 (m / 16)).
Proof.
  intros N. cbv zeta.
  remember (List.length done) as m eqn:Hm.
  remember ((m - 1) / 16)%nat as q eqn:Hq.
  assert (1 <= m)%nat as M1
    by (rewrite Hm; destruct done; [contradiction|simpl; lia]).
  destruct (Z.eqb_spec (Z.of_nat m mod 16) 0) as [E|E].
  - assert (m = 16 * (m / 16) /\ m / 16 = S q)%nat as [M Q]
      by (rewrite Hq; apply (div16_facts m M1); exact E).
    destruct (Z.eqb_spec (Z.of_nat m) 0) as [Z0|_]; [lia|]. cbn [negb].
    split.
    + unfold dump_line. rewrite <- M.
      replace (16 * Z.of_nat (m / 16)) with (Z.of_nat m) by lia.
      rewrite Hm, skipn_app, skipn_all, Nat.sub_diag. simpl skipn.
      simpl firstn. cbn [hex_bytes]. rewrite append_empty, string_app_assoc.
      reflexivity.
    + rewrite Q, seq_S, map_app. simpl map.
      rewrite dump_lines_stable by (rewrite <- Hm; lia).
      rewrite dump_line_stable by (rewrite <- Hm; lia). reflexivity.
  - assert (m / 16 = q /\ 16 * q <= m /\ m - 16 * q <= 15)%nat as (Q & Q1 & Q2)
      by (rewrite Hq; apply (div16_facts m M1); exact E).
    rewrite Q. split.
    + unfold dump_line. rewrite skipn_app.
      replace (16 * q - List.length done)%nat with 0%nat by (rewrite <- Hm; lia).
      simpl skipn.
      rewrite (firstn_all2 (skipn (16 * q) done))
        by (rewrite length_skipn, <- Hm; lia).
      rewrite firstn_all2
        by (rewrite length_app, length_skipn, <- Hm; simpl; lia).
      rewrite hex_bytes_snoc, !string_app_assoc. reflexivity.
    + rewrite dump_lines_stable by (rewrite <- Hm; lia). reflexivity.
Qed.

Lemma hexdump_loop_lines : forall rest done,
  done <> [] ->
  hexdump_loop rest (Z.of_nat (List.length done))
               (dump_line done ((List.length done - 1) / 16))
               (map (dump_line done) (seq 0 ((List.length done - 1) / 16)))
  = (dump_line (done ++ rest) ((List.length (done ++ rest) - 1) / 16),
     map (dump_line (done ++ rest))
         (seq 0 ((List.length (done ++ rest) - 1) / 16))).
Proof.
  induction rest as [|b rest IH]; intros done N.
  - rewrite app_nil_r. reflexivity.
  - cbn [hexdump_loop].
    pose proof (hexdump_round done b N) as R. cbv zeta in R.
    assert (done ++ [b] <> []) as N' by (destruct done; discriminate).
    specialize (IH (done ++ [b]) N').
    rewrite <- app_assoc in IH. simpl List.app in IH.
    replace (Z.of_nat (List.length (done ++ [b])))
      with (Z.of_nat (List.length done) + 1) in IH
      by (rewrite length_app; change (List.length [b]) with 1%nat; lia).
    replace ((List.length (done ++ [b]) - 1) / 16)%nat
      with (List.length done / 16)%nat in IH
      by (rewrite length_app; change (List.length [b]) with 1%nat;
          f_equal; lia).
    destruct (Z.of_nat (List.length done) mod 16 =? 0).
    + destruct (negb (Z.of_nat (List.length done) =? 0));
        destruct R as [R1 R2]; rewrite R1, R2; exact IH.
    + destruct R as [R1 R2]. rewrite R1, R2. exact IH.
Qed.

(** The dump of a buffer that is not empty, line by line. *)
Lemma buf_hexdump_shown stale b d :
  buf_hexdump stale (b :: d) (Z.of_nat (List.length (b :: d)))
  = map (dump_line (b :: d)) (seq 0 ((List.length (b :: d) + 15) / 16)).
Proof.
  unfold buf_hexdump. rewrite Nat2Z.id, firstn_all.
  cbn [hexdump_loop]. change (0 mod 16 =? 0) with true.
  change (negb (0 =? 0)) with false. cbv iota.
  assert ([b] <> []) as N by discriminate.
  pose proof (hexdump_loop_lines d [b] N) as H.
  change (List.length [b]) with 1%nat in H.
  change ((1 - 1) / 16)%nat with 0%nat in H.
  change (Z.of_nat 1) with (0 + 1) in H.
  change (map (dump_line [b]) (seq 0 0)) with (@nil string) in H.
  replace (dump_line [b] 0)
    with ((fmt_x 4 0 ++ ":") ++ " " ++ fmt_x 2 (u8 b))%string in H
    by (unfold dump_line; simpl skipn; simpl firstn; cbn [hex_bytes];
        rewrite append_empty, string_app_assoc; reflexivity).
  rewrite H. change ([b] ++ d) with (b :: d).
  replace ((List.length (b :: d) + 15) / 16)%nat
    with (S ((List.length (b :: d) - 1) / 16))
    by (symmetry; apply div16_facts; simpl; lia).
  rewrite seq_S, map_app. reflexivity.
Qed.

(** X19.  [buf_hexdump] logs the buffer in lines of sixteen bytes: line
    number k shows the offset 16 * k in hexadecimal (four digits at
    least), a colon, and each byte of the chunk as a space and two
    hexadecimal digits; there are as many lines as chunks, the last one
    for the bytes that are left.  What [linebuf] held before plays no
    part, except for a length of zero or less, where the one line logged
    is that content. *)
Theorem hexdump_lines stale d len :
  let shown := firstn (Z.to_nat len) d in
  buf_hexdump stale d len
  = match shown with
    | [] => [stale]
    | _ :: _ => map (dump_line shown) (seq 0 ((List.length shown + 15) / 16))
    end.
Proof.
  intros shown.
  assert (buf_hexdump stale d len
          = buf_hexdump stale shown (Z.of_nat (List.length shown))) as E
    by (unfold buf_hexdump; rewrite Nat2Z.id, firstn_all; reflexivity).
  rewrite E. destruct shown as [|b rest]; [reflexivity|].
  apply buf_hexdump_shown.
Qed.

Lemma strip_zeros_length minw s :
  (String.length (strip_zeros minw s) <= String.length s)%nat.
Proof.
  induction s as [|c r IH]; [simpl; lia|]. cbn [strip_zeros].
  destruct (Ascii.eqb c "0" && (minw <? String.length (String c r))%nat);
    simpl in *; lia.
Qed.

Lemma hex_fixed_length w : forall n, String.length (hex_fixed w n) = w.
Proof.
  induction w as [|w IH]; intros n; simpl; [reflexivity|].
  rewrite string_length_app, IH. simpl. lia.
Qed.

Lemma fmt_x_length minw n : (String.length (fmt_x minw n) <= 8)%nat.
Proof.
  unfold fmt_x.
  pose proof (strip_zeros_length minw (hex_fixed 8 (n mod 4294967296))) as L.
  rewrite hex_fixed_length in L. exact L.
Qed.

(** A byte is shown with two digits. *)
Lemma fmt_x_byte b : String.length (fmt_x 2 (u8 b)) = 2%nat.
Proof. destruct b; reflexivity. Qed.

Lemma hex_bytes_length bs :
  String.length (hex_bytes bs) = (3 * List.length bs)%nat.
Proof.
  induction bs as [|b bs IH]; [reflexivity|]. cbn [hex_bytes List.length].
  rewrite !string_length_app, fmt_x_byte, IH.
  change (String.length " ") with 1%nat. lia.
Qed.

Lemma dump_line_length d k :
  (String.length (dump_line d k) <= 57)%nat.
Proof.
  unfold dump_line. rewrite !string_length_app, hex_bytes_length.
  pose proof (fmt_x_length 4 (16 * Z.of_nat k)).
  pose proof (firstn_le_length 16 (skipn (16 * k) d)).
  change (String.length ":") with 1%nat. lia.
Qed.

(** X20.  The lines of a dump fit the array they are built in: each
    line of the dump of a buffer that is not empty has 57 characters at
    most (an offset of eight digits at most, the colon, and three
    characters for each of sixteen bytes), so with the closing NUL the
    80 bytes of [linebuf] are never exceeded, whatever the length of the
    buffer. *)
Theorem hexdump_lines_fit stale d len line :
  firstn (Z.to_nat len) d <> [] ->
  In line (buf_hexdump stale d len) ->
  (String.length line + 1 <= 58)%nat.
Proof.
  intros N I.
  assert (buf_hexdump stale d len
          = buf_hexdump stale (firstn (Z.to_nat len) d)
                        (Z.of_nat (List.length (firstn (Z.to_nat len) d)))) as E
    by (unfold buf_hexdump; rewrite Nat2Z.id, firstn_all; reflexivity).
  rewrite E in I. destruct (firstn (Z.to_nat len) d) as [|b rest];
    [contradiction|].
  rewrite buf_hexdump_shown in I. apply in_map_iff in I.
  destruct I as (k & <- & _).
  pose proof (dump_line_length (b :: rest) k). lia.
Qed.

Lemma hexdump_lines_fit_witness :
  firstn (Z.to_nat 3) payload3 <> [] /\
  In "0000: 45 00 1c"%string (buf_hexdump "" payload3 3) /\
  (String.length "0000: 45 00 1c" + 1 <= 58)%nat.
Proof.
  assert (N : firstn (Z.to_nat 3) payload3 <> []) by discriminate.
  assert (I : In "0000: 45 00 1c"%string (buf_hexdump "" payload3 3))
    by (left; reflexivity).
  split; [exact N|]. split; [exact I|].
  exact (hexdump_lines_fit "" payload3 3 "0000: 45 00 1c" N I).
Defined.
